(** * PathwayDB: storage engine, TTL sweeper, analysis engine and
      command dispatcher, embedded from the Go sources.

    The Badger key-value store is modelled as a finite map from keys to
    entries; every entry carries the optional engine-level expiry that
    [setWithTTL] attaches.  Prefix iteration returns the live entries in
    ascending byte order of their keys.  Wall-clock time is an integer
    number of seconds since the Unix epoch (the resolution of RFC3339 and
    of Badger's expiry), and every operation runs at one instant [now]. *)

From Stdlib Require Import ZArith String Ascii List Lia.
From stdpp Require Import gmap strings list fin_maps sorting.

Open Scope string_scope.
Open Scope Z_scope.

(** ** Go strings *)

Module GoStrings.

(** [strings.Split(s, sep)] for a one-byte separator. *)
Fixpoint Split (sep : ascii) (s : string) : list string :=
  match s with
  | EmptyString => [EmptyString]
  | String c r =>
      if Ascii.eqb c sep then EmptyString :: Split sep r
      else match Split sep r with
           | [] => [String c EmptyString]
           | h :: t => String c h :: t
           end
  end.

(** [strings.HasPrefix(s, p)]. *)
Definition HasPrefix (s p : string) : bool := String.prefix p s.

(** [s[n:]] and [s[:n]]. *)
Fixpoint drop (n : nat) (s : string) : string :=
  match n, s with
  | O, _ => s
  | S n', String _ r => drop n' r
  | S _, EmptyString => EmptyString
  end.

Fixpoint take (n : nat) (s : string) : string :=
  match n, s with
  | O, _ => EmptyString
  | S n', String c r => String c (take n' r)
  | S _, EmptyString => EmptyString
  end.

(** [strings.TrimPrefix(s, p)]. *)
Definition TrimPrefix (s p : string) : string :=
  if HasPrefix s p then drop (String.length p) s else s.

(** [strings.LastIndex(s, sep)] for a one-byte separator; [-1] when the
    separator does not occur. *)
Fixpoint LastIndex_from (i : Z) (sep : ascii) (s : string) (found : Z) : Z :=
  match s with
  | EmptyString => found
  | String c r =>
      LastIndex_from (i + 1) sep r (if Ascii.eqb c sep then i else found)
  end.

Definition LastIndex (s : string) (sep : ascii) : Z :=
  LastIndex_from 0 sep s (-1).

(** [strings.Join(elems, sep)]. *)
Fixpoint Join (elems : list string) (sep : string) : string :=
  match elems with
  | [] => EmptyString
  | [x] => x
  | x :: rest => x +:+ sep +:+ Join rest sep
  end.

(** Go's [a > b] and [a < b] on strings: byte-wise lexicographic order. *)
Definition gt (a b : string) : bool :=
  match String.compare a b with Gt => true | _ => false end.

Definition lt (a b : string) : bool :=
  match String.compare a b with Lt => true | _ => false end.

(** Decimal rendering of a natural number on at least [w] digits. *)
Definition digit (n : nat) : ascii := ascii_of_nat (48 + n mod 10)%nat.

Fixpoint digits (fuel n : nat) (acc : string) : string :=
  match fuel with
  | O => acc
  | S f =>
      let acc' := String (digit n) acc in
      if Nat.ltb n 10%nat then acc' else digits f (n / 10)%nat acc'
  end.

Fixpoint zeros (k : nat) : string :=
  match k with
  | O => EmptyString
  | S k' => String "0" (zeros k')
  end.

Definition pad (w : nat) (n : nat) : string :=
  let d := digits (S n) n EmptyString in
  zeros (w - String.length d)%nat +:+ d.

(** [strconv.Itoa] and [fmt.Sprintf("%d", n)]. *)
Definition Itoa (z : Z) : string :=
  if z <? 0 then "-" +:+ pad 1 (Z.to_nat (- z)) else pad 1 (Z.to_nat z).

End GoStrings.

(** ** Go time: instants at one-second resolution *)

Module time.

Definition Time : Type := Z.

(** Days since 1970-01-01 to the proleptic Gregorian (year, month, day). *)
Definition civil_from_days (z0 : Z) : Z * Z * Z :=
  let z := z0 + 719468 in
  let era := z / 146097 in
  let doe := z - era * 146097 in
  let yoe := (doe - doe / 1460 + doe / 36524 - doe / 146096) / 365 in
  let y := yoe + era * 400 in
  let doy := doe - (365 * yoe + yoe / 4 - yoe / 100) in
  let mp := (5 * doy + 2) / 153 in
  let d := doy - (153 * mp + 2) / 5 + 1 in
  let m := if mp <? 10 then mp + 3 else mp - 9 in
  (if m <=? 2 then y + 1 else y, m, d).

(** [t.UTC().Format(time.RFC3339)]: [YYYY-MM-DDTHH:MM:SSZ]. *)
Definition FormatRFC3339 (t : Time) : string :=
  let days := t / 86400 in
  let secs := t mod 86400 in
  let '(y, m, d) := civil_from_days days in
  let p2 (x : Z) := GoStrings.pad 2 (Z.to_nat x) in
  GoStrings.pad 4 (Z.to_nat y) +:+ "-" +:+ p2 m +:+ "-" +:+ p2 d +:+ "T"
    +:+ p2 (secs / 3600) +:+ ":" +:+ p2 ((secs mod 3600) / 60) +:+ ":"
    +:+ p2 (secs mod 60) +:+ "Z".

End time.

(** ** models/graph.go *)

Module models.

Definition NodeType : Type := string.
Definition EdgeType : Type := string.
Definition NodeID : Type := string.
Definition EdgeID : Type := string.
Definition GraphID : Type := string.

(** [Attributes]: the values are kept as their JSON text. *)
Definition Attributes : Type := list (string * string).

Record Node := mkNode {
  node_ID : NodeID;
  node_Type : NodeType;
  node_Attributes : Attributes;
  node_CreatedAt : time.Time;
  node_UpdatedAt : time.Time;
  node_ExpiresAt : option time.Time
}.

Record Edge := mkEdge {
  edge_ID : EdgeID;
  edge_Type : EdgeType;
  edge_FromNodeID : NodeID;
  edge_ToNodeID : NodeID;
  edge_Attributes : Attributes;
  edge_CreatedAt : time.Time;
  edge_UpdatedAt : time.Time;
  edge_ExpiresAt : option time.Time
}.

Record Graph := mkGraph {
  graph_ID : GraphID;
  graph_Name : string;
  graph_Description : string;
  graph_CreatedAt : time.Time;
  graph_UpdatedAt : time.Time
}.

(** Stored bytes.  [json.Marshal] output is kept symbolic, one constructor
    per record kind, so that [FromJSON] is the inverse of [ToJSON]; index
    entries hold the raw bytes of an identifier. *)
Inductive Bytes :=
| Raw (s : string)
| NodeJSON (n : Node)
| EdgeJSON (e : Edge)
| GraphJSON (g : Graph).

#[global] Instance Node_eq_dec : EqDecision Node.
Proof. solve_decision. Defined.

#[global] Instance Edge_eq_dec : EqDecision Edge.
Proof. solve_decision. Defined.

#[global] Instance Graph_eq_dec : EqDecision Graph.
Proof. solve_decision. Defined.

#[global] Instance Bytes_eq_dec : EqDecision Bytes.
Proof. solve_decision. Defined.

Definition Node_ToJSON (n : Node) : Bytes := NodeJSON n.
Definition Edge_ToJSON (e : Edge) : Bytes := EdgeJSON e.
Definition Graph_ToJSON (g : Graph) : Bytes := GraphJSON g.

(** [FromJSON]: [None] stands for the decoder's error. *)
Definition Node_FromJSON (b : Bytes) : option Node :=
  match b with NodeJSON n => Some n | _ => None end.

Definition Edge_FromJSON (b : Bytes) : option Edge :=
  match b with EdgeJSON e => Some e | _ => None end.

Definition Graph_FromJSON (b : Bytes) : option Graph :=
  match b with GraphJSON g => Some g | _ => None end.

(** [string(b)]: the text of the bytes.  For a marshalled record only the
    identifying fields are spelled out. *)
Definition Bytes_string (b : Bytes) : string :=
  match b with
  | Raw s => s
  | NodeJSON n => "{id:" +:+ node_ID n +:+ ",type:" +:+ node_Type n +:+ "}"
  | EdgeJSON e =>
      "{id:" +:+ edge_ID e +:+ ",type:" +:+ edge_Type e +:+ ",from_node_id:"
        +:+ edge_FromNodeID e +:+ ",to_node_id:" +:+ edge_ToNodeID e +:+ "}"
  | GraphJSON g => "{id:" +:+ graph_ID g +:+ ",name:" +:+ graph_Name g +:+ "}"
  end.

End models.

(** ** utils/encoding.go *)

Module utils.
Import models.

Definition GraphPrefix : string := "g:".
Definition NodePrefix : string := "n:".
Definition EdgePrefix : string := "e:".
Definition NodeIndexPrefix : string := "ni:".
Definition EdgeIndexPrefix : string := "ei:".
Definition TypeIndexPrefix : string := "ti:".
Definition ExpiryIndexPrefix : string := "xi:".

Definition colon : ascii := ":"%char.

Definition EncodeGraphKey (graphID : GraphID) : string :=
  GraphPrefix +:+ graphID.

Definition EncodeNodeKey (graphID : GraphID) (nodeID : NodeID) : string :=
  NodePrefix +:+ graphID +:+ ":" +:+ nodeID.

Definition EncodeEdgeKey (graphID : GraphID) (edgeID : EdgeID) : string :=
  EdgePrefix +:+ graphID +:+ ":" +:+ edgeID.

Definition EncodeNodeTypeIndexKey (graphID : GraphID) (nodeType : NodeType)
    (nodeID : NodeID) : string :=
  TypeIndexPrefix +:+ "n:" +:+ graphID +:+ ":" +:+ nodeType +:+ ":" +:+ nodeID.

Definition EncodeEdgeTypeIndexKey (graphID : GraphID) (edgeType : EdgeType)
    (edgeID : EdgeID) : string :=
  TypeIndexPrefix +:+ "e:" +:+ graphID +:+ ":" +:+ edgeType +:+ ":" +:+ edgeID.

Definition EncodeNodeOutEdgeIndexKey (graphID : GraphID) (nodeID : NodeID)
    (edgeID : EdgeID) : string :=
  NodeIndexPrefix +:+ "out:" +:+ graphID +:+ ":" +:+ nodeID +:+ ":" +:+ edgeID.

Definition EncodeNodeInEdgeIndexKey (graphID : GraphID) (nodeID : NodeID)
    (edgeID : EdgeID) : string :=
  NodeIndexPrefix +:+ "in:" +:+ graphID +:+ ":" +:+ nodeID +:+ ":" +:+ edgeID.

Definition DecodeNodeKey (key : string) : GraphID * NodeID :=
  if GoStrings.HasPrefix key NodePrefix then
    match GoStrings.Split colon (GoStrings.drop (String.length NodePrefix) key) with
    | [a; b] => (a, b)
    | _ => ("", "")
    end
  else ("", "").

Definition DecodeEdgeKey (key : string) : GraphID * EdgeID :=
  if GoStrings.HasPrefix key EdgePrefix then
    match GoStrings.Split colon (GoStrings.drop (String.length EdgePrefix) key) with
    | [a; b] => (a, b)
    | _ => ("", "")
    end
  else ("", "").

Definition CreateNodeIteratorPrefix (graphID : GraphID) : string :=
  NodePrefix +:+ graphID +:+ ":".

Definition CreateEdgeIteratorPrefix (graphID : GraphID) : string :=
  EdgePrefix +:+ graphID +:+ ":".

Definition CreateTypeIteratorPrefix (graphID : GraphID)
    (entityType typeValue : string) : string :=
  TypeIndexPrefix +:+ entityType +:+ ":" +:+ graphID +:+ ":" +:+ typeValue +:+ ":".

Definition EncodeExpiryIndexKey (graphID : GraphID) (nodeID : NodeID)
    (expiresAt : time.Time) : string :=
  ExpiryIndexPrefix +:+ time.FormatRFC3339 expiresAt +:+ ":" +:+ graphID
    +:+ ":" +:+ nodeID.

Definition DecodeExpiryIndexKey (key : string) : GraphID * NodeID :=
  let keyStr := GoStrings.TrimPrefix key ExpiryIndexPrefix in
  let lastColon := GoStrings.LastIndex keyStr colon in
  if lastColon =? -1 then ("", "")
  else
    let nodeID := GoStrings.drop (Z.to_nat (lastColon + 1)) keyStr in
    let remaining := GoStrings.take (Z.to_nat lastColon) keyStr in
    let secondLastColon := GoStrings.LastIndex remaining colon in
    if secondLastColon =? -1 then ("", "")
    else (GoStrings.drop (Z.to_nat (secondLastColon + 1)) remaining, nodeID).

Definition CreateExpiryIteratorPrefix : string := ExpiryIndexPrefix.

End utils.

(** ** The Badger contract used by the storage engine *)

Module badger.
Import models.

(** A stored entry: the value and the expiry set by [WithTTL], if any. *)
Record Entry := mkEntry {
  entry_Value : Bytes;
  entry_ExpiresAt : option time.Time
}.

#[global] Instance Entry_eq_dec : EqDecision Entry.
Proof. solve_decision. Defined.

Abbreviation DB := (gmap string Entry).

(** An entry whose expiry has been reached is invisible to every read. *)
Definition live (now : time.Time) (e : Entry) : bool :=
  match entry_ExpiresAt e with
  | None => true
  | Some t => now <? t
  end.

(** [txn.Get]: [None] is [ErrKeyNotFound]. *)
Definition Txn_Get (now : time.Time) (kv : DB) (key : string) : option Bytes :=
  match kv !! key with
  | Some e => if live now e then Some (entry_Value e) else None
  | None => None
  end.

(** [txn.Set]. *)
Definition Txn_Set (key : string) (value : Bytes) (kv : DB) : DB :=
  <[key := mkEntry value None]> kv.

(** [txn.SetEntry(badger.NewEntry(key, value).WithTTL(ttl))]. *)
Definition Txn_SetEntryWithTTL (now : time.Time) (key : string) (value : Bytes)
    (ttl : Z) (kv : DB) : DB :=
  <[key := mkEntry value (Some (now + ttl))]> kv.

(** [txn.Delete]: deleting an absent key is not an error. *)
Definition Txn_Delete (key : string) (kv : DB) : DB := delete key kv.

Definition key_leb (a b : string) : bool :=
  match String.compare a b with Gt => false | _ => true end.

Definition item_le (a b : string * Entry) : Prop := key_leb a.1 b.1 = true.

#[global] Instance item_le_dec : RelDecision item_le.
Proof. intros a b. unfold item_le. apply _. Defined.

Definition visible (now : time.Time) (prefix : string) (kv : string * Entry) : bool :=
  GoStrings.HasPrefix kv.1 prefix && live now kv.2.

(** [it.Seek(prefix); it.ValidForPrefix(prefix); it.Next()]: the items an
    iterator created on [kv] yields, in ascending key order.  An iterator
    is a snapshot: writes made after its creation do not show in it. *)
Definition Iterate (now : time.Time) (kv : DB) (prefix : string)
    : list (string * Bytes) :=
  (fun it : string * Entry => (it.1, entry_Value it.2))
    <$> merge_sort item_le (List.filter (visible now prefix) (map_to_list kv)).

(** Errors are their messages. *)
Inductive result (A : Type) :=
| Ok (a : A)
| Err (msg : string).
Arguments Ok {A} a.
Arguments Err {A} msg.

Definition is_Ok {A} (r : result A) : bool :=
  match r with Ok _ => true | Err _ => false end.

(** [db.Update(fn)]: the writes of [fn] are committed when it returns
    [nil] and discarded when it returns an error. *)
Definition Update {A} (kv : DB) (fn : DB -> result A * DB) : result A * DB :=
  let (r, kv') := fn kv in
  match r with
  | Ok _ => (r, kv')
  | Err _ => (r, kv)
  end.

(** [db.View(fn)]. *)
Definition View {A} (kv : DB) (fn : DB -> result A) : result A := fn kv.

End badger.

(** ** storage: methods of [BadgerTransaction] (node.go, edge.go)

    A method takes the transaction's pending state and returns its error
    value together with the state it leaves behind; on an error the state
    holds the writes made before the failure. *)

Module BadgerTransaction.
Import models utils badger.

Definition GetNode (now : time.Time) (kv : DB) (graphID : GraphID)
    (nodeID : NodeID) : result Node :=
  match Txn_Get now kv (EncodeNodeKey graphID nodeID) with
  | None => Err ("node not found: " +:+ nodeID)
  | Some nodeValue =>
      match Node_FromJSON nodeValue with
      | Some node => Ok node
      | None => Err "failed to deserialize node: invalid JSON"
      end
  end.

Definition CreateNode (graphID : GraphID) (node : Node) (kv : DB)
    : result unit * DB :=
  let kv := Txn_Set (EncodeNodeKey graphID (node_ID node)) (Node_ToJSON node) kv in
  let kv := Txn_Set (EncodeNodeTypeIndexKey graphID (node_Type node) (node_ID node))
              (Raw (node_ID node)) kv in
  let kv := match node_ExpiresAt node with
            | Some expiresAt =>
                Txn_Set (EncodeExpiryIndexKey graphID (node_ID node) expiresAt)
                  (Raw (node_ID node)) kv
            | None => kv
            end in
  (Ok tt, kv).

Definition UpdateNode (now : time.Time) (graphID : GraphID) (node : Node)
    (kv : DB) : result unit * DB :=
  match GetNode now kv graphID (node_ID node) with
  | Err m => (Err ("node does not exist: " +:+ m), kv)
  | Ok existingNode =>
      let kv :=
        if String.eqb (node_Type existingNode) (node_Type node) then kv
        else
          let kv := Txn_Delete
                      (EncodeNodeTypeIndexKey graphID (node_Type existingNode)
                         (node_ID node)) kv in
          Txn_Set (EncodeNodeTypeIndexKey graphID (node_Type node) (node_ID node))
            (Raw (node_ID node)) kv in
      let kv :=
        match node_ExpiresAt existingNode, node_ExpiresAt node with
        | Some old, None =>
            Txn_Delete (EncodeExpiryIndexKey graphID (node_ID existingNode) old) kv
        | Some old, Some new =>
            if old =? new then kv
            else Txn_Delete (EncodeExpiryIndexKey graphID (node_ID existingNode) old) kv
        | None, _ => kv
        end in
      let kv :=
        match node_ExpiresAt node, node_ExpiresAt existingNode with
        | Some new, None =>
            Txn_Set (EncodeExpiryIndexKey graphID (node_ID node) new)
              (Raw (node_ID node)) kv
        | Some new, Some old =>
            if new =? old then kv
            else Txn_Set (EncodeExpiryIndexKey graphID (node_ID node) new)
                   (Raw (node_ID node)) kv
        | None, _ => kv
        end in
      (Ok tt, Txn_Set (EncodeNodeKey graphID (node_ID node)) (Node_ToJSON node) kv)
  end.

Definition GetEdge (now : time.Time) (kv : DB) (graphID : GraphID)
    (edgeID : EdgeID) : result Edge :=
  match Txn_Get now kv (EncodeEdgeKey graphID edgeID) with
  | None => Err ("edge not found: " +:+ edgeID)
  | Some edgeValue =>
      match Edge_FromJSON edgeValue with
      | Some edge => Ok edge
      | None => Err "failed to deserialize edge: invalid JSON"
      end
  end.

Definition CreateEdge (now : time.Time) (graphID : GraphID) (edge : Edge)
    (kv : DB) : result unit * DB :=
  match GetNode now kv graphID (edge_FromNodeID edge) with
  | Err m => (Err ("source node does not exist: " +:+ m), kv)
  | Ok _ =>
  match GetNode now kv graphID (edge_ToNodeID edge) with
  | Err m => (Err ("target node does not exist: " +:+ m), kv)
  | Ok _ =>
      let edgeKey := EncodeEdgeKey graphID (edge_ID edge) in
      let edgeValue := Edge_ToJSON edge in
      let index (kv : DB) : result unit * DB :=
        let kv := Txn_Set (EncodeEdgeTypeIndexKey graphID (edge_Type edge) (edge_ID edge))
                    (Raw (edge_ID edge)) kv in
        let kv := Txn_Set (EncodeNodeOutEdgeIndexKey graphID (edge_FromNodeID edge)
                             (edge_ID edge)) (Raw (edge_ID edge)) kv in
        let kv := Txn_Set (EncodeNodeInEdgeIndexKey graphID (edge_ToNodeID edge)
                             (edge_ID edge)) (Raw (edge_ID edge)) kv in
        (Ok tt, kv) in
      match edge_ExpiresAt edge with
      | Some expiresAt =>
          let ttl := expiresAt - now in
          if 0 <? ttl then index (Txn_SetEntryWithTTL now edgeKey edgeValue ttl kv)
          else (Ok tt, kv)
      | None => index (Txn_Set edgeKey edgeValue kv)
      end
  end
  end.

Definition DeleteEdge (now : time.Time) (graphID : GraphID) (edgeID : EdgeID)
    (kv : DB) : result unit * DB :=
  match GetEdge now kv graphID edgeID with
  | Err m => (Err ("edge does not exist: " +:+ m), kv)
  | Ok edge =>
      let kv := Txn_Delete (EncodeEdgeKey graphID edgeID) kv in
      let kv := Txn_Delete (EncodeEdgeTypeIndexKey graphID (edge_Type edge) edgeID) kv in
      let kv := Txn_Delete
                  (EncodeNodeOutEdgeIndexKey graphID (edge_FromNodeID edge) edgeID) kv in
      let kv := Txn_Delete
                  (EncodeNodeInEdgeIndexKey graphID (edge_ToNodeID edge) edgeID) kv in
      (Ok tt, kv)
  end.

Definition UpdateEdge (now : time.Time) (graphID : GraphID) (edge : Edge)
    (kv : DB) : result unit * DB :=
  match GetEdge now kv graphID (edge_ID edge) with
  | Err m => (Err ("edge does not exist: " +:+ m), kv)
  | Ok existingEdge =>
      let kv :=
        if String.eqb (edge_Type existingEdge) (edge_Type edge) then kv
        else
          let kv := Txn_Delete
                      (EncodeEdgeTypeIndexKey graphID (edge_Type existingEdge)
                         (edge_ID edge)) kv in
          Txn_Set (EncodeEdgeTypeIndexKey graphID (edge_Type edge) (edge_ID edge))
            (Raw (edge_ID edge)) kv in
      let store (kv : DB) : result unit * DB :=
        let edgeKey := EncodeEdgeKey graphID (edge_ID edge) in
        let edgeValue := Edge_ToJSON edge in
        match edge_ExpiresAt edge with
        | Some expiresAt =>
            let ttl := expiresAt - now in
            if 0 <? ttl then (Ok tt, Txn_SetEntryWithTTL now edgeKey edgeValue ttl kv)
            else DeleteEdge now graphID (edge_ID edge) kv
        | None => (Ok tt, Txn_Set edgeKey edgeValue kv)
        end in
      if String.eqb (edge_FromNodeID existingEdge) (edge_FromNodeID edge)
         && String.eqb (edge_ToNodeID existingEdge) (edge_ToNodeID edge)
      then store kv
      else
        let kv := Txn_Delete
                    (EncodeNodeOutEdgeIndexKey graphID (edge_FromNodeID existingEdge)
                       (edge_ID edge)) kv in
        let kv := Txn_Delete
                    (EncodeNodeInEdgeIndexKey graphID (edge_ToNodeID existingEdge)
                       (edge_ID edge)) kv in
        match GetNode now kv graphID (edge_FromNodeID edge) with
        | Err m => (Err ("new source node does not exist: " +:+ m), kv)
        | Ok _ =>
        match GetNode now kv graphID (edge_ToNodeID edge) with
        | Err m => (Err ("new target node does not exist: " +:+ m), kv)
        | Ok _ =>
            let kv := Txn_Set
                        (EncodeNodeOutEdgeIndexKey graphID (edge_FromNodeID edge)
                           (edge_ID edge)) (Raw (edge_ID edge)) kv in
            let kv := Txn_Set
                        (EncodeNodeInEdgeIndexKey graphID (edge_ToNodeID edge)
                           (edge_ID edge)) (Raw (edge_ID edge)) kv in
            store kv
        end
        end
  end.

(** The cascade loops of [DeleteNode]: for every item of the iterator,
    [DeleteEdge(graphID, EdgeID(val))]; the first failure is returned
    wrapped in [wrap]. *)
Fixpoint deleteEdgesOf (now : time.Time) (graphID : GraphID) (wrap : string)
    (items : list (string * Bytes)) (kv : DB) : result unit * DB :=
  match items with
  | [] => (Ok tt, kv)
  | (_, val) :: rest =>
      match DeleteEdge now graphID (Bytes_string val) kv with
      | (Err m, kv') => (Err (wrap +:+ m), kv')
      | (Ok _, kv') => deleteEdgesOf now graphID wrap rest kv'
      end
  end.

Definition DeleteNode (now : time.Time) (graphID : GraphID) (nodeID : NodeID)
    (kv : DB) : result unit * DB :=
  match GetNode now kv graphID nodeID with
  | Err m => (Err ("node does not exist: " +:+ m), kv)
  | Ok node =>
      let kv := Txn_Delete (EncodeNodeKey graphID nodeID) kv in
      let kv := Txn_Delete (EncodeNodeTypeIndexKey graphID (node_Type node) nodeID) kv in
      let kv := match node_ExpiresAt node with
                | Some expiresAt =>
                    Txn_Delete (EncodeExpiryIndexKey graphID (node_ID node) expiresAt) kv
                | None => kv
                end in
      let outgoingPrefix :=
        NodeIndexPrefix +:+ "out:" +:+ graphID +:+ ":" +:+ nodeID +:+ ":" in
      match deleteEdgesOf now graphID
              "failed to delete outgoing edge during node deletion: "
              (Iterate now kv outgoingPrefix) kv with
      | (Err m, kv') => (Err m, kv')
      | (Ok _, kv) =>
          let incomingPrefix :=
            NodeIndexPrefix +:+ "in:" +:+ graphID +:+ ":" +:+ nodeID +:+ ":" in
          deleteEdgesOf now graphID
            "failed to delete incoming edge during node deletion: "
            (Iterate now kv incomingPrefix) kv
      end
  end.

End BadgerTransaction.

(** ** storage: methods of [BadgerEngine] (badger.go, node.go, edge.go,
       graph.go) *)

Module BadgerEngine.
Import models utils badger.

(** The engine: [db] is [None] until [Open] succeeds. *)
Record t := mkEngine { db : option DB }.

(** [if e.db == nil { return error }] followed by [e.db.Update(fn)]. *)
Definition update {A} (e : t) (fn : DB -> result A * DB) : result A * t :=
  match db e with
  | None => (Err "database not opened", e)
  | Some kv => let (r, kv') := Update kv fn in (r, mkEngine (Some kv'))
  end.

(** [if e.db == nil { return error }] followed by [e.db.View(fn)]. *)
Definition view {A} (e : t) (fn : DB -> result A) : result A :=
  match db e with
  | None => Err "database not opened"
  | Some kv => View kv fn
  end.

(** The loop of [iterateWithPrefix]; [acc] is the state captured by the
    callback. *)
Fixpoint iterateItems {A} (items : list (string * Bytes))
    (fn : string -> Bytes -> A -> result A) (acc : A) : result A :=
  match items with
  | [] => Ok acc
  | (key, value) :: rest =>
      match fn key value acc with
      | Ok acc' => iterateItems rest fn acc'
      | Err m => Err m
      end
  end.

Definition iterateWithPrefix {A} (now : time.Time) (e : t) (prefix : string)
    (fn : string -> Bytes -> A -> result A) (acc : A) : result A :=
  view e (fun kv => iterateItems (Iterate now kv prefix) fn acc).

Definition wrap {A} (msg : string) (r : result A) : result A :=
  match r with
  | Ok a => Ok a
  | Err m => Err (msg +:+ m)
  end.

(** *** Nodes *)

Definition CreateNode (e : t) (graphID : GraphID) (node : Node) : result unit * t :=
  update e (BadgerTransaction.CreateNode graphID node).

Definition GetNode (now : time.Time) (e : t) (graphID : GraphID) (nodeID : NodeID)
    : result Node :=
  view e (fun kv => BadgerTransaction.GetNode now kv graphID nodeID).

Definition UpdateNode (now : time.Time) (e : t) (graphID : GraphID) (node : Node)
    : result unit * t :=
  update e (BadgerTransaction.UpdateNode now graphID node).

Definition DeleteNode (now : time.Time) (e : t) (graphID : GraphID)
    (nodeID : NodeID) : result unit * t :=
  update e (BadgerTransaction.DeleteNode now graphID nodeID).

Definition ListNodes (now : time.Time) (e : t) (graphID : GraphID)
    : result (list Node) :=
  match db e with
  | None => Err "database not opened"
  | Some _ =>
      wrap "failed to list nodes: "
        (iterateWithPrefix now e (CreateNodeIteratorPrefix graphID)
           (fun _ value nodes =>
              match Node_FromJSON value with
              | Some node => Ok (nodes ++ [node])%list
              | None => Err "failed to deserialize node: invalid JSON"
              end) [])
  end.

Definition ListNodesByType (now : time.Time) (e : t) (graphID : GraphID)
    (nodeType : NodeType) : result (list Node) :=
  match db e with
  | None => Err "database not opened"
  | Some _ =>
      wrap "failed to list nodes by type: "
        (iterateWithPrefix now e (CreateTypeIteratorPrefix graphID "n" nodeType)
           (fun key _ nodes =>
              let parts := GoStrings.Split colon key in
              if (4 <=? length parts)%nat then
                match GetNode now e graphID (List.last parts "") with
                | Ok node => Ok (nodes ++ [node])%list
                | Err m => Err m
                end
              else Ok nodes) [])
  end.

(** *** Edges *)

Definition CreateEdge (now : time.Time) (e : t) (graphID : GraphID) (edge : Edge)
    : result unit * t :=
  update e (BadgerTransaction.CreateEdge now graphID edge).

Definition GetEdge (now : time.Time) (e : t) (graphID : GraphID) (edgeID : EdgeID)
    : result Edge :=
  view e (fun kv => BadgerTransaction.GetEdge now kv graphID edgeID).

Definition UpdateEdge (now : time.Time) (e : t) (graphID : GraphID) (edge : Edge)
    : result unit * t :=
  update e (BadgerTransaction.UpdateEdge now graphID edge).

Definition DeleteEdge (now : time.Time) (e : t) (graphID : GraphID)
    (edgeID : EdgeID) : result unit * t :=
  update e (BadgerTransaction.DeleteEdge now graphID edgeID).

(** The callback shared by [ListEdgesByType], [GetOutgoingEdges] and
    [GetIncomingEdges]: the index value is the edge ID; an edge that
    cannot be fetched is skipped. *)
Definition collectEdge (now : time.Time) (e : t) (graphID : GraphID)
    (_ : string) (value : Bytes) (edges : list Edge) : result (list Edge) :=
  match GetEdge now e graphID (Bytes_string value) with
  | Ok edge => Ok (edges ++ [edge])%list
  | Err _ => Ok edges
  end.

Definition ListEdges (now : time.Time) (e : t) (graphID : GraphID)
    : result (list Edge) :=
  match db e with
  | None => Err "database not opened"
  | Some _ =>
      wrap "failed to list edges: "
        (iterateWithPrefix now e (CreateEdgeIteratorPrefix graphID)
           (fun _ value edges =>
              match Edge_FromJSON value with
              | Some edge => Ok (edges ++ [edge])%list
              | None => Err "failed to deserialize edge: invalid JSON"
              end) [])
  end.

Definition ListEdgesByType (now : time.Time) (e : t) (graphID : GraphID)
    (edgeType : EdgeType) : result (list Edge) :=
  match db e with
  | None => Err "database not opened"
  | Some _ =>
      wrap "failed to list edges by type: "
        (iterateWithPrefix now e (CreateTypeIteratorPrefix graphID "e" edgeType)
           (collectEdge now e graphID) [])
  end.

Definition GetOutgoingEdges (now : time.Time) (e : t) (graphID : GraphID)
    (nodeID : NodeID) : result (list Edge) :=
  match db e with
  | None => Err "database not opened"
  | Some _ =>
      wrap "failed to get outgoing edges: "
        (iterateWithPrefix now e
           (NodeIndexPrefix +:+ "out:" +:+ graphID +:+ ":" +:+ nodeID +:+ ":")
           (collectEdge now e graphID) [])
  end.

Definition GetIncomingEdges (now : time.Time) (e : t) (graphID : GraphID)
    (nodeID : NodeID) : result (list Edge) :=
  match db e with
  | None => Err "database not opened"
  | Some _ =>
      wrap "failed to get incoming edges: "
        (iterateWithPrefix now e
           (NodeIndexPrefix +:+ "in:" +:+ graphID +:+ ":" +:+ nodeID +:+ ":")
           (collectEdge now e graphID) [])
  end.

(** *** Graphs *)

Definition CreateGraph (e : t) (graph : Graph) : result unit * t :=
  update e (fun kv =>
    (Ok tt, Txn_Set (EncodeGraphKey (graph_ID graph)) (Graph_ToJSON graph) kv)).

Definition GetGraph (now : time.Time) (e : t) (graphID : GraphID) : result Graph :=
  view e (fun kv =>
    match Txn_Get now kv (EncodeGraphKey graphID) with
    | None => Err ("graph not found: " +:+ graphID)
    | Some value =>
        match Graph_FromJSON value with
        | Some graph => Ok graph
        | None => Err "failed to deserialize graph: invalid JSON"
        end
    end).

Definition UpdateGraph (now : time.Time) (e : t) (graph : Graph) : result unit * t :=
  match db e with
  | None => (Err "database not opened", e)
  | Some _ =>
      match GetGraph now e (graph_ID graph) with
      | Err m => (Err ("graph does not exist: " +:+ m), e)
      | Ok _ => CreateGraph e graph
      end
  end.

(** Phase 1 of [DeleteGraph]: every node key of the iterator is decoded
    and the node deleted; a failing deletion is ignored and its partial
    writes stay in the transaction. *)
Fixpoint deleteNodesOf (now : time.Time) (graphID : GraphID)
    (items : list (string * Bytes)) (kv : DB) : DB :=
  match items with
  | [] => kv
  | (key, _) :: rest =>
      let nodeID := (DecodeNodeKey key).2 in
      let kv := if String.eqb nodeID "" then kv
                else (BadgerTransaction.DeleteNode now graphID nodeID kv).2 in
      deleteNodesOf now graphID rest kv
  end.

(** Phase 2 of [DeleteGraph]: the remaining edge keys. *)
Fixpoint deleteOrphanEdgesOf (now : time.Time) (graphID : GraphID)
    (items : list (string * Bytes)) (kv : DB) : DB :=
  match items with
  | [] => kv
  | (key, _) :: rest =>
      let edgeID := (DecodeEdgeKey key).2 in
      let kv := if String.eqb edgeID "" then kv
                else (BadgerTransaction.DeleteEdge now graphID edgeID kv).2 in
      deleteOrphanEdgesOf now graphID rest kv
  end.

Definition DeleteGraph (now : time.Time) (e : t) (graphID : GraphID)
    : result unit * t :=
  update e (fun kv =>
    let kv := deleteNodesOf now graphID
                (Iterate now kv (CreateNodeIteratorPrefix graphID)) kv in
    let kv := deleteOrphanEdgesOf now graphID
                (Iterate now kv (CreateEdgeIteratorPrefix graphID)) kv in
    (Ok tt, Txn_Delete (EncodeGraphKey graphID) kv)).

Definition CountNodes (now : time.Time) (e : t) (graphID : GraphID) : result Z :=
  view e (fun kv =>
    Ok (Z.of_nat (length (Iterate now kv (CreateNodeIteratorPrefix graphID))))).

Definition CountEdges (now : time.Time) (e : t) (graphID : GraphID) : result Z :=
  view e (fun kv =>
    Ok (Z.of_nat (length (Iterate now kv (CreateEdgeIteratorPrefix graphID))))).

End BadgerEngine.

(** ** storage/ttl.go *)

Module TTLManager.
Import models utils badger.

(** Phase 1 of [cleanupExpiredNodes]: keys are collected until the first
    one whose second [:]-separated part is greater than [now]. *)
Fixpoint collectExpired (now : string) (items : list (string * Bytes))
    (expiredKeys : list string) : list string :=
  match items with
  | [] => expiredKeys
  | (key, _) :: rest =>
      let parts := GoStrings.Split colon key in
      if (2 <=? length parts)%nat && GoStrings.gt (nth 1 parts "") now
      then expiredKeys
      else collectExpired now rest (expiredKeys ++ [key])%list
  end.

(** Phase 2: every collected key is decoded and its node deleted, each in
    a transaction of its own; a failure is only logged. *)
Fixpoint deleteExpired (now : time.Time) (e : BadgerEngine.t)
    (expiredKeys : list string) : BadgerEngine.t :=
  match expiredKeys with
  | [] => e
  | key :: rest =>
      let '(graphID, nodeID) := DecodeExpiryIndexKey key in
      let e := if negb (String.eqb graphID "") && negb (String.eqb nodeID "")
               then (BadgerEngine.DeleteNode now e graphID nodeID).2
               else e in
      deleteExpired now e rest
  end.

(** The manager is started by [Open], so the database is open whenever a
    sweep runs. *)
Definition cleanupExpiredNodes (now : time.Time) (e : BadgerEngine.t)
    : BadgerEngine.t :=
  match BadgerEngine.db e with
  | None => e
  | Some kv =>
      let expiredKeys :=
        collectExpired (time.FormatRFC3339 now)
          (Iterate now kv CreateExpiryIteratorPrefix) [] in
      deleteExpired now e expiredKeys
  end.

Definition Cleanup (now : time.Time) (e : BadgerEngine.t) : BadgerEngine.t :=
  cleanupExpiredNodes now e.

End TTLManager.

(** ** types/analysis.go *)

Module types.
Import models.

Inductive TraversalDirection :=
| DirectionForward
| DirectionBackward
| DirectionBoth.

Record TraversalOptions := mkOptions {
  MaxDepth : Z;
  EdgeTypes : list EdgeType;
  NodeTypes : list NodeType;
  Direction : TraversalDirection;
  StopCondition : option (Node -> bool)
}.

Record TraversalResult := mkTraversalResult {
  tr_Nodes : list Node;
  tr_Edges : list Edge;
  tr_Path : list NodeID;
  tr_Distance : Z
}.

Record PathResult := mkPathResult {
  pr_FromNodeID : NodeID;
  pr_ToNodeID : NodeID;
  pr_Path : list NodeID;
  pr_Length : Z;
  pr_Edges : list EdgeID
}.

End types.

(** ** Go slices

    A slice is a window on a backing array: [append] writes in place
    while the capacity allows and moves to a fresh, larger array
    otherwise, so two slices appended to from the same full-length parent
    share their cells. *)

Module GoSlice.

Record slice := mkSlice {
  arr : nat;
  len : nat;
  cap : nat
}.

(** The backing arrays allocated so far, by allocation number; an array
    is kept as its written prefix. *)
Definition heap (A : Type) : Type := list (list A).

(** [s[0], ..., s[len-1]]. *)
Definition read {A} (h : heap A) (s : slice) : list A :=
  take (len s) (default [] (h !! arr s)).

(** The capacity the runtime picks when an append outgrows [oldCap]
    elements: doubling below 256 elements (for the element sizes used
    here the size-class rounding keeps these values), a quarter more above. *)
Definition growcap (oldCap : nat) : nat :=
  if (oldCap =? 0)%nat then 1%nat
  else if (oldCap <? 256)%nat then (2 * oldCap)%nat
  else (oldCap + (oldCap + 768) / 4)%nat.

Definition writeCell {A} (cells : list A) (i : nat) (x : A) : list A :=
  if (i <? length cells)%nat then <[i := x]> cells else (cells ++ [x])%list.

(** [append(s, x)]. *)
Definition append {A} (h : heap A) (s : slice) (x : A) : heap A * slice :=
  if (len s <? cap s)%nat then
    (<[arr s := writeCell (default [] (h !! arr s)) (len s) x]> h,
     mkSlice (arr s) (S (len s)) (cap s))
  else
    ((h ++ [(read h s ++ [x])%list])%list,
     mkSlice (length h) (S (len s)) (growcap (cap s))).

(** A composite literal [[]T{x1, ..., xn}]: a fresh array of exactly that
    length. *)
Definition literal {A} (h : heap A) (xs : list A) : heap A * slice :=
  ((h ++ [xs])%list, mkSlice (length h) (length xs) (length xs)).

End GoSlice.

(** ** analysis/analyzer.go *)

Module GraphAnalyzer.
Import models badger types.

(** The [switch options.Direction] that fetches the edges to follow. *)
Definition connectedEdges (now : time.Time) (e : BadgerEngine.t) (graphID : GraphID)
    (nodeID : NodeID) (direction : TraversalDirection) : result (list Edge) :=
  match direction with
  | DirectionForward =>
      BadgerEngine.wrap "failed to get connected edges: "
        (BadgerEngine.GetOutgoingEdges now e graphID nodeID)
  | DirectionBackward =>
      BadgerEngine.wrap "failed to get connected edges: "
        (BadgerEngine.GetIncomingEdges now e graphID nodeID)
  | DirectionBoth =>
      match BadgerEngine.GetOutgoingEdges now e graphID nodeID with
      | Err m => Err ("failed to get outgoing edges: " +:+ m)
      | Ok outgoing =>
          match BadgerEngine.GetIncomingEdges now e graphID nodeID with
          | Err m => Err ("failed to get incoming edges: " +:+ m)
          | Ok incoming => Ok (outgoing ++ incoming)%list
          end
      end
  end.

(** The [switch options.Direction] that picks the far end of an edge;
    the empty ID when the edge does not leave the current node. *)
Definition nextNodeID (direction : TraversalDirection) (current : NodeID)
    (edge : Edge) : NodeID :=
  match direction with
  | DirectionForward =>
      if String.eqb (edge_FromNodeID edge) current then edge_ToNodeID edge else ""
  | DirectionBackward =>
      if String.eqb (edge_ToNodeID edge) current then edge_FromNodeID edge else ""
  | DirectionBoth =>
      if String.eqb (edge_FromNodeID edge) current then edge_ToNodeID edge
      else if String.eqb (edge_ToNodeID edge) current then edge_FromNodeID edge
      else ""
  end.

(** [if len(options.EdgeTypes) > 0 { ... }]. *)
Definition filterEdgeTypes (edgeTypes : list EdgeType) (edges : list Edge)
    : list Edge :=
  match edgeTypes with
  | [] => edges
  | _ => List.filter (fun edge => existsb (String.eqb (edge_Type edge)) edgeTypes) edges
  end.

Definition nodeTypeMatch (nodeTypes : list NodeType) (node : Node) : bool :=
  match nodeTypes with
  | [] => true
  | _ => existsb (String.eqb (node_Type node)) nodeTypes
  end.

Definition stops (options : TraversalOptions) (node : Node) : bool :=
  match StopCondition options with
  | Some stop => stop node
  | None => false
  end.

Definition defaultDFSOptions : TraversalOptions :=
  mkOptions (-1) [] [] DirectionForward None.

Record stackItem := mkStackItem {
  si_nodeID : NodeID;
  si_depth : Z
}.

(** The push loop of [DepthFirstSearch], run over the edges in reverse
    order; the head of [stack] is the top of the stack. *)
Fixpoint pushEdges (direction : TraversalDirection) (current : stackItem)
    (visited : gset NodeID) (reversed : list Edge) (edges : list Edge)
    (stack : list stackItem) : list Edge * list stackItem :=
  match reversed with
  | [] => (edges, stack)
  | edge :: rest =>
      let next := nextNodeID direction (si_nodeID current) edge in
      if negb (String.eqb next "") && negb (bool_decide (next ∈ visited))
      then pushEdges direction current visited rest (edges ++ [edge])%list
             (mkStackItem next (si_depth current + 1) :: stack)
      else pushEdges direction current visited rest edges stack
  end.

(** The main loop of [DepthFirstSearch]; [None] when [fuel] iterations
    did not empty the stack. *)
Fixpoint dfsLoop (fuel : nat) (now : time.Time) (e : BadgerEngine.t)
    (graphID : GraphID) (options : TraversalOptions) (stack : list stackItem)
    (visited : gset NodeID) (nodes : list Node) (edges : list Edge)
    (path : list NodeID) : option (result TraversalResult) :=
  match fuel with
  | O => None
  | S fuel =>
  match stack with
  | [] => Some (Ok (mkTraversalResult nodes edges path (Z.of_nat (length path) - 1)))
  | current :: stack =>
      if bool_decide (si_nodeID current ∈ visited)
      then dfsLoop fuel now e graphID options stack visited nodes edges path
      else if (0 <=? MaxDepth options) && (MaxDepth options <? si_depth current)
      then dfsLoop fuel now e graphID options stack visited nodes edges path
      else
        let visited := {[si_nodeID current]} ∪ visited in
        match BadgerEngine.GetNode now e graphID (si_nodeID current) with
        | Err m => Some (Err ("failed to get node " +:+ si_nodeID current +:+ ": " +:+ m))
        | Ok node =>
            if stops options node
            then dfsLoop fuel now e graphID options stack visited nodes edges path
            else
              let '(nodes, path) :=
                if nodeTypeMatch (NodeTypes options) node
                then ((nodes ++ [node])%list, (path ++ [si_nodeID current])%list)
                else (nodes, path) in
              match connectedEdges now e graphID (si_nodeID current)
                      (Direction options) with
              | Err m => Some (Err m)
              | Ok connected =>
                  let connected := filterEdgeTypes (EdgeTypes options) connected in
                  let '(edges, stack) :=
                    pushEdges (Direction options) current visited (rev connected)
                      edges stack in
                  dfsLoop fuel now e graphID options stack visited nodes edges path
              end
        end
  end
  end.

Definition DepthFirstSearch (fuel : nat) (now : time.Time) (e : BadgerEngine.t)
    (graphID : GraphID) (startNodeID : NodeID) (options : option TraversalOptions)
    : option (result TraversalResult) :=
  let options := default defaultDFSOptions options in
  dfsLoop fuel now e graphID options [mkStackItem startNodeID 0] ∅ [] [] [].

(** *** GetShortestPath *)

Record queueItem := mkQueueItem {
  qi_nodeID : NodeID;
  qi_depth : Z
}.

Record bfsState := mkBfsState {
  bfs_queue : list queueItem;
  bfs_visited : gset NodeID;
  bfs_parent : gmap NodeID NodeID;
  bfs_edgeMap : gmap NodeID EdgeID
}.

(** The inner loop of the search: every edge leading to an unvisited
    node marks it, records its parent and in-edge, and enqueues it. *)
Fixpoint enqueueEdges (direction : TraversalDirection) (current : queueItem)
    (connected : list Edge) (st : bfsState) : bfsState :=
  match connected with
  | [] => st
  | edge :: rest =>
      let next := nextNodeID direction (qi_nodeID current) edge in
      if negb (String.eqb next "") && negb (bool_decide (next ∈ bfs_visited st))
      then enqueueEdges direction current rest
             (mkBfsState
                (bfs_queue st ++ [mkQueueItem next (qi_depth current + 1)])%list
                ({[next]} ∪ bfs_visited st)
                (<[next := qi_nodeID current]> (bfs_parent st))
                (<[next := edge_ID edge]> (bfs_edgeMap st)))
      else enqueueEdges direction current rest st
  end.

(** [for len(queue) > 0 && !found]: the result is [found] with the final
    maps. *)
Fixpoint bfsLoop (fuel : nat) (now : time.Time) (e : BadgerEngine.t)
    (graphID : GraphID) (toNodeID : NodeID) (direction : TraversalDirection)
    (st : bfsState) : option (result (bool * bfsState)) :=
  match fuel with
  | O => None
  | S fuel =>
  match bfs_queue st with
  | [] => Some (Ok (false, st))
  | current :: queue =>
      let st := mkBfsState queue (bfs_visited st) (bfs_parent st) (bfs_edgeMap st) in
      if String.eqb (qi_nodeID current) toNodeID then Some (Ok (true, st))
      else
        match connectedEdges now e graphID (qi_nodeID current) direction with
        | Err m => Some (Err m)
        | Ok connected =>
            bfsLoop fuel now e graphID toNodeID direction
              (enqueueEdges direction current connected st)
        end
  end
  end.

(** [for currentNode != fromNodeID { ... }]: walks the parents back,
    prepending to [path] and [edges]. *)
Fixpoint reconstruct (fuel : nat) (fromNodeID : NodeID)
    (parent : gmap NodeID NodeID) (edgeMap : gmap NodeID EdgeID)
    (currentNode : NodeID) (path : list NodeID) (edges : list EdgeID)
    : option (list NodeID * list EdgeID) :=
  match fuel with
  | O => None
  | S fuel =>
      if String.eqb currentNode fromNodeID then Some (fromNodeID :: path, edges)
      else
        reconstruct fuel fromNodeID parent edgeMap
          (default "" (parent !! currentNode))
          (currentNode :: path)
          (match edgeMap !! currentNode with
           | Some edgeID => edgeID :: edges
           | None => edges
           end)
  end.

Definition GetShortestPath (fuel : nat) (now : time.Time) (e : BadgerEngine.t)
    (graphID : GraphID) (fromNodeID toNodeID : NodeID)
    (options : option TraversalOptions) : option (result PathResult) :=
  let options := default (mkOptions 0 [] [] DirectionForward None) options in
  match bfsLoop fuel now e graphID toNodeID (Direction options)
          (mkBfsState [mkQueueItem fromNodeID 0] {[fromNodeID]} ∅ ∅) with
  | None => None
  | Some (Err m) => Some (Err m)
  | Some (Ok (false, _)) =>
      Some (Err ("no path found from " +:+ fromNodeID +:+ " to " +:+ toNodeID))
  | Some (Ok (true, st)) =>
      match reconstruct fuel fromNodeID (bfs_parent st) (bfs_edgeMap st)
              toNodeID [] [] with
      | None => None
      | Some (path, edges) =>
          Some (Ok (mkPathResult fromNodeID toNodeID path
                      (Z.of_nat (length path) - 1) edges))
      end
  end.

(** *** AllShortestPaths

    The queue items hold the slices [path] and [edges]; the two heaps are
    the backing arrays of the node-ID slices and of the edge slices. *)

Record pathItem := mkPathItem {
  pi_nodeID : NodeID;
  pi_path : GoSlice.slice;
  pi_edges : GoSlice.slice;
  pi_dist : Z
}.

Record aspState := mkAspState {
  asp_queue : list pathItem;
  asp_nodeHeap : GoSlice.heap NodeID;
  asp_edgeHeap : GoSlice.heap Edge
}.

(** The neighbour loop: [append(current.path, nextNodeID)] and
    [append(current.edges, edge)] for every neighbour that is not on
    [current.path]. *)
Fixpoint exploreNeighbors (current : pathItem) (outgoingEdges : list Edge)
    (st : aspState) : aspState :=
  match outgoingEdges with
  | [] => st
  | edge :: rest =>
      let next := edge_ToNodeID edge in
      let inCurrentPath :=
        existsb (fun pathNode => String.eqb pathNode next)
          (GoSlice.read (asp_nodeHeap st) (pi_path current)) in
      if inCurrentPath then exploreNeighbors current rest st
      else
        let '(nodeHeap, newPath) :=
          GoSlice.append (asp_nodeHeap st) (pi_path current) next in
        let '(edgeHeap, newEdges) :=
          GoSlice.append (asp_edgeHeap st) (pi_edges current) edge in
        exploreNeighbors current rest
          (mkAspState
             (asp_queue st ++ [mkPathItem next newPath newEdges (pi_dist current + 1)])%list
             nodeHeap edgeHeap)
  end.

Fixpoint aspLoop (fuel : nat) (now : time.Time) (e : BadgerEngine.t)
    (graphID : GraphID) (fromNodeID toNodeID : NodeID) (st : aspState)
    (visited : gmap NodeID Z) (allPaths : list PathResult) (minDistance : Z)
    : option (result (list PathResult)) :=
  match fuel with
  | O => None
  | S fuel =>
  match asp_queue st with
  | [] => Some (Ok allPaths)
  | current :: queue =>
      let st := mkAspState queue (asp_nodeHeap st) (asp_edgeHeap st) in
      if negb (minDistance =? -1) && (minDistance <? pi_dist current)
      then Some (Ok allPaths)
      else if String.eqb (pi_nodeID current) toNodeID then
        let minDistance :=
          if minDistance =? -1 then pi_dist current else minDistance in
        let allPaths :=
          if pi_dist current =? minDistance then
            (allPaths ++
               [mkPathResult fromNodeID toNodeID
                  (GoSlice.read (asp_nodeHeap st) (pi_path current))
                  (pi_dist current)
                  (edge_ID <$> GoSlice.read (asp_edgeHeap st) (pi_edges current))])%list
          else allPaths in
        aspLoop fuel now e graphID fromNodeID toNodeID st visited allPaths minDistance
      else
        let seenShorter :=
          match visited !! pi_nodeID current with
          | Some prevDist => prevDist <? pi_dist current
          | None => false
          end in
        if seenShorter
        then aspLoop fuel now e graphID fromNodeID toNodeID st visited allPaths
               minDistance
        else
          let visited := <[pi_nodeID current := pi_dist current]> visited in
          match BadgerEngine.GetOutgoingEdges now e graphID (pi_nodeID current) with
          | Err m =>
              Some (Err ("failed to get outgoing edges from " +:+ pi_nodeID current
                           +:+ ": " +:+ m))
          | Ok outgoingEdges =>
              aspLoop fuel now e graphID fromNodeID toNodeID
                (exploreNeighbors current outgoingEdges st) visited allPaths
                minDistance
          end
  end
  end.

Definition AllShortestPaths (fuel : nat) (now : time.Time) (e : BadgerEngine.t)
    (graphID : GraphID) (fromNodeID toNodeID : NodeID)
    : option (result (list PathResult)) :=
  let '(nodeHeap, path) := GoSlice.literal [] [fromNodeID] in
  let '(edgeHeap, edges) := GoSlice.literal [] [] in
  aspLoop fuel now e graphID fromNodeID toNodeID
    (mkAspState [mkPathItem fromNodeID path edges 0] nodeHeap edgeHeap)
    ∅ [] (-1).

(** *** FindAllCycles *)

(** [normalizeCycle]: rotate the cycle (given with its start repeated at
    the end) so that the smallest node ID comes first. *)
Fixpoint minIndexLoop (cycleNodes rest : list NodeID) (i minIndex : nat) : nat :=
  match rest with
  | [] => minIndex
  | x :: rest =>
      minIndexLoop cycleNodes rest (S i)
        (if GoStrings.lt x (default "" (cycleNodes !! minIndex)) then i
         else minIndex)
  end.

Definition normalizeCycle (path : list NodeID) : list NodeID :=
  if (length path <=? 1)%nat then path
  else
    let cycleNodes := take (length path - 1) path in
    let minIndex := minIndexLoop cycleNodes (drop 1 cycleNodes) 1 0 in
    let rotated := (drop minIndex cycleNodes ++ take minIndex cycleNodes)%list in
    (rotated ++ [default "" (head rotated)])%list.

Definition cycleToString (path : list NodeID) : string :=
  GoStrings.Join path "->".

(** The edge loop of [findCyclesRecursive]; [recur] is the recursive call
    on an unblocked neighbour.  [allCycles] is the list behind the shared
    pointer, [newCycles] the list the call returns. *)
Fixpoint cycleEdges
    (recur : NodeID -> list NodeID -> list (list NodeID)
             -> option (result (list (list NodeID) * list (list NodeID))))
    (startNode : NodeID) (path : list NodeID) (blocked : gset NodeID)
    (connected : list Edge) (allCycles newCycles : list (list NodeID))
    : option (result (list (list NodeID) * list (list NodeID))) :=
  match connected with
  | [] => Some (Ok (allCycles, newCycles))
  | edge :: rest =>
      let neighbor := edge_ToNodeID edge in
      if String.eqb neighbor startNode then
        let cycle := (path ++ [startNode])%list in
        cycleEdges recur startNode path blocked rest
          (allCycles ++ [cycle])%list (newCycles ++ [cycle])%list
      else if negb (bool_decide (neighbor ∈ blocked)) then
        match recur neighbor (path ++ [neighbor])%list allCycles with
        | None => None
        | Some (Err m) => Some (Err m)
        | Some (Ok (allCycles, cycles)) =>
            cycleEdges recur startNode path blocked rest allCycles
              (newCycles ++ cycles)%list
        end
      else cycleEdges recur startNode path blocked rest allCycles newCycles
  end.

(** [findCyclesRecursive]: the node is blocked on entry and unblocked by
    the deferred call on return, so the caller's [blocked] is the same
    set before and after the call.  [None] when the recursion is deeper
    than [fuel]. *)
Fixpoint findCyclesRecursive (fuel : nat) (now : time.Time) (e : BadgerEngine.t)
    (graphID : GraphID) (startNode currentNode : NodeID) (path : list NodeID)
    (blocked : gset NodeID) (allCycles : list (list NodeID))
    (options : option TraversalOptions)
    : option (result (list (list NodeID) * list (list NodeID))) :=
  match fuel with
  | O => None
  | S fuel =>
      let blocked := {[currentNode]} ∪ blocked in
      match BadgerEngine.GetOutgoingEdges now e graphID currentNode with
      | Err m =>
          Some (Err ("failed to get outgoing edges from " +:+ currentNode +:+ ": " +:+ m))
      | Ok connected =>
          let connected :=
            match options with
            | Some options => filterEdgeTypes (EdgeTypes options) connected
            | None => connected
            end in
          cycleEdges
            (fun neighbor newPath allCycles =>
               findCyclesRecursive fuel now e graphID startNode neighbor newPath
                 blocked allCycles options)
            startNode path blocked connected allCycles []
      end
  end.

(** The loop of [FindAllCycles] over the start nodes. *)
Fixpoint cyclesFrom (fuel : nat) (now : time.Time) (e : BadgerEngine.t)
    (graphID : GraphID) (options : option TraversalOptions) (allNodes : list Node)
    (allCycles : list (list NodeID)) : option (result (list (list NodeID))) :=
  match allNodes with
  | [] => Some (Ok allCycles)
  | node :: rest =>
      match findCyclesRecursive fuel now e graphID (node_ID node) (node_ID node)
              [node_ID node] ∅ allCycles options with
      | None => None
      | Some (Err m) => Some (Err m)
      | Some (Ok (allCycles, cycles)) =>
          cyclesFrom fuel now e graphID options rest (allCycles ++ cycles)%list
      end
  end.

(** The deduplication map, keyed by the text of the normalized cycle. *)
Definition uniqueCycles (allCycles : list (list NodeID))
    : gmap string (list NodeID) :=
  foldl (fun m cycle =>
           let normalized := normalizeCycle cycle in
           <[cycleToString normalized := normalized]> m)
    ∅ allCycles.

(** Go leaves the order in which a map is ranged over unspecified; the
    result is listed here in the order of [map_to_list]. *)
Definition FindAllCycles (fuel : nat) (now : time.Time) (e : BadgerEngine.t)
    (graphID : GraphID) (options : option TraversalOptions)
    : option (result (list (list NodeID))) :=
  let options := Some (default (mkOptions 0 [] [] DirectionForward None) options) in
  match BadgerEngine.ListNodes now e graphID with
  | Err m => Some (Err ("failed to list nodes for cycle detection: " +:+ m))
  | Ok allNodes =>
      match cyclesFrom fuel now e graphID options allNodes [] with
      | None => None
      | Some (Err m) => Some (Err m)
      | Some (Ok allCycles) => Some (Ok ((map_to_list (uniqueCycles allCycles)).*2))
      end
  end.

Definition HasCycles (fuel : nat) (now : time.Time) (e : BadgerEngine.t)
    (graphID : GraphID) (options : option TraversalOptions)
    : option (result bool) :=
  match FindAllCycles fuel now e graphID options with
  | None => None
  | Some (Err m) => Some (Err m)
  | Some (Ok cycles) => Some (Ok (0 <? length cycles)%nat)
  end.

(** *** GetRootNodes, GetLeafNodes, GetOrphanNodes *)

(** [if options != nil && len(options.EdgeTypes) > 0 { ... }]. *)
Definition filterByOptions (options : option TraversalOptions) (edges : list Edge)
    : list Edge :=
  match options with
  | Some options => filterEdgeTypes (EdgeTypes options) edges
  | None => edges
  end.

(** The loop of [GetRootNodes] over the nodes of the graph. *)
Fixpoint rootNodesLoop (now : time.Time) (e : BadgerEngine.t) (graphID : GraphID)
    (options : option TraversalOptions) (allNodes rootNodes : list Node)
    : result (list Node) :=
  match allNodes with
  | [] => Ok rootNodes
  | node :: rest =>
      match BadgerEngine.GetIncomingEdges now e graphID (node_ID node) with
      | Err m =>
          Err ("failed to get incoming edges for node " +:+ node_ID node +:+ ": " +:+ m)
      | Ok incomingEdges =>
          let incomingEdges := filterByOptions options incomingEdges in
          rootNodesLoop now e graphID options rest
            (if (length incomingEdges =? 0)%nat then (rootNodes ++ [node])%list
             else rootNodes)
      end
  end.

Definition GetRootNodes (now : time.Time) (e : BadgerEngine.t) (graphID : GraphID)
    (options : option TraversalOptions) : result (list Node) :=
  match BadgerEngine.ListNodes now e graphID with
  | Err m => Err ("failed to get nodes: " +:+ m)
  | Ok allNodes => rootNodesLoop now e graphID options allNodes []
  end.

(** The loop of [GetLeafNodes]. *)
Fixpoint leafNodesLoop (now : time.Time) (e : BadgerEngine.t) (graphID : GraphID)
    (options : option TraversalOptions) (allNodes leafNodes : list Node)
    : result (list Node) :=
  match allNodes with
  | [] => Ok leafNodes
  | node :: rest =>
      match BadgerEngine.GetOutgoingEdges now e graphID (node_ID node) with
      | Err m =>
          Err ("failed to get outgoing edges for node " +:+ node_ID node +:+ ": " +:+ m)
      | Ok outgoingEdges =>
          let outgoingEdges := filterByOptions options outgoingEdges in
          leafNodesLoop now e graphID options rest
            (if (length outgoingEdges =? 0)%nat then (leafNodes ++ [node])%list
             else leafNodes)
      end
  end.

Definition GetLeafNodes (now : time.Time) (e : BadgerEngine.t) (graphID : GraphID)
    (options : option TraversalOptions) : result (list Node) :=
  match BadgerEngine.ListNodes now e graphID with
  | Err m => Err ("failed to get nodes: " +:+ m)
  | Ok allNodes => leafNodesLoop now e graphID options allNodes []
  end.

(** The loop of [GetOrphanNodes]; the options are not looked at. *)
Fixpoint orphanNodesLoop (now : time.Time) (e : BadgerEngine.t) (graphID : GraphID)
    (allNodes orphanNodes : list Node) : result (list Node) :=
  match allNodes with
  | [] => Ok orphanNodes
  | node :: rest =>
      match BadgerEngine.GetIncomingEdges now e graphID (node_ID node) with
      | Err m =>
          Err ("failed to get incoming edges for node " +:+ node_ID node +:+ ": " +:+ m)
      | Ok incomingEdges =>
          match BadgerEngine.GetOutgoingEdges now e graphID (node_ID node) with
          | Err m =>
              Err ("failed to get outgoing edges for node " +:+ node_ID node +:+ ": "
                     +:+ m)
          | Ok outgoingEdges =>
              orphanNodesLoop now e graphID rest
                (if (length incomingEdges =? 0)%nat && (length outgoingEdges =? 0)%nat
                 then (orphanNodes ++ [node])%list
                 else orphanNodes)
          end
      end
  end.

Definition GetOrphanNodes (now : time.Time) (e : BadgerEngine.t) (graphID : GraphID)
    (options : option TraversalOptions) : result (list Node) :=
  match BadgerEngine.ListNodes now e graphID with
  | Err m => Err ("failed to get nodes: " +:+ m)
  | Ok allNodes => orphanNodesLoop now e graphID allNodes []
  end.

End GraphAnalyzer.

(** ** redis/protocol/response.go *)

Module protocol.

Inductive Response :=
| StringResponse (value : string)
| IntResponse (value : Z)
| ArrayResponse (values : list string)
| NestedArrayResponse (values : list (list string))
| BulkResponse (value : string)
| NullResponse
| ErrorResponse (message : string).

End protocol.

(** ** redis/commands/analysis.go *)

Module AnalysisCommands.
Import models badger types protocol.

(** [buildArrow]. *)
Definition buildArrow (fromNode toNode : NodeID) (edge : Edge) : string :=
  if String.eqb (edge_FromNodeID edge) fromNode && String.eqb (edge_ToNodeID edge) toNode
  then "->"
  else if String.eqb (edge_ToNodeID edge) fromNode
          && String.eqb (edge_FromNodeID edge) toNode
  then "<-"
  else "->".

(** The loop that fetches the node of every ID of a path. *)
Fixpoint nodeDetailsOf (now : time.Time) (e : BadgerEngine.t) (graphID : GraphID)
    (path : list NodeID) : result (list Node) :=
  match path with
  | [] => Ok []
  | nodeID :: rest =>
      match BadgerEngine.GetNode now e graphID nodeID with
      | Err m => Err ("failed to get node " +:+ nodeID +:+ ": " +:+ m)
      | Ok node =>
          match nodeDetailsOf now e graphID rest with
          | Err m => Err m
          | Ok nodes => Ok (node :: nodes)
          end
      end
  end.

(** [buildSimplePathResponse]. *)
Definition buildSimplePathResponse (now : time.Time) (e : BadgerEngine.t)
    (graphID : GraphID) (pathResult : PathResult) : result Response :=
  match pr_Path pathResult with
  | [] => Ok NullResponse
  | path =>
      match nodeDetailsOf now e graphID path with
      | Err m => Err m
      | Ok nodes =>
          Ok (ArrayResponse
                ((fun node => node_ID node +:+ ":" +:+ node_Type node) <$> nodes))
      end
  end.

(** The string-building loop of [buildMultiPathResponse]: [nodes] are
    [nodeDetails[i:]] and [edges] are [pathResult.Edges[i:]]; the graph
    the edges are fetched from is [GraphID(pathResult.FromNodeID)]. *)
Fixpoint arrowPath (now : time.Time) (e : BadgerEngine.t) (graphID : GraphID)
    (nodes : list Node) (edges : list EdgeID) : string :=
  match nodes with
  | [] => ""
  | node :: rest =>
      node_ID node +:+ ":" +:+ node_Type node +:+
      match rest, edges with
      | next :: _, edgeID :: edges' =>
          match BadgerEngine.GetEdge now e graphID edgeID with
          | Ok edge =>
              let arrow := buildArrow (node_ID node) (node_ID next) edge in
              arrow +:+ edge_ID edge +:+ ":" +:+ edge_Type edge +:+ arrow
          | Err _ => "->unknown:unknown->"
          end +:+ arrowPath now e graphID rest edges'
      | _, _ => arrowPath now e graphID rest []
      end
  end.

(** The loop of [buildMultiPathResponse] over the paths. *)
Fixpoint multiPathStrings (now : time.Time) (e : BadgerEngine.t)
    (allPaths : list PathResult) : result (list string) :=
  match allPaths with
  | [] => Ok []
  | pathResult :: rest =>
      match nodeDetailsOf now e (pr_FromNodeID pathResult) (pr_Path pathResult) with
      | Err m => Err m
      | Ok nodeDetails =>
          match multiPathStrings now e rest with
          | Err m => Err m
          | Ok strs =>
              Ok (arrowPath now e (pr_FromNodeID pathResult) nodeDetails
                    (pr_Edges pathResult) :: strs)
          end
      end
  end.

Definition buildMultiPathResponse (now : time.Time) (e : BadgerEngine.t)
    (allPaths : list PathResult) : result Response :=
  match multiPathStrings now e allPaths with
  | Err m => Err m
  | Ok strs =>
      Ok (ArrayResponse (GoStrings.Itoa (Z.of_nat (length allPaths)) :: strs))
  end.

(** The option loop of [handleShortestPath], from [args[3]] on. *)
Fixpoint parseFormat (rest : list string) (format : string) : result string :=
  match rest with
  | [] => Ok format
  | arg :: rest' =>
      if String.eqb arg "FORMAT" then
        match rest' with
        | value :: rest'' =>
            if negb (String.eqb value "simple") && negb (String.eqb value "detailed")
            then Err ("invalid FORMAT: " +:+ value
                        +:+ " (must be 'simple' or 'detailed')")
            else parseFormat rest'' value
        | [] => Ok format
        end
      else parseFormat rest' format
  end.

Definition handleShortestPath (fuel : nat) (now : time.Time) (e : BadgerEngine.t)
    (args : list string) : option (result Response) :=
  match args with
  | graphID :: fromNodeID :: toNodeID :: rest =>
      match parseFormat rest "detailed" with
      | Err m => Some (Err m)
      | Ok format =>
          match GraphAnalyzer.GetShortestPath fuel now e graphID fromNodeID toNodeID
                  None with
          | None => None
          | Some (Err m) => Some (Err ("failed to compute shortest path: " +:+ m))
          | Some (Ok pathResult) =>
              if String.eqb format "simple"
              then Some (buildSimplePathResponse now e graphID pathResult)
              else
                match GraphAnalyzer.AllShortestPaths fuel now e graphID fromNodeID
                        toNodeID with
                | None => None
                | Some (Err m) =>
                    Some (Err ("failed to find all shortest paths: " +:+ m))
                | Some (Ok []) => Some (Ok NullResponse)
                | Some (Ok allPaths) => Some (buildMultiPathResponse now e allPaths)
                end
          end
      end
  | _ =>
      Some (Err "ANALYSIS.SHORTESTPATH requires at least 3 arguments: graph, from, to")
  end.

(** [Handle], for the command modelled here. *)
Definition Handle (fuel : nat) (now : time.Time) (e : BadgerEngine.t)
    (command : string) (args : list string) : option (result Response) :=
  if String.eqb command "SHORTESTPATH" then handleShortestPath fuel now e args
  else Some (Err ("unknown ANALYSIS command: " +:+ command)).

End AnalysisCommands.

(** ** Sample stores *)

Module Samples.
Import models badger types.

Definition opened : BadgerEngine.t := BadgerEngine.mkEngine (Some ∅).

Definition node (id ty : string) : Node := mkNode id ty [] 0 0 None.

Definition edge (id ty from to : string) : Edge := mkEdge id ty from to [] 0 0 None.

Definition addNode (e : BadgerEngine.t) (n : Node) : BadgerEngine.t :=
  (BadgerEngine.CreateNode e "g" n).2.

Definition addEdge (e : BadgerEngine.t) (x : Edge) : BadgerEngine.t :=
  (BadgerEngine.CreateEdge 0 e "g" x).2.

(** The linear chain [a -> b -> c] in graph [g]. *)
Definition chain : BadgerEngine.t :=
  let e := (BadgerEngine.CreateGraph opened (mkGraph "g" "g" "" 0 0)).2 in
  let e := addNode e (node "a" "service") in
  let e := addNode e (node "b" "service") in
  let e := addNode e (node "c" "database") in
  let e := addEdge e (edge "ab" "calls" "a" "b") in
  addEdge e (edge "bc" "writes_to" "b" "c").

(** [s -> a -> b], with [b -> x] and [b -> y]. *)
Definition fork : BadgerEngine.t :=
  let e := addNode opened (node "s" "service") in
  let e := addNode e (node "a" "service") in
  let e := addNode e (node "b" "service") in
  let e := addNode e (node "x" "service") in
  let e := addNode e (node "y" "service") in
  let e := addEdge e (edge "e1" "calls" "s" "a") in
  let e := addEdge e (edge "e2" "calls" "a" "b") in
  let e := addEdge e (edge "e3" "calls" "b" "x") in
  addEdge e (edge "e4" "calls" "b" "y").

(** 2025-01-01T10:45:00Z and 2025-01-01T10:50:00Z. *)
Definition quarterTo11 : time.Time := 1735728300.
Definition tenTo11 : time.Time := 1735728600.

(** One node that expires at 10:50:00. *)
Definition expiring : BadgerEngine.t :=
  addNode opened (mkNode "n" "service" [] 0 0 (Some tenTo11)).

(** Node [x] created with type [A], then created again with type [B]. *)
Definition retyped : BadgerEngine.t :=
  addNode (addNode opened (node "x" "A")) (node "x" "B").

(** Node [x] created with type [A], then updated to type [B]. *)
Definition updated : BadgerEngine.t :=
  (BadgerEngine.UpdateNode 0 (addNode opened (node "x" "A")) "g" (node "x" "B")).2.

(** A node created in a graph that was never created. *)
Definition graphless : BadgerEngine.t := addNode opened (node "x" "A").

(** Nodes [a], [a:b] and [c], and the edge [a:b -> c]. *)
Definition colons : BadgerEngine.t :=
  let e := addNode opened (node "a" "service") in
  let e := addNode e (node "a:b" "service") in
  let e := addNode e (node "c" "service") in
  addEdge e (edge "e" "calls" "a:b" "c").

(** Nodes [a] and [a:b], and the edge [a:b -> a]. *)
Definition colonLoop : BadgerEngine.t :=
  let e := addNode opened (node "a" "service") in
  let e := addNode e (node "a:b" "service") in
  addEdge e (edge "e" "calls" "a:b" "a").

(** The ring [a -> b -> c -> a] with the chord [b -> a] and the tail
    [c -> d]. *)
Definition ring : BadgerEngine.t :=
  let e := addNode opened (node "a" "service") in
  let e := addNode e (node "b" "service") in
  let e := addNode e (node "c" "service") in
  let e := addNode e (node "d" "database") in
  let e := addEdge e (edge "ab" "calls" "a" "b") in
  let e := addEdge e (edge "bc" "calls" "b" "c") in
  let e := addEdge e (edge "ca" "calls" "c" "a") in
  let e := addEdge e (edge "ba" "replies" "b" "a") in
  addEdge e (edge "cd" "writes_to" "c" "d").

(** Nodes [a], [b] and [c]; edge [e] is created from [a] to [b] and then
    created again from [c] to [a]. *)
Definition reused : BadgerEngine.t :=
  let e := addNode opened (node "a" "service") in
  let e := addNode e (node "b" "service") in
  let e := addNode e (node "c" "service") in
  let e := addEdge e (edge "e" "calls" "a" "b") in
  addEdge e (edge "e" "calls" "c" "a").

(** The same, the second write being an [UpdateEdge]. *)
Definition reusedByUpdate : BadgerEngine.t :=
  let e := addNode opened (node "a" "service") in
  let e := addNode e (node "b" "service") in
  let e := addNode e (node "c" "service") in
  let e := addEdge e (edge "e" "calls" "a" "b") in
  (BadgerEngine.UpdateEdge 0 e "g" (edge "e" "calls" "c" "a")).2.

(** Nodes [a], [b], [c] and [d]; edge [e] is created from [a] to [b] and
    then created again from [c] to [d]. *)
Definition rewired : BadgerEngine.t :=
  let e := addNode opened (node "a" "service") in
  let e := addNode e (node "b" "service") in
  let e := addNode e (node "c" "service") in
  let e := addNode e (node "d" "service") in
  let e := addEdge e (edge "e" "calls" "a" "b") in
  addEdge e (edge "e" "calls" "c" "d").

(** The same, the second write being an [UpdateEdge]. *)
Definition rewiredByUpdate : BadgerEngine.t :=
  let e := addNode opened (node "a" "service") in
  let e := addNode e (node "b" "service") in
  let e := addNode e (node "c" "service") in
  let e := addNode e (node "d" "service") in
  let e := addEdge e (edge "e" "calls" "a" "b") in
  (BadgerEngine.UpdateEdge 0 e "g" (edge "e" "calls" "c" "d")).2.

(** [a -> b], [a -> c] and [c -> b]. *)
Definition triangle : BadgerEngine.t :=
  let e := addNode opened (node "a" "service") in
  let e := addNode e (node "b" "service") in
  let e := addNode e (node "c" "service") in
  let e := addEdge e (edge "ab" "calls" "a" "b") in
  let e := addEdge e (edge "ac" "calls" "a" "c") in
  addEdge e (edge "cb" "calls" "c" "b").

(** The contents of an engine's database. *)
Definition storeOf (e : BadgerEngine.t) : DB := default ∅ (BadgerEngine.db e).

(** Nodes [c] and [d] and, created at time 0, the edge [c -> d] that
    expires at time 2. *)
Definition lapsing : BadgerEngine.t :=
  let e := addNode opened (node "c" "service") in
  let e := addNode e (node "d" "service") in
  addEdge e (mkEdge "cd" "calls" "c" "d" [] 0 0 (Some 2)).

(** The stop predicate "the node is [b]". *)
Definition stopAtB : TraversalOptions :=
  mkOptions (-1) [] [] DirectionForward (Some (fun n => String.eqb (node_ID n) "b")).

End Samples.

(** ** Vocabulary of the properties *)

Module Props.
Import models utils badger types.

(** The adjacency prefixes scanned by [GetOutgoingEdges], [GetIncomingEdges]
    and [DeleteNode]. *)
Definition outPrefix (graphID : GraphID) (nodeID : NodeID) : string :=
  NodeIndexPrefix +:+ "out:" +:+ graphID +:+ ":" +:+ nodeID +:+ ":".

Definition inPrefix (graphID : GraphID) (nodeID : NodeID) : string :=
  NodeIndexPrefix +:+ "in:" +:+ graphID +:+ ":" +:+ nodeID +:+ ":".

(** The edge an index item points at, when its record can be fetched. *)
Definition presentEdge (now : time.Time) (e : BadgerEngine.t) (graphID : GraphID)
    (item : string * Bytes) : option Edge :=
  match BadgerEngine.GetEdge now e graphID (Bytes_string item.2) with
  | Ok edge => Some edge
  | Err _ => None
  end.

(** A node that was fetched and did not satisfy the stop predicate. *)
Definition expanded (now : time.Time) (e : BadgerEngine.t) (g : GraphID)
    (options : TraversalOptions) (id : NodeID) : Prop :=
  exists n, BadgerEngine.GetNode now e g id = Ok n /\
            GraphAnalyzer.stops options n = false.

(** [followed_from c ed]: the search fetched [c], [c] did not satisfy the
    stop predicate, and [ed] is one of the edges fetched for [c] that
    pass the edge-type filter and lead away from [c]. *)
Definition followed_from (now : time.Time) (e : BadgerEngine.t) (g : GraphID)
    (options : TraversalOptions) (c : NodeID) (ed : Edge) : Prop :=
  expanded now e g options c /\
  exists connected,
    GraphAnalyzer.connectedEdges now e g c (Direction options) = Ok connected /\
    ed ∈ GraphAnalyzer.filterEdgeTypes (EdgeTypes options) connected /\
    GraphAnalyzer.nextNodeID (Direction options) c ed <> "".

(** One step of the search: along an edge followed out of [c]. *)
Definition dfs_step (now : time.Time) (e : BadgerEngine.t) (g : GraphID)
    (options : TraversalOptions) (c next : NodeID) : Prop :=
  exists ed, followed_from now e g options c ed /\
             GraphAnalyzer.nextNodeID (Direction options) c ed = next.

(** [reached roots id]: [id] is one of [roots], or is reached from one of
    them by steps of the search, which never leave a stopped node. *)
Definition reached (now : time.Time) (e : BadgerEngine.t) (g : GraphID)
    (options : TraversalOptions) (roots : list NodeID) (id : NodeID) : Prop :=
  exists root, root ∈ roots /\ rtc (dfs_step now e g options) root id.

(** What one run of the loop of [DepthFirstSearch] adds to its
    accumulators, seen from the state it starts in: no stopped node, only
    IDs and edges of nodes that were not yet visited, every added ID
    expanded and reached from the stack, every added edge followed out of
    such a node to a node that was not yet visited either. *)
Definition dfs_adds (now : time.Time) (e : BadgerEngine.t) (g : GraphID)
    (options : TraversalOptions) (roots : list NodeID) (visited : gset NodeID)
    (nodes : list Node) (edges : list Edge) (path : list NodeID)
    (r : TraversalResult) : Prop :=
  exists newNodes newEdges newPath,
    tr_Nodes r = (nodes ++ newNodes)%list /\
    tr_Edges r = (edges ++ newEdges)%list /\
    tr_Path r = (path ++ newPath)%list /\
    Forall (fun n => GraphAnalyzer.stops options n = false) newNodes /\
    Forall (fun id => (id ∉ visited) /\ expanded now e g options id /\
                      reached now e g options roots id) newPath /\
    Forall (fun ed => exists c,
              (c ∉ visited) /\ reached now e g options roots c /\
              followed_from now e g options c ed /\
              (GraphAnalyzer.nextNodeID (Direction options) c ed ∉ visited)) newEdges.

(** *** Coherence of the adjacency index around one node

    [adjacency_sound_at]: every entry found under the node's outgoing
    (incoming) prefix holds the ID of a stored edge that leaves (enters)
    the node.  [adjacency_complete_at]: every stored edge incident on the
    node has its outgoing and its incoming entry, each holding its ID. *)

Definition pointsAt (now : time.Time) (kv : DB) (g : GraphID) (p : Edge -> bool)
    (item : string * Bytes) : bool :=
  match BadgerTransaction.GetEdge now kv g (Bytes_string item.2) with
  | Ok ed => p ed
  | Err _ => false
  end.

Definition adjacency_sound_at (now : time.Time) (kv : DB) (g : GraphID)
    (n : NodeID) : bool :=
  forallb (pointsAt now kv g (fun ed => String.eqb (edge_FromNodeID ed) n))
    (Iterate now kv (outPrefix g n))
  && forallb (pointsAt now kv g (fun ed => String.eqb (edge_ToNodeID ed) n))
       (Iterate now kv (inPrefix g n)).

Definition indexed (now : time.Time) (kv : DB) (g : GraphID) (x : EdgeID)
    (ed : Edge) : bool :=
  bool_decide (Txn_Get now kv (EncodeNodeOutEdgeIndexKey g (edge_FromNodeID ed) x)
               = Some (Raw x))
  && bool_decide (Txn_Get now kv (EncodeNodeInEdgeIndexKey g (edge_ToNodeID ed) x)
                  = Some (Raw x)).

Definition adjacency_complete_at (now : time.Time) (kv : DB) (g : GraphID)
    (n : NodeID) : bool :=
  forallb
    (fun item : string * Bytes =>
       match Edge_FromJSON item.2 with
       | Some ed =>
           if String.eqb (edge_FromNodeID ed) n || String.eqb (edge_ToNodeID ed) n
           then indexed now kv g
                  (GoStrings.drop (String.length (CreateEdgeIteratorPrefix g)) item.1) ed
           else true
       | None => true
       end)
    (Iterate now kv (CreateEdgeIteratorPrefix g)).

(** [sub kv' kv]: [kv'] is [kv] with some keys deleted. *)
Definition sub (kv' kv : DB) : Prop :=
  forall k, kv' !! k = None \/ kv' !! k = kv !! k.

(** The four keys [DeleteEdge] deletes for edge [x] with record [ed]. *)
Definition cascadeKeys (g : GraphID) (x : EdgeID) (ed : Edge) : list string :=
  [EncodeEdgeKey g x;
   EncodeEdgeTypeIndexKey g (edge_Type ed) x;
   EncodeNodeOutEdgeIndexKey g (edge_FromNodeID ed) x;
   EncodeNodeInEdgeIndexKey g (edge_ToNodeID ed) x].

(** *** The stored graph and its cycles *)

(** The nodes and the edge records listed under a graph. *)
Definition nodesOf (now : time.Time) (e : BadgerEngine.t) (g : GraphID) : list Node :=
  match BadgerEngine.ListNodes now e g with
  | Ok nodes => nodes
  | Err _ => []
  end.

Definition edgesOf (now : time.Time) (e : BadgerEngine.t) (g : GraphID) : list Edge :=
  match BadgerEngine.ListEdges now e g with
  | Ok edges => edges
  | Err _ => []
  end.

(** The edge-type filter, on one edge. *)
Definition passes (edgeTypes : list EdgeType) (ed : Edge) : bool :=
  match edgeTypes with
  | [] => true
  | _ => existsb (String.eqb (edge_Type ed)) edgeTypes
  end.

(** [arc edges edgeTypes u v]: a stored edge that passes the filter runs
    from [u] to [v]. *)
Definition arc (edges : list Edge) (edgeTypes : list EdgeType) (u v : NodeID) : Prop :=
  exists ed, ed ∈ edges /\ passes edgeTypes ed = true /\
             edge_FromNodeID ed = u /\ edge_ToNodeID ed = v.

(** The graph restricted to the filter contains a directed cycle. *)
Definition has_directed_cycle (edges : list Edge) (edgeTypes : list EdgeType) : Prop :=
  exists u, tc (arc edges edgeTypes) u u.

(** Coherence of a graph's records: the endpoints of every stored edge
    are stored nodes, and for every stored node [GetOutgoingEdges] returns
    exactly the stored edges that leave it. *)
Definition graph_coherent (now : time.Time) (e : BadgerEngine.t) (g : GraphID) : bool :=
  match BadgerEngine.ListNodes now e g, BadgerEngine.ListEdges now e g with
  | Ok nodes, Ok edges =>
      let ids := node_ID <$> nodes in
      forallb (fun ed => bool_decide (edge_FromNodeID ed ∈ ids)
                         && bool_decide (edge_ToNodeID ed ∈ ids)) edges
      && forallb
           (fun id =>
              match BadgerEngine.GetOutgoingEdges now e g id with
              | Ok out =>
                  forallb (fun ed => bool_decide (ed ∈ edges)
                                     && String.eqb (edge_FromNodeID ed) id) out
                  && forallb (fun ed => negb (String.eqb (edge_FromNodeID ed) id)
                                        || bool_decide (ed ∈ out)) edges
              | Err _ => false
              end) ids
  | _, _ => false
  end.

(** The edges [findCyclesRecursive] follows out of a node. *)
Definition successors (now : time.Time) (e : BadgerEngine.t) (g : GraphID)
    (edgeTypes : list EdgeType) (cur : NodeID) : list Edge :=
  match BadgerEngine.GetOutgoingEdges now e g cur with
  | Ok out => GraphAnalyzer.filterEdgeTypes edgeTypes out
  | Err _ => []
  end.

(** The cycles one call of [findCyclesRecursive] finds, as a function. *)
Fixpoint cyclesSpec (fuel : nat) (now : time.Time) (e : BadgerEngine.t) (g : GraphID)
    (edgeTypes : list EdgeType) (start cur : NodeID) (path : list NodeID)
    (blocked : gset NodeID) : list (list NodeID) :=
  match fuel with
  | O => []
  | S fuel =>
      let blocked := {[cur]} ∪ blocked in
      flat_map
        (fun ed =>
           if String.eqb (edge_ToNodeID ed) start then [(path ++ [start])%list]
           else if bool_decide (edge_ToNodeID ed ∈ blocked) then []
           else cyclesSpec fuel now e g edgeTypes start (edge_ToNodeID ed)
                  (path ++ [edge_ToNodeID ed])%list blocked)
        (successors now e g edgeTypes cur)
  end.

(** [walk R l]: each node of [l] is followed by one it has an arc to. *)
Fixpoint walk (R : relation NodeID) (l : list NodeID) : Prop :=
  match l with
  | x :: (y :: _) as rest => R x y /\ walk R rest
  | _ => True
  end.

(** [elementary_cycle R c]: [c] lists pairwise different nodes along the
    arcs of [R] and ends with its first node again. *)
Definition elementary_cycle (R : relation NodeID) (c : list NodeID) : Prop :=
  exists x body, c = (x :: body ++ [x])%list /\ NoDup (x :: body) /\ walk R c.

(** [same_cycle c1 c2]: without their closing nodes, [c2] is [c1] rotated. *)
Definition same_cycle (c1 c2 : list NodeID) : Prop :=
  exists k, take (length c2 - 1) c2 = rotate k (take (length c1 - 1) c1).

(** A path of at least one arc from [u] to [v] whose intermediate nodes
    lie outside [B]. *)
Inductive path_avoiding (R : relation NodeID) (B : gset NodeID)
    : NodeID -> NodeID -> Prop :=
| pa_one u v : R u v -> path_avoiding R B u v
| pa_step u w v : R u w -> w ∉ B -> path_avoiding R B w v -> path_avoiding R B u v.

(** *** Identifiers and expiry *)

(** [colon_free s]: no byte of [s] is [':']. *)
Fixpoint colon_free (s : string) : bool :=
  match s with
  | EmptyString => true
  | String c r => negb (Ascii.eqb c colon) && colon_free r
  end.

(** [unexpired now t]: no expiry, or an expiry after [now]. *)
Definition unexpired (now : time.Time) (expiresAt : option time.Time) : bool :=
  match expiresAt with
  | Some t => 0 <? t - now
  | None => true
  end.

(** *** Roots and leaves *)



End Props.

(** * Properties *)

Import models utils badger types Props.

(** ** The TTL sweep *)

(** C1.  The sweep compares only the text before the first colon of the
    RFC3339 timestamp (the date and the hour) with [now]: at 10:45:00 it
    collects the expiry-index key of a node that expires at 10:50:00 the
    same day, and deletes that node although its [ExpiresAt] lies in the
    future. *)
Theorem sweep_deletes_node_expiring_later_in_the_hour :
  Samples.quarterTo11 < Samples.tenTo11 /\
  time.FormatRFC3339 Samples.quarterTo11 = "2025-01-01T10:45:00Z" /\
  EncodeExpiryIndexKey "g" "n" Samples.tenTo11 = "xi:2025-01-01T10:50:00Z:g:n" /\
  nth 1 (GoStrings.Split colon "xi:2025-01-01T10:50:00Z:g:n") "" = "2025-01-01T10" /\
  BadgerEngine.GetNode Samples.quarterTo11 Samples.expiring "g" "n"
    = Ok (mkNode "n" "service" [] 0 0 (Some Samples.tenTo11)) /\
  BadgerEngine.GetNode Samples.quarterTo11
    (TTLManager.cleanupExpiredNodes Samples.quarterTo11 Samples.expiring) "g" "n"
    = Err "node not found: n".
Proof. repeat split; vm_compute; reflexivity. Qed.

(** ** The command dispatcher *)

(** C2.  On the linear chain, [ANALYSIS.SHORTESTPATH g a c FORMAT detailed]
    fails: [buildMultiPathResponse] fetches the nodes of the path from the
    graph named by the path's start node, [a], where no node is stored.
    The simple format, and the builder called with the right graph ID,
    give the expected output. *)
Theorem shortestpath_detailed_on_chain_is_an_error :
  AnalysisCommands.Handle 20 0 Samples.chain "SHORTESTPATH"
    ["g"; "a"; "c"; "FORMAT"; "detailed"]
    = Some (Err "failed to get node a: node not found: a") /\
  AnalysisCommands.Handle 20 0 Samples.chain "SHORTESTPATH"
    ["g"; "a"; "c"; "FORMAT"; "simple"]
    = Some (Ok (protocol.ArrayResponse ["a:service"; "b:service"; "c:database"])) /\
  GraphAnalyzer.AllShortestPaths 20 0 Samples.chain "g" "a" "c"
    = Some (Ok [mkPathResult "a" "c" ["a"; "b"; "c"] 2 ["ab"; "bc"]]) /\
  AnalysisCommands.buildMultiPathResponse 0 Samples.chain
    [mkPathResult "g" "c" ["a"; "b"; "c"] 2 ["ab"; "bc"]]
    = Ok (protocol.ArrayResponse
            ["1"; "a:service->ab:calls->b:service->bc:writes_to->c:database"]).
Proof. repeat split; vm_compute; reflexivity. Qed.

(** ** Index coherence *)

(** C3.  A second [CreateNode] with the same ID and another type writes
    the new type-index entry and leaves the old one in place, so the node
    is listed under the type it no longer has; [UpdateNode] removes the
    old entry. *)
Theorem create_node_again_keeps_old_type_index :
  (exists kv,
     BadgerEngine.db Samples.retyped = Some kv /\
     Txn_Get 0 kv (EncodeNodeTypeIndexKey "g" "A" "x") = Some (Raw "x") /\
     Txn_Get 0 kv (EncodeNodeTypeIndexKey "g" "B" "x") = Some (Raw "x")) /\
  BadgerEngine.GetNode 0 Samples.retyped "g" "x" = Ok (Samples.node "x" "B") /\
  BadgerEngine.ListNodesByType 0 Samples.retyped "g" "A" = Ok [Samples.node "x" "B"] /\
  BadgerEngine.ListNodesByType 0 Samples.updated "g" "A" = Ok [] /\
  BadgerEngine.ListNodesByType 0 Samples.updated "g" "B" = Ok [Samples.node "x" "B"].
Proof.
  split.
  - eexists. split; [vm_compute; reflexivity|]. split; vm_compute; reflexivity.
  - repeat split; vm_compute; reflexivity.
Qed.

(** ** Shortest paths *)

(** C5.  On [s -> a -> b -> x] with the further edge [b -> y], the only
    forward path from [s] to [x] is [s, a, b, x], which [GetShortestPath]
    returns; [AllShortestPaths] returns the single path [s, a, b, y]: the
    queue items of [x] and [y] share the backing array of [b]'s path, and
    the append for [y] overwrote the cell written for [x]. *)
Theorem all_shortest_paths_returns_overwritten_path :
  GraphAnalyzer.GetShortestPath 20 0 Samples.fork "g" "s" "x" None
    = Some (Ok (mkPathResult "s" "x" ["s"; "a"; "b"; "x"] 3 ["e1"; "e2"; "e3"])) /\
  GraphAnalyzer.AllShortestPaths 20 0 Samples.fork "g" "s" "x"
    = Some (Ok [mkPathResult "s" "x" ["s"; "a"; "b"; "y"] 3 ["e1"; "e2"; "e3"]]).
Proof. split; vm_compute; reflexivity. Qed.

(** ** Failure semantics *)

(** C7.  When either endpoint of the edge cannot be fetched, [CreateEdge]
    returns an error and the engine is left exactly as it was: no edge
    record, type-index or adjacency-index key is written. *)
Theorem create_edge_missing_endpoint_aborts
    (now : time.Time) (e : BadgerEngine.t) (g : GraphID) (edge : Edge) :
  is_Ok (BadgerEngine.GetNode now e g (edge_FromNodeID edge)) = false \/
  is_Ok (BadgerEngine.GetNode now e g (edge_ToNodeID edge)) = false ->
  exists m, BadgerEngine.CreateEdge now e g edge = (Err m, e).
Proof.
  intros H. destruct e as [[kv|]]; unfold BadgerEngine.CreateEdge, BadgerEngine.update;
    simpl; [|eauto].
  unfold BadgerEngine.GetNode, BadgerEngine.view, View in H. simpl in H.
  unfold Update, BadgerTransaction.CreateEdge.
  destruct (BadgerTransaction.GetNode now kv g (edge_FromNodeID edge)) as [nf|mf].
  - destruct (BadgerTransaction.GetNode now kv g (edge_ToNodeID edge)) as [nt|mt].
    + destruct H as [H|H]; discriminate H.
    + eauto.
  - eauto.
Qed.

Lemma create_edge_missing_endpoint_aborts_witness :
  (is_Ok (BadgerEngine.GetNode 0 Samples.chain "g" "a") = false \/
   is_Ok (BadgerEngine.GetNode 0 Samples.chain "g" "zz") = false) /\
  exists m,
    BadgerEngine.CreateEdge 0 Samples.chain "g" (Samples.edge "az" "calls" "a" "zz")
      = (Err m, Samples.chain).
Proof.
  assert (H : is_Ok (BadgerEngine.GetNode 0 Samples.chain "g" "a") = false \/
              is_Ok (BadgerEngine.GetNode 0 Samples.chain "g" "zz") = false)
    by (right; vm_compute; reflexivity).
  split; [exact H|].
  exact (create_edge_missing_endpoint_aborts 0 Samples.chain "g"
           (Samples.edge "az" "calls" "a" "zz") H).
Defined.

(** ** Dangling index entries *)

Lemma iterateItems_collectEdge now e g items acc :
  BadgerEngine.iterateItems items (BadgerEngine.collectEdge now e g) acc
    = Ok (acc ++ omap (presentEdge now e g) items)%list.
Proof.
  revert acc. induction items as [|[k v] items IH]; intros acc; simpl.
  - by rewrite app_nil_r.
  - unfold BadgerEngine.collectEdge at 1, presentEdge at 1. simpl.
    destruct (BadgerEngine.GetEdge now e g (Bytes_string v)) as [ed|m].
    + rewrite IH. by rewrite <- app_assoc.
    + apply IH.
Qed.

Lemma scan_collectEdge now e (kv : DB) g prefix msg :
  BadgerEngine.db e = Some kv ->
  BadgerEngine.wrap msg
    (BadgerEngine.iterateWithPrefix now e prefix (BadgerEngine.collectEdge now e g) [])
  = Ok (omap (presentEdge now e g) (Iterate now kv prefix)).
Proof.
  intros Hdb. unfold BadgerEngine.iterateWithPrefix, BadgerEngine.view, View.
  rewrite Hdb, iterateItems_collectEdge. reflexivity.
Qed.

Lemma GetOutgoingEdges_open now e (kv : DB) g n :
  BadgerEngine.db e = Some kv ->
  BadgerEngine.GetOutgoingEdges now e g n
  = Ok (omap (presentEdge now e g) (Iterate now kv (outPrefix g n))).
Proof.
  intros Hdb. unfold BadgerEngine.GetOutgoingEdges. rewrite Hdb.
  by apply scan_collectEdge.
Qed.

Lemma key_neq_by_head (a b : ascii) (s t : string) :
  a <> b -> String a s <> String b t.
Proof. intros Hab H. injection H as H1 H2. contradiction. Qed.

(** C10.  With the database open, [GetOutgoingEdges], [GetIncomingEdges] and
    [ListEdgesByType] return without error exactly the edges whose record
    can be fetched, one per index entry in key order; an entry whose edge
    record is gone contributes nothing.  Such entries arise when an edge
    created with a TTL expires: from its expiry on the record is not
    found, while its type-index and both adjacency-index entries, written
    without TTL, are still read. *)
Theorem edge_lookups_skip_dangling_entries
    (now : time.Time) (e : BadgerEngine.t) (kv : DB) (g : GraphID) (n : NodeID)
    (ty : EdgeType) :
  BadgerEngine.db e = Some kv ->
  BadgerEngine.GetOutgoingEdges now e g n
    = Ok (omap (presentEdge now e g) (Iterate now kv (outPrefix g n))) /\
  BadgerEngine.GetIncomingEdges now e g n
    = Ok (omap (presentEdge now e g) (Iterate now kv (inPrefix g n))) /\
  BadgerEngine.ListEdgesByType now e g ty
    = Ok (omap (presentEdge now e g)
            (Iterate now kv (CreateTypeIteratorPrefix g "e" ty))) /\
  (forall (edge : Edge) (t later : time.Time),
     edge_ExpiresAt edge = Some t -> now < t -> t <= later ->
     is_Ok (BadgerEngine.GetNode now e g (edge_FromNodeID edge)) = true ->
     is_Ok (BadgerEngine.GetNode now e g (edge_ToNodeID edge)) = true ->
     exists kv',
       BadgerEngine.CreateEdge now e g edge = (Ok tt, BadgerEngine.mkEngine (Some kv')) /\
       BadgerTransaction.GetEdge now kv' g (edge_ID edge) = Ok edge /\
       BadgerTransaction.GetEdge later kv' g (edge_ID edge)
         = Err ("edge not found: " +:+ edge_ID edge) /\
       Txn_Get later kv' (EncodeEdgeTypeIndexKey g (edge_Type edge) (edge_ID edge))
         = Some (Raw (edge_ID edge)) /\
       Txn_Get later kv'
         (EncodeNodeOutEdgeIndexKey g (edge_FromNodeID edge) (edge_ID edge))
         = Some (Raw (edge_ID edge)) /\
       Txn_Get later kv'
         (EncodeNodeInEdgeIndexKey g (edge_ToNodeID edge) (edge_ID edge))
         = Some (Raw (edge_ID edge))).
Proof.
  intros Hdb.
  split; [|split; [|split]].
  - by apply GetOutgoingEdges_open.
  - unfold BadgerEngine.GetIncomingEdges. rewrite Hdb. by apply scan_collectEdge.
  - unfold BadgerEngine.ListEdgesByType. rewrite Hdb. by apply scan_collectEdge.
  - intros edge t later Hexp Hnow Hlater Hfrom Hto.
    unfold BadgerEngine.GetNode, BadgerEngine.view, View in Hfrom, Hto.
    rewrite Hdb in Hfrom, Hto.
    unfold BadgerEngine.CreateEdge, BadgerEngine.update, Update.
    rewrite Hdb. unfold BadgerTransaction.CreateEdge.
    destruct (BadgerTransaction.GetNode now kv g (edge_FromNodeID edge));
      [|discriminate Hfrom].
    destruct (BadgerTransaction.GetNode now kv g (edge_ToNodeID edge));
      [|discriminate Hto].
    rewrite Hexp.
    assert (Httl : (0 <? t - now) = true) by (apply Z.ltb_lt; lia).
    rewrite Httl. eexists. split; [reflexivity|].
    assert (Hrec : forall at_, 
              Txn_Get at_
                (Txn_Set (EncodeNodeInEdgeIndexKey g (edge_ToNodeID edge) (edge_ID edge))
                   (Raw (edge_ID edge))
                   (Txn_Set
                      (EncodeNodeOutEdgeIndexKey g (edge_FromNodeID edge) (edge_ID edge))
                      (Raw (edge_ID edge))
                      (Txn_Set
                         (EncodeEdgeTypeIndexKey g (edge_Type edge) (edge_ID edge))
                         (Raw (edge_ID edge))
                         (Txn_SetEntryWithTTL now (EncodeEdgeKey g (edge_ID edge))
                            (Edge_ToJSON edge) (t - now) kv))))
                (EncodeEdgeKey g (edge_ID edge))
              = if at_ <? t then Some (EdgeJSON edge) else None).
    { intros at_. unfold Txn_Get, Txn_Set, Txn_SetEntryWithTTL.
      rewrite !lookup_insert_ne by (apply key_neq_by_head; discriminate).
      rewrite lookup_insert_eq. unfold live. simpl.
      replace (now + (t - now)) with t by lia. reflexivity. }
    unfold BadgerTransaction.GetEdge. rewrite !Hrec.
    assert (Hlive : (now <? t) = true) by (apply Z.ltb_lt; lia).
    assert (Hdead : (later <? t) = false) by (apply Z.ltb_ge; lia).
    rewrite Hlive, Hdead. simpl.
    repeat split; unfold Txn_Get, Txn_Set;
      repeat (rewrite lookup_insert; case_decide; [reflexivity|]);
      exfalso; eauto.
Qed.

Lemma edge_lookups_skip_dangling_entries_witness :
  BadgerEngine.db Samples.lapsing = Some (Samples.storeOf Samples.lapsing) /\
  BadgerEngine.GetOutgoingEdges 3 Samples.lapsing "g" "c"
    = Ok (omap (presentEdge 3 Samples.lapsing "g")
            (Iterate 3 (Samples.storeOf Samples.lapsing) (outPrefix "g" "c"))).
Proof.
  assert (H : BadgerEngine.db Samples.lapsing = Some (Samples.storeOf Samples.lapsing))
    by (vm_compute; reflexivity).
  split; [exact H|].
  exact (proj1 (edge_lookups_skip_dangling_entries 3 Samples.lapsing
                  (Samples.storeOf Samples.lapsing) "g" "c" "calls" H)).
Defined.

(** The edge of [Samples.lapsing] at time 3: its adjacency entry is still
    iterated, its record is gone, and the lookup returns no edge. *)
Example lapsed_edge_is_skipped :
  Iterate 3 (Samples.storeOf Samples.lapsing) (outPrefix "g" "c")
    = [("ni:out:g:c:cd", Raw "cd")] /\
  BadgerEngine.GetEdge 3 Samples.lapsing "g" "cd" = Err "edge not found: cd" /\
  BadgerEngine.GetOutgoingEdges 3 Samples.lapsing "g" "c" = Ok [] /\
  BadgerEngine.GetOutgoingEdges 1 Samples.lapsing "g" "c"
    = Ok [mkEdge "cd" "calls" "c" "d" [] 0 0 (Some 2)].
Proof. repeat split; vm_compute; reflexivity. Qed.

(** ** Deleting what does not exist *)

Lemma delete_absent (kv : DB) (k : string) : kv !! k = None -> Txn_Delete k kv = kv.
Proof. intros H. unfold Txn_Delete. by apply delete_id. Qed.

(** ** Depth-first search and the stop predicate *)

Section DFS.
Variables (now : time.Time) (e : BadgerEngine.t) (g : GraphID)
          (options : TraversalOptions).

Local Abbreviation expanded := (Props.expanded now e g options).
Local Abbreviation followed_from := (Props.followed_from now e g options).
Local Abbreviation reached := (Props.reached now e g options).
Local Abbreviation dfs_adds := (Props.dfs_adds now e g options).
Local Abbreviation next := (GraphAnalyzer.nextNodeID (Direction options)).

(** The push loop records an edge only when it leads to a node that is
    not visited, and pushes nothing else. *)
Lemma pushEdges_spec current visited reversed edges stack edges' stack' :
  GraphAnalyzer.pushEdges (Direction options) current visited reversed edges stack
    = (edges', stack') ->
  exists newEdges,
    edges' = (edges ++ newEdges)%list /\
    Forall (fun ed => ed ∈ reversed /\
                      next (GraphAnalyzer.si_nodeID current) ed <> "" /\
                      next (GraphAnalyzer.si_nodeID current) ed ∉ visited) newEdges /\
    Forall (fun it => it ∈ stack \/
                      exists ed, ed ∈ reversed /\
                        GraphAnalyzer.si_nodeID it
                          = next (GraphAnalyzer.si_nodeID current) ed /\
                        GraphAnalyzer.si_nodeID it <> "") stack'.
Proof.
  revert edges stack.
  induction reversed as [|ed rest IH]; intros edges stack Hpush; simpl in Hpush.
  - injection Hpush as <- <-. exists []. rewrite app_nil_r. split; [done|].
    split; [constructor|]. apply Forall_forall. intros it Hit. by left.
  - destruct (negb (String.eqb (next (GraphAnalyzer.si_nodeID current) ed) "")
              && negb (bool_decide (next (GraphAnalyzer.si_nodeID current) ed ∈ visited)))
      eqn:Hcond.
    + apply andb_true_iff in Hcond as [Hne Hnv].
      apply negb_true_iff, String.eqb_neq in Hne.
      apply negb_true_iff, bool_decide_eq_false_1 in Hnv.
      destruct (IH _ _ Hpush) as (newEdges & -> & Hnew & Hstack).
      exists (ed :: newEdges). rewrite <- app_assoc. split; [done|]. split.
      * constructor; [split; [apply elem_of_cons; by left|done]|].
        eapply Forall_impl; [exact Hnew|]. intros x (Hx & ? & ?).
        split; [apply elem_of_cons; by right|done].
      * eapply Forall_impl; [exact Hstack|]. intros it [Hit|(x & Hx & Hid & Hne')].
        -- apply elem_of_cons in Hit as [->|Hit]; [|by left].
           right. exists ed. split; [apply elem_of_cons; by left|done].
        -- right. exists x. split; [apply elem_of_cons; by right|done].
    + destruct (IH _ _ Hpush) as (newEdges & -> & Hnew & Hstack).
      exists newEdges. split; [done|]. split.
      * eapply Forall_impl; [exact Hnew|]. intros x (Hx & ? & ?).
        split; [apply elem_of_cons; by right|done].
      * eapply Forall_impl; [exact Hstack|]. intros it [Hit|(x & Hx & Hid & Hne')].
        -- by left.
        -- right. exists x. split; [apply elem_of_cons; by right|done].
Qed.

Lemma dfs_adds_weaken roots (visited visited' : gset NodeID) nodes edges path r
    preNodes preEdges prePath :
  visited ⊆ visited' ->
  Forall (fun n => GraphAnalyzer.stops options n = false) preNodes ->
  Forall (fun id => (id ∉ visited) /\ expanded id /\ reached roots id) prePath ->
  Forall (fun ed => exists c, (c ∉ visited) /\ reached roots c /\ followed_from c ed /\
                              (next c ed ∉ visited)) preEdges ->
  dfs_adds roots visited' (nodes ++ preNodes)%list (edges ++ preEdges)%list
    (path ++ prePath)%list r ->
  dfs_adds roots visited nodes edges path r.
Proof.
  intros Hsub Hn Hp He
    (newNodes & newEdges & newPath & Hrn & Hre & Hrp & Hn' & Hp' & He').
  exists (preNodes ++ newNodes)%list, (preEdges ++ newEdges)%list,
         (prePath ++ newPath)%list.
  rewrite !app_assoc. split; [done|]. split; [done|]. split; [done|].
  split; [|split].
  - apply Forall_app. by split.
  - apply Forall_app. split; [done|].
    eapply Forall_impl; [exact Hp'|]. intros id (Hid & ? & ?).
    split; [|done]. intros Hin. apply Hid. by apply Hsub.
  - apply Forall_app. split; [done|].
    eapply Forall_impl; [exact He'|]. intros ed (c & Hc & ? & ? & Hnx).
    exists c. split; [intros Hin; apply Hc; by apply Hsub|].
    split; [done|]. split; [done|]. intros Hin. apply Hnx. by apply Hsub.
Qed.

Lemma dfsLoop_adds roots fuel stack visited nodes edges path r :
  Forall (fun it => reached roots (GraphAnalyzer.si_nodeID it)) stack ->
  GraphAnalyzer.dfsLoop fuel now e g options stack visited nodes edges path
    = Some (Ok r) ->
  dfs_adds roots visited nodes edges path r.
Proof.
  revert stack visited nodes edges path.
  induction fuel as [|fuel IH]; intros stack visited nodes edges path Hstack Hrun;
    simpl in Hrun; [discriminate|].
  destruct stack as [|current stack].
  { injection Hrun as <-. exists [], [], []. rewrite !app_nil_r. by repeat split. }
  apply Forall_cons in Hstack as [Hcur Hstack].
  destruct (bool_decide (GraphAnalyzer.si_nodeID current ∈ visited)) eqn:Hvis;
    [by eapply IH|].
  apply bool_decide_eq_false_1 in Hvis.
  destruct ((0 <=? MaxDepth options)
            && (MaxDepth options <? GraphAnalyzer.si_depth current));
    [by eapply IH|].
  destruct (BadgerEngine.GetNode now e g (GraphAnalyzer.si_nodeID current))
    as [node|m] eqn:Hget; [|discriminate].
  destruct (GraphAnalyzer.stops options node) eqn:Hstop.
  { apply (dfs_adds_weaken roots visited ({[GraphAnalyzer.si_nodeID current]} ∪ visited)
             nodes edges path r [] [] []); [set_solver|constructor..|].
    rewrite !app_nil_r. by eapply IH. }
  assert (Hexp : expanded (GraphAnalyzer.si_nodeID current)) by (by exists node).
  destruct (GraphAnalyzer.connectedEdges now e g (GraphAnalyzer.si_nodeID current)
              (Direction options)) as [connected|m] eqn:Hconn.
  2:{ destruct (GraphAnalyzer.nodeTypeMatch (NodeTypes options) node); discriminate. }
  set (preNodes := if GraphAnalyzer.nodeTypeMatch (NodeTypes options) node
                   then [node] else []).
  set (prePath := if GraphAnalyzer.nodeTypeMatch (NodeTypes options) node
                  then [GraphAnalyzer.si_nodeID current] else []).
  assert (Hrun' :
    (let '(edges', stack') :=
       GraphAnalyzer.pushEdges (Direction options) current
         ({[GraphAnalyzer.si_nodeID current]} ∪ visited)
         (rev (GraphAnalyzer.filterEdgeTypes (EdgeTypes options) connected))
         edges stack in
     GraphAnalyzer.dfsLoop fuel now e g options stack'
       ({[GraphAnalyzer.si_nodeID current]} ∪ visited)
       (nodes ++ preNodes)%list edges' (path ++ prePath)%list) = Some (Ok r)).
  { subst preNodes prePath.
    destruct (GraphAnalyzer.nodeTypeMatch (NodeTypes options) node);
      [exact Hrun|by rewrite !app_nil_r]. }
  clear Hrun.
  destruct (GraphAnalyzer.pushEdges _ _ _ _ _ _) as [edges' stack'] eqn:Hpush.
  destruct (pushEdges_spec _ _ _ _ _ _ _ Hpush) as (preEdges & -> & Hnew & Hstack').
  assert (Hfollowed : forall ed,
            ed ∈ rev (GraphAnalyzer.filterEdgeTypes (EdgeTypes options) connected) ->
            next (GraphAnalyzer.si_nodeID current) ed <> "" ->
            followed_from (GraphAnalyzer.si_nodeID current) ed).
  { intros ed Hed Hne. split; [done|]. exists connected. split; [done|].
    split; [|done]. by apply list_elem_of_In, in_rev, list_elem_of_In. }
  apply (dfs_adds_weaken roots visited ({[GraphAnalyzer.si_nodeID current]} ∪ visited)
           nodes edges path r preNodes preEdges prePath).
  - set_solver.
  - subst preNodes. destruct (GraphAnalyzer.nodeTypeMatch (NodeTypes options) node);
      repeat constructor. done.
  - subst prePath. destruct (GraphAnalyzer.nodeTypeMatch (NodeTypes options) node);
      repeat constructor; done.
  - eapply Forall_impl; [exact Hnew|]. intros ed (Hed & Hne & Hnv).
    exists (GraphAnalyzer.si_nodeID current). split; [done|]. split; [done|].
    split; [by apply Hfollowed|]. intros Hin. apply Hnv. set_solver.
  - eapply IH; [|exact Hrun'].
    eapply Forall_impl; [exact Hstack'|]. intros it [Hit|(ed & Hed & Hid & Hne)].
    + rewrite Forall_forall in Hstack. by apply Hstack.
    + destruct Hcur as (root & Hroot & Hreach). exists root. split; [done|].
      eapply rtc_r; [exact Hreach|]. exists ed. rewrite <- Hid.
      split; [|done]. apply Hfollowed; [done|]. by rewrite <- Hid.
Qed.

End DFS.

(** C4, as amended.  When the loop of [DepthFirstSearch] pops a node that
    is not visited and within the depth limit, fetches it and finds that
    it satisfies the stop predicate, it goes on with the rest of the
    stack with the node marked visited and nothing else changed: the node
    list, the path and the edge list are as they were and nothing was
    pushed.  From any state on, what the loop adds to the result are
    nodes that do not satisfy the stop predicate, IDs of nodes that were
    not visited before, were expanded and are reached from the stack
    through expanded nodes only, and edges followed out of such nodes to
    nodes that were not visited before, so that once a stopped node is
    marked no edge to or from it is recorded: in what the loop adds after
    popping a stopped node, the node is not listed, its ID is not on the
    path, and every edge leads from another node to another node.  Hence
    in the result of [DepthFirstSearch] no node that satisfies the stop
    predicate is listed, every ID on the path is reached from the start
    node through nodes that did not stop the search, and every edge was
    followed out of such a node. *)
Theorem dfs_stopped_node_is_dropped
    (fuel : nat) (now : time.Time) (e : BadgerEngine.t) (g : GraphID)
    (start : NodeID) (options : TraversalOptions) (r : TraversalResult) :
  GraphAnalyzer.DepthFirstSearch fuel now e g start (Some options) = Some (Ok r) ->
  (forall n, GraphAnalyzer.stops options n = true -> n ∉ tr_Nodes r) /\
  (forall id n, BadgerEngine.GetNode now e g id = Ok n ->
     GraphAnalyzer.stops options n = true -> id ∉ tr_Path r) /\
  (forall ed, ed ∈ tr_Edges r ->
     exists c n, BadgerEngine.GetNode now e g c = Ok n /\
       GraphAnalyzer.stops options n = false /\
       GraphAnalyzer.nextNodeID (Direction options) c ed <> "") /\
  (forall id, id ∈ tr_Path r ->
     expanded now e g options id /\ reached now e g options [start] id) /\
  (forall ed, ed ∈ tr_Edges r ->
     exists c, reached now e g options [start] c /\ followed_from now e g options c ed) /\
  (forall fuel' current stack visited nodes edges path n,
     GraphAnalyzer.si_nodeID current ∉ visited ->
     ((0 <=? MaxDepth options) && (MaxDepth options <? GraphAnalyzer.si_depth current))
       = false ->
     BadgerEngine.GetNode now e g (GraphAnalyzer.si_nodeID current) = Ok n ->
     GraphAnalyzer.stops options n = true ->
     GraphAnalyzer.dfsLoop (S fuel') now e g options (current :: stack) visited
       nodes edges path
     = GraphAnalyzer.dfsLoop fuel' now e g options stack
         ({[GraphAnalyzer.si_nodeID current]} ∪ visited) nodes edges path) /\
  (forall fuel' stack visited nodes edges path r',
     GraphAnalyzer.dfsLoop fuel' now e g options stack visited nodes edges path
       = Some (Ok r') ->
     dfs_adds now e g options (GraphAnalyzer.si_nodeID <$> stack) visited
       nodes edges path r') /\
  (forall fuel' current stack visited nodes edges path n r',
     GraphAnalyzer.si_nodeID current ∉ visited ->
     ((0 <=? MaxDepth options) && (MaxDepth options <? GraphAnalyzer.si_depth current))
       = false ->
     BadgerEngine.GetNode now e g (GraphAnalyzer.si_nodeID current) = Ok n ->
     GraphAnalyzer.stops options n = true ->
     GraphAnalyzer.dfsLoop (S fuel') now e g options (current :: stack) visited
       nodes edges path = Some (Ok r') ->
     exists newNodes newEdges newPath,
       tr_Nodes r' = (nodes ++ newNodes)%list /\
       tr_Edges r' = (edges ++ newEdges)%list /\
       tr_Path r' = (path ++ newPath)%list /\
       (n ∉ newNodes) /\
       (GraphAnalyzer.si_nodeID current ∉ newPath) /\
       (forall ed, ed ∈ newEdges ->
          exists c, c <> GraphAnalyzer.si_nodeID current /\
            followed_from now e g options c ed /\
            GraphAnalyzer.nextNodeID (Direction options) c ed
              <> GraphAnalyzer.si_nodeID current)).
Proof.
  intros Hrun. unfold GraphAnalyzer.DepthFirstSearch in Hrun. simpl in Hrun.
  assert (Hadds : dfs_adds now e g options [start] ∅ [] [] [] r).
  { eapply dfsLoop_adds; [|exact Hrun]. constructor; [|constructor].
    exists start. split; [apply elem_of_cons; by left|apply rtc_refl]. }
  destruct Hadds as (newNodes & newEdges & newPath & Hn & He & Hp & Hnodes & Hpath & Hedges).
  simpl in Hn, He, Hp.
  rewrite Forall_forall in Hnodes. rewrite Forall_forall in Hpath.
  rewrite Forall_forall in Hedges.
  assert (Hframe : forall fuel' stack visited nodes edges path r',
            GraphAnalyzer.dfsLoop fuel' now e g options stack visited nodes edges path
              = Some (Ok r') ->
            dfs_adds now e g options (GraphAnalyzer.si_nodeID <$> stack) visited
              nodes edges path r').
  { intros fuel' stack visited nodes edges path r' Hrun'.
    eapply dfsLoop_adds; [|exact Hrun'].
    apply Forall_forall. intros it Hit. exists (GraphAnalyzer.si_nodeID it).
    split; [|apply rtc_refl]. apply list_elem_of_fmap. by exists it. }
  assert (Hstep : forall fuel' current stack visited nodes edges path n,
            GraphAnalyzer.si_nodeID current ∉ visited ->
            ((0 <=? MaxDepth options)
             && (MaxDepth options <? GraphAnalyzer.si_depth current)) = false ->
            BadgerEngine.GetNode now e g (GraphAnalyzer.si_nodeID current) = Ok n ->
            GraphAnalyzer.stops options n = true ->
            GraphAnalyzer.dfsLoop (S fuel') now e g options (current :: stack) visited
              nodes edges path
            = GraphAnalyzer.dfsLoop fuel' now e g options stack
                ({[GraphAnalyzer.si_nodeID current]} ∪ visited) nodes edges path).
  { intros fuel' current stack visited nodes edges path n Hvis Hdepth Hget Hstop.
    simpl. rewrite bool_decide_eq_false_2 by done. by rewrite Hdepth, Hget, Hstop. }
  split; [|split; [|split; [|split; [|split; [|split; [|split]]]]]].
  - intros n Hstop Hin. rewrite Hn in Hin. specialize (Hnodes n Hin). congruence.
  - intros id n Hget Hstop Hin. rewrite Hp in Hin.
    destruct (Hpath id Hin) as (_ & (n' & Hget' & Hstop') & _). congruence.
  - intros ed Hin. rewrite He in Hin.
    destruct (Hedges ed Hin) as (c & _ & _ & ((n & Hget & Hstop) & _ & _ & _ & Hne) & _).
    exists c, n. done.
  - intros id Hin. rewrite Hp in Hin. destruct (Hpath id Hin) as (_ & ? & ?). done.
  - intros ed Hin. rewrite He in Hin.
    destruct (Hedges ed Hin) as (c & _ & ? & ? & _). by exists c.
  - exact Hstep.
  - exact Hframe.
  - intros fuel' current stack visited nodes edges path n r' Hvis Hdepth Hget Hstop Hrun'.
    rewrite (Hstep _ _ _ _ _ _ _ n Hvis Hdepth Hget Hstop) in Hrun'.
    destruct (Hframe _ _ _ _ _ _ _ Hrun')
      as (addedNodes & addedEdges & addedPath & Hn' & He' & Hp' & Hnodes' & Hpath'
          & Hedges').
    exists addedNodes, addedEdges, addedPath.
    rewrite Forall_forall in Hnodes'. rewrite Forall_forall in Hpath'.
    rewrite Forall_forall in Hedges'.
    split; [done|]. split; [done|]. split; [done|]. split; [|split].
    + intros Hin. specialize (Hnodes' n Hin). congruence.
    + intros Hin. destruct (Hpath' _ Hin) as (Hnot & _). apply Hnot. set_solver.
    + intros ed Hin. destruct (Hedges' ed Hin) as (c & Hc & _ & Hfol & Hnx).
      exists c. split; [intros ->; apply Hc; set_solver|]. split; [done|].
      intros Heq. apply Hnx. rewrite Heq. set_solver.
Qed.

Lemma dfs_stopped_node_is_dropped_witness :
  GraphAnalyzer.DepthFirstSearch 20 0 Samples.chain "g" "a" (Some Samples.stopAtB)
    = Some (Ok (mkTraversalResult [Samples.node "a" "service"]
                  [Samples.edge "ab" "calls" "a" "b"] ["a"] 0)) /\
  (forall n, GraphAnalyzer.stops Samples.stopAtB n = true ->
     n ∉ [Samples.node "a" "service"]).
Proof.
  assert (H : GraphAnalyzer.DepthFirstSearch 20 0 Samples.chain "g" "a"
                (Some Samples.stopAtB)
              = Some (Ok (mkTraversalResult [Samples.node "a" "service"]
                            [Samples.edge "ab" "calls" "a" "b"] ["a"] 0)))
    by (vm_compute; reflexivity).
  split; [exact H|].
  exact (proj1 (dfs_stopped_node_is_dropped 20 0 Samples.chain "g" "a"
                  Samples.stopAtB _ H)).
Defined.

(** C4, the claim as stated fails: on the chain [a -> b -> c] searched from
    [a] with the stop predicate "the node is [b]" and no node-type filter,
    [b] is fetched and stops the search, and it is neither in the node
    list nor on the path of the result. *)
Lemma dfs_stopped_node_missing_from_result :
  exists r,
    GraphAnalyzer.DepthFirstSearch 20 0 Samples.chain "g" "a" (Some Samples.stopAtB)
      = Some (Ok r) /\
    BadgerEngine.GetNode 0 Samples.chain "g" "b" = Ok (Samples.node "b" "service") /\
    GraphAnalyzer.stops Samples.stopAtB (Samples.node "b" "service") = true /\
    GraphAnalyzer.nodeTypeMatch (NodeTypes Samples.stopAtB) (Samples.node "b" "service")
      = true /\
    ~ In (Samples.node "b" "service") (tr_Nodes r) /\
    ~ In "b" (tr_Path r).
Proof.
  eexists. split; [vm_compute; reflexivity|].
  repeat split; try (vm_compute; reflexivity).
  - simpl. intros [H|[]]. discriminate H.
  - simpl. intros [H|[]]. discriminate H.
Qed.

(** With [a -> b], [a -> c] and [c -> b] and the stop predicate "the node
    is [b]": [b] is popped first and stops the search; when [c] is
    expanded afterwards, its edge to [b] is not recorded, because [b] is
    marked visited. *)
Example stopped_node_stays_marked :
  GraphAnalyzer.DepthFirstSearch 20 0 Samples.triangle "g" "a" (Some Samples.stopAtB)
  = Some (Ok (mkTraversalResult
                [Samples.node "a" "service"; Samples.node "c" "service"]
                [Samples.edge "ac" "calls" "a" "c"; Samples.edge "ab" "calls" "a" "b"]
                ["a"; "c"] 1)).
Proof. vm_compute; reflexivity. Qed.

(** ** Keys and prefixes *)

Lemma prefix_app_same (a b c : string) :
  String.prefix (a +:+ b) (a +:+ c) = String.prefix b c.
Proof.
  induction a as [|ch a IH]; simpl; [reflexivity|].
  destruct (Ascii.ascii_dec ch ch); [exact IH|contradiction].
Qed.

Lemma prefix_self_app (a c : string) : String.prefix a (a +:+ c) = true.
Proof.
  induction a as [|ch a IH]; simpl; [by destruct c|].
  destruct (Ascii.ascii_dec ch ch); [exact IH|contradiction].
Qed.

Lemma drop_app_length (p x : string) : GoStrings.drop (String.length p) (p +:+ x) = x.
Proof. induction p as [|ch p IH]; simpl; [by destruct x|exact IH]. Qed.

Lemma app_inj_same (a x y : string) : a +:+ x = a +:+ y -> x = y.
Proof.
  induction a as [|ch a IH]; [done|].
  intros H. injection H as H. auto.
Qed.

Lemma append_cons (c : ascii) (a b : string) : String c a +:+ b = String c (a +:+ b).
Proof. reflexivity. Qed.

Lemma append_assoc (a b c : string) : (a +:+ b) +:+ c = a +:+ (b +:+ c).
Proof.
  induction a as [|ch a IH]; [reflexivity|].
  rewrite !append_cons. by rewrite IH.
Qed.

Lemma prefix_app_inv (p k : string) :
  String.prefix p k = true -> k = p +:+ GoStrings.drop (String.length p) k.
Proof.
  revert k. induction p as [|ch p IH]; intros k H.
  - by destruct k.
  - destruct k as [|ch' k]; simpl in H; [discriminate|].
    destruct (Ascii.ascii_dec ch ch') as [->|]; [|discriminate].
    simpl. rewrite append_cons. f_equal. by apply IH.
Qed.

Lemma out_key_has_prefix g n x :
  GoStrings.HasPrefix (EncodeNodeOutEdgeIndexKey g n x) (outPrefix g n) = true.
Proof.
  unfold GoStrings.HasPrefix, EncodeNodeOutEdgeIndexKey, outPrefix.
  rewrite !prefix_app_same. apply (prefix_self_app ":" x).
Qed.

Lemma in_key_has_prefix g n x :
  GoStrings.HasPrefix (EncodeNodeInEdgeIndexKey g n x) (inPrefix g n) = true.
Proof.
  unfold GoStrings.HasPrefix, EncodeNodeInEdgeIndexKey, inPrefix.
  rewrite !prefix_app_same. apply (prefix_self_app ":" x).
Qed.

Lemma edge_key_has_prefix g x :
  GoStrings.HasPrefix (EncodeEdgeKey g x) (CreateEdgeIteratorPrefix g) = true.
Proof.
  unfold GoStrings.HasPrefix, EncodeEdgeKey, CreateEdgeIteratorPrefix.
  rewrite !prefix_app_same. apply (prefix_self_app ":" x).
Qed.

Lemma edge_key_inj g x y : EncodeEdgeKey g x = EncodeEdgeKey g y -> x = y.
Proof.
  unfold EncodeEdgeKey. intros H.
  by do 3 apply app_inj_same in H.
Qed.

Lemma node_key_inj g x y : EncodeNodeKey g x = EncodeNodeKey g y -> x = y.
Proof.
  unfold EncodeNodeKey. intros H.
  by do 3 apply app_inj_same in H.
Qed.

Lemma edge_key_of_prefixed g k :
  GoStrings.HasPrefix k (CreateEdgeIteratorPrefix g) = true ->
  k = EncodeEdgeKey g (GoStrings.drop (String.length (CreateEdgeIteratorPrefix g)) k).
Proof.
  intros H. apply prefix_app_inv in H. rewrite H at 1.
  unfold CreateEdgeIteratorPrefix, EncodeEdgeKey.
  by rewrite !append_assoc.
Qed.

(** ** Reading the store *)

Lemma elem_of_Iterate now (kv : DB) prefix k v :
  (k, v) ∈ Iterate now kv prefix <->
  Txn_Get now kv k = Some v /\ GoStrings.HasPrefix k prefix = true.
Proof.
  unfold Iterate, Txn_Get. rewrite list_elem_of_fmap. split.
  - intros ([k' ent] & Heq & Hin). simpl in Heq. inversion Heq; subst. clear Heq.
    rewrite merge_sort_Permutation in Hin.
    apply list_elem_of_In, filter_In in Hin as [Hin Hvis].
    apply list_elem_of_In, elem_of_map_to_list in Hin.
    unfold visible in Hvis. simpl in Hvis. apply andb_true_iff in Hvis as [Hp Hl].
    rewrite Hin, Hl. done.
  - intros [Hget Hp]. destruct (kv !! k) as [ent|] eqn:Hk; [|discriminate].
    destruct (live now ent) eqn:Hl; [|discriminate]. inversion Hget; subst.
    exists (k, ent). split; [done|].
    rewrite merge_sort_Permutation.
    apply list_elem_of_In, filter_In. split.
    + by apply list_elem_of_In, elem_of_map_to_list.
    + unfold visible. simpl. by rewrite Hp, Hl.
Qed.

Lemma Txn_Get_delete now (kv : DB) k k' :
  Txn_Get now (Txn_Delete k kv) k' = if decide (k = k') then None else Txn_Get now kv k'.
Proof.
  unfold Txn_Get, Txn_Delete. rewrite lookup_delete. by case_decide.
Qed.


Lemma sub_refl (kv : DB) : sub kv kv.
Proof. intros k. by right. Qed.

Lemma sub_trans (a b c : DB) : sub a b -> sub b c -> sub a c.
Proof.
  intros Hab Hbc k. destruct (Hab k) as [H|H]; [by left|].
  rewrite H. apply Hbc.
Qed.

Lemma sub_delete (kv : DB) k : sub (Txn_Delete k kv) kv.
Proof.
  intros k'. unfold Txn_Delete. rewrite lookup_delete. case_decide; [by left|by right].
Qed.

Lemma sub_None (kv' kv : DB) k : sub kv' kv -> kv !! k = None -> kv' !! k = None.
Proof. intros H Hk. destruct (H k) as [?|Heq]; [done|by rewrite Heq]. Qed.

Lemma Txn_Get_sub now (kv' kv : DB) k v :
  sub kv' kv -> Txn_Get now kv' k = Some v -> Txn_Get now kv k = Some v.
Proof.
  intros H. unfold Txn_Get. destruct (H k) as [Hk|Hk]; rewrite Hk; [discriminate|done].
Qed.

Lemma Txn_Get_same now (kv' kv : DB) k :
  kv' !! k = kv !! k -> Txn_Get now kv' k = Txn_Get now kv k.
Proof. intros H. unfold Txn_Get. by rewrite H. Qed.

Lemma Txn_Get_None now (kv : DB) k : kv !! k = None -> Txn_Get now kv k = None.
Proof. intros H. unfold Txn_Get. by rewrite H. Qed.

Lemma GetEdge_sub now (kv' kv : DB) g x ed :
  sub kv' kv ->
  BadgerTransaction.GetEdge now kv' g x = Ok ed ->
  BadgerTransaction.GetEdge now kv g x = Ok ed.
Proof.
  intros H. unfold BadgerTransaction.GetEdge.
  destruct (Txn_Get now kv' (EncodeEdgeKey g x)) as [b|] eqn:Hb; [|discriminate].
  by rewrite (Txn_Get_sub _ _ _ _ _ H Hb).
Qed.

Lemma GetEdge_record now (kv : DB) g x ed :
  BadgerTransaction.GetEdge now kv g x = Ok ed <->
  Txn_Get now kv (EncodeEdgeKey g x) = Some (EdgeJSON ed).
Proof.
  unfold BadgerTransaction.GetEdge.
  destruct (Txn_Get now kv (EncodeEdgeKey g x)) as [[]|]; simpl; split; intros H;
    inversion H; subst; reflexivity.
Qed.

(** *** The effect of [DeleteEdge] and of the cascade loop *)

Lemma DeleteEdge_Ok now g x (kv kv' : DB) :
  BadgerTransaction.DeleteEdge now g x kv = (Ok tt, kv') ->
  exists ed,
    BadgerTransaction.GetEdge now kv g x = Ok ed /\
    sub kv' kv /\
    kv' !! EncodeEdgeKey g x = None /\
    (forall k, k ∉ cascadeKeys g x ed -> kv' !! k = kv !! k).
Proof.
  unfold BadgerTransaction.DeleteEdge.
  destruct (BadgerTransaction.GetEdge now kv g x) as [ed|m]; [|discriminate].
  intros H. inversion H; subst; clear H. exists ed. split; [done|].
  split; [|split].
  - repeat (eapply sub_trans; [apply sub_delete|]). apply sub_refl.
  - unfold Txn_Delete.
    repeat (rewrite lookup_delete; case_decide; [done|]).
    exfalso; eauto.
  - intros k Hk. unfold cascadeKeys in Hk. unfold Txn_Delete.
    rewrite !lookup_delete_ne; [done|..]; intros <-; apply Hk; set_solver.
Qed.

Lemma deleteEdgesOf_Ok now g wrap items (kv kv' : DB) :
  BadgerTransaction.deleteEdgesOf now g wrap items kv = (Ok tt, kv') ->
  sub kv' kv /\
  (forall k v, (k, v) ∈ items -> kv' !! EncodeEdgeKey g (Bytes_string v) = None) /\
  (forall k, kv' !! k <> kv !! k ->
     exists k0 v ed,
       (k0, v) ∈ items /\
       BadgerTransaction.GetEdge now kv g (Bytes_string v) = Ok ed /\
       k ∈ cascadeKeys g (Bytes_string v) ed).
Proof.
  revert kv. induction items as [|[k0 v] items IH]; intros kv Hrun; simpl in Hrun.
  - inversion Hrun; subst. split; [apply sub_refl|]. split.
    + intros k v Hin. by apply elem_of_nil in Hin.
    + intros k Hk. done.
  - destruct (BadgerTransaction.DeleteEdge now g (Bytes_string v) kv)
      as [[[]|m] kv1] eqn:Hdel; [|discriminate].
    apply DeleteEdge_Ok in Hdel as (ed & Hget & Hsub1 & Hgone & Hframe).
    apply IH in Hrun as (Hsub & Hdeleted & Hchanged).
    split; [by eapply sub_trans|]. split.
    + intros k v' Hin. apply elem_of_cons in Hin as [Heq|Hin].
      * inversion Heq; subst. by eapply sub_None.
      * by eapply Hdeleted.
    + intros k Hk.
      destruct (decide (kv' !! k = kv1 !! k)) as [Heq|Hne].
      * exists k0, v, ed. split; [apply elem_of_cons; by left|]. split; [done|].
        destruct (decide (k ∈ cascadeKeys g (Bytes_string v) ed)) as [|Hout]; [done|].
        exfalso. apply Hk. rewrite Heq. by apply Hframe.
      * destruct (Hchanged k Hne) as (k1 & v1 & ed1 & Hin & Hget1 & Hk1).
        exists k1, v1, ed1. split; [apply elem_of_cons; by right|].
        split; [by eapply GetEdge_sub|done].
Qed.

(** *** The coherence checks, as properties of the store *)

Lemma pointsAt_forall now (kv : DB) g p prefix :
  forallb (pointsAt now kv g p) (Iterate now kv prefix) = true ->
  forall k v, Txn_Get now kv k = Some v -> GoStrings.HasPrefix k prefix = true ->
    exists ed, BadgerTransaction.GetEdge now kv g (Bytes_string v) = Ok ed /\ p ed = true.
Proof.
  intros Hall k v Hget Hp. rewrite forallb_forall in Hall.
  specialize (Hall (k, v)). unfold pointsAt in Hall. simpl in Hall.
  destruct (BadgerTransaction.GetEdge now kv g (Bytes_string v)) as [ed|m].
  - exists ed. split; [done|]. apply Hall.
    apply list_elem_of_In, elem_of_Iterate. done.
  - exfalso. assert (false = true); [|discriminate].
    apply Hall. apply list_elem_of_In, elem_of_Iterate. done.
Qed.

Lemma adjacency_complete_at_spec now (kv : DB) g n :
  adjacency_complete_at now kv g n = true ->
  forall x ed,
    BadgerTransaction.GetEdge now kv g x = Ok ed ->
    edge_FromNodeID ed = n \/ edge_ToNodeID ed = n ->
    Txn_Get now kv (EncodeNodeOutEdgeIndexKey g (edge_FromNodeID ed) x) = Some (Raw x) /\
    Txn_Get now kv (EncodeNodeInEdgeIndexKey g (edge_ToNodeID ed) x) = Some (Raw x).
Proof.
  intros Hall x ed Hget Hinc. unfold adjacency_complete_at in Hall.
  rewrite forallb_forall in Hall.
  apply GetEdge_record in Hget.
  specialize (Hall (EncodeEdgeKey g x, EdgeJSON ed)).
  cbn [fst snd Edge_FromJSON] in Hall.
  assert (Hdrop : GoStrings.drop (String.length (CreateEdgeIteratorPrefix g))
                    (EncodeEdgeKey g x) = x).
  { unfold CreateEdgeIteratorPrefix, EncodeEdgeKey.
    rewrite <- !append_assoc. apply drop_app_length. }
  rewrite Hdrop in Hall.
  assert (Hinc' : String.eqb (edge_FromNodeID ed) n || String.eqb (edge_ToNodeID ed) n
                  = true).
  { apply orb_true_iff. destruct Hinc as [<-|<-]; [left|right]; apply String.eqb_refl. }
  rewrite Hinc' in Hall.
  assert (Hix : indexed now kv g x ed = true).
  { apply Hall, list_elem_of_In, elem_of_Iterate. split; [done|].
    apply edge_key_has_prefix. }
  unfold indexed in Hix. apply andb_true_iff in Hix as [H1 H2].
  split; by eapply bool_decide_eq_true_1.
Qed.

Ltac key_discr H :=
  exfalso; apply (f_equal (GoStrings.take 4)) in H; vm_compute in H; discriminate H.

Ltac in_cascade H :=
  unfold cascadeKeys in H; rewrite !elem_of_cons, elem_of_nil in H;
  destruct H as [H|[H|[H|[H|[]]]]].

(** *** Cascading node deletion *)

Section DeleteNode.
Variables (now : time.Time) (kv kv' : DB) (g : GraphID) (n : NodeID).
Hypothesis Hsound : adjacency_sound_at now kv g n = true.
Hypothesis Hcomplete : adjacency_complete_at now kv g n = true.
Hypothesis Hrun : BadgerTransaction.DeleteNode now g n kv = (Ok tt, kv').

Lemma out_sound k v :
  Txn_Get now kv k = Some v -> GoStrings.HasPrefix k (outPrefix g n) = true ->
  exists ed, BadgerTransaction.GetEdge now kv g (Bytes_string v) = Ok ed /\
             edge_FromNodeID ed = n.
Proof.
  intros Hget Hp. apply andb_true_iff in Hsound as [Hout _].
  destruct (pointsAt_forall _ _ _ _ _ Hout k v Hget Hp) as (ed & Hed & Heq).
  exists ed. split; [done|]. by apply String.eqb_eq.
Qed.

Lemma in_sound k v :
  Txn_Get now kv k = Some v -> GoStrings.HasPrefix k (inPrefix g n) = true ->
  exists ed, BadgerTransaction.GetEdge now kv g (Bytes_string v) = Ok ed /\
             edge_ToNodeID ed = n.
Proof.
  intros Hget Hp. apply andb_true_iff in Hsound as [_ Hin].
  destruct (pointsAt_forall _ _ _ _ _ Hin k v Hget Hp) as (ed & Hed & Heq).
  exists ed. split; [done|]. by apply String.eqb_eq.
Qed.

(** The run of [DeleteNode], step by step: the store after the three
    deletions of the node's own keys, after the outgoing cascade and after
    the incoming cascade. *)
Lemma DeleteNode_steps :
  exists node kv3 kv4,
    BadgerTransaction.GetNode now kv g n = Ok node /\
    sub kv3 kv /\
    (forall k, k <> EncodeNodeKey g n ->
       GoStrings.take 2 k <> "ti" -> GoStrings.take 2 k <> "xi" ->
       kv3 !! k = kv !! k) /\
    BadgerTransaction.deleteEdgesOf now g
      "failed to delete outgoing edge during node deletion: "
      (Iterate now kv3 (outPrefix g n)) kv3 = (Ok tt, kv4) /\
    BadgerTransaction.deleteEdgesOf now g
      "failed to delete incoming edge during node deletion: "
      (Iterate now kv4 (inPrefix g n)) kv4 = (Ok tt, kv').
Proof.
  unfold BadgerTransaction.DeleteNode in Hrun.
  destruct (BadgerTransaction.GetNode now kv g n) as [node|m]; [|discriminate].
  set (kv3 := match node_ExpiresAt node with
              | Some expiresAt =>
                  Txn_Delete (EncodeExpiryIndexKey g (node_ID node) expiresAt)
                    (Txn_Delete (EncodeNodeTypeIndexKey g (node_Type node) n)
                       (Txn_Delete (EncodeNodeKey g n) kv))
              | None =>
                  Txn_Delete (EncodeNodeTypeIndexKey g (node_Type node) n)
                    (Txn_Delete (EncodeNodeKey g n) kv)
              end) in *.
  fold (outPrefix g n) in Hrun. fold (inPrefix g n) in Hrun.
  destruct (BadgerTransaction.deleteEdgesOf now g _ (Iterate now kv3 (outPrefix g n)) kv3)
    as [[[]|m] kv4] eqn:Hout; [|discriminate].
  exists node, kv3, kv4. split; [done|]. split; [|split; [|split; [done|exact Hrun]]].
  - subst kv3. destruct (node_ExpiresAt node);
      repeat (eapply sub_trans; [apply sub_delete|]); apply sub_refl.
  - intros k Hk Hti Hxi. subst kv3. unfold Txn_Delete.
    destruct (node_ExpiresAt node); rewrite !lookup_delete_ne; try done;
      intros <-; (apply Hti; reflexivity) || (apply Hxi; reflexivity).
Qed.

Lemma delete_node_tx :
  (forall x ed,
     BadgerTransaction.GetEdge now kv g x = Ok ed ->
     edge_FromNodeID ed = n \/ edge_ToNodeID ed = n ->
     is_Ok (BadgerTransaction.GetEdge now kv' g x) = false) /\
  (forall n', n' <> n ->
     BadgerTransaction.GetNode now kv' g n' = BadgerTransaction.GetNode now kv g n') /\
  (forall x ed,
     BadgerTransaction.GetEdge now kv g x = Ok ed ->
     edge_FromNodeID ed <> n -> edge_ToNodeID ed <> n ->
     BadgerTransaction.GetEdge now kv' g x = Ok ed).
Proof.
  destruct DeleteNode_steps as (node & kv3 & kv4 & Hnode & Hsub3 & Hsame3 & Hout & Hin).
  apply deleteEdgesOf_Ok in Hout as (Hsub4 & Hdel4 & Hch4).
  apply deleteEdgesOf_Ok in Hin as (Hsub5 & Hdel5 & Hch5).
  assert (Hgone : forall x, kv' !! EncodeEdgeKey g x = None ->
            is_Ok (BadgerTransaction.GetEdge now kv' g x) = false).
  { intros x Hx. unfold BadgerTransaction.GetEdge. by rewrite (Txn_Get_None _ _ _ Hx). }
  assert (Hout_items : forall k0 v, (k0, v) ∈ Iterate now kv3 (outPrefix g n) ->
            exists ed, BadgerTransaction.GetEdge now kv g (Bytes_string v) = Ok ed /\
                       edge_FromNodeID ed = n).
  { intros k0 v Hin0. apply elem_of_Iterate in Hin0 as [Hget Hp].
    eapply out_sound; [|exact Hp]. by eapply Txn_Get_sub. }
  assert (Hin_items : forall k0 v, (k0, v) ∈ Iterate now kv4 (inPrefix g n) ->
            exists ed, BadgerTransaction.GetEdge now kv g (Bytes_string v) = Ok ed /\
                       edge_ToNodeID ed = n).
  { intros k0 v Hin0. apply elem_of_Iterate in Hin0 as [Hget Hp].
    eapply in_sound; [|exact Hp].
    eapply Txn_Get_sub; [exact Hsub3|]. by eapply Txn_Get_sub. }
  split; [|split].
  - intros x ed Hget Hinc.
    destruct (adjacency_complete_at_spec _ _ _ _ Hcomplete x ed Hget Hinc)
      as [Hoent Hient].
    apply Hgone. destruct (decide (edge_FromNodeID ed = n)) as [Hfrom|Hfrom].
    + rewrite Hfrom in Hoent.
      eapply sub_None; [exact Hsub5|].
      apply (Hdel4 (EncodeNodeOutEdgeIndexKey g n x) (Raw x)).
      apply elem_of_Iterate. split; [|apply out_key_has_prefix].
      rewrite <- Hoent. apply Txn_Get_same, Hsame3.
      * intros H. key_discr H.
      * vm_compute. discriminate.
      * vm_compute. discriminate.
    + destruct Hinc as [?|Hto]; [done|]. rewrite Hto in Hient.
      set (K := EncodeNodeInEdgeIndexKey g n x) in *.
      assert (H3 : Txn_Get now kv3 K = Some (Raw x)).
      { rewrite <- Hient. apply Txn_Get_same, Hsame3.
        - intros H. key_discr H.
        - vm_compute. discriminate.
        - vm_compute. discriminate. }
      destruct (decide (kv4 !! K = kv3 !! K)) as [Hsame|Hdiff].
      * apply (Hdel5 K (Raw x)). apply elem_of_Iterate.
        split; [|apply in_key_has_prefix].
        rewrite <- H3. by apply Txn_Get_same.
      * destruct (Hch4 K Hdiff) as (k0 & v & ed1 & Hitem & Hget1 & HK).
        eapply sub_None; [exact Hsub5|].
        destruct (Hout_items k0 v Hitem) as (ed' & Hget' & Hfrom').
        pose proof (GetEdge_sub _ _ _ _ _ _ Hsub3 Hget1) as Hget1'.
        rewrite Hget' in Hget1'. inversion Hget1'; subst ed'. clear Hget1'.
        destruct (adjacency_complete_at_spec _ _ _ _ Hcomplete _ _ Hget' (or_introl Hfrom'))
          as [_ Hient1].
        in_cascade HK; try (key_discr HK).
        rewrite <- HK in Hient1. fold K in Hient1. rewrite Hient in Hient1.
        injection Hient1 as Hx. rewrite Hx. by eapply Hdel4.
  - intros n' Hn'. unfold BadgerTransaction.GetNode.
    set (K := EncodeNodeKey g n').
    assert (H3 : kv3 !! K = kv !! K).
    { apply Hsame3.
      - intros H. apply node_key_inj in H. done.
      - vm_compute. discriminate.
      - vm_compute. discriminate. }
    assert (H4 : kv4 !! K = kv3 !! K).
    { destruct (decide (kv4 !! K = kv3 !! K)) as [|Hdiff]; [done|].
      destruct (Hch4 K Hdiff) as (k0 & v & ed1 & _ & _ & HK).
      in_cascade HK; key_discr HK. }
    assert (H5 : kv' !! K = kv4 !! K).
    { destruct (decide (kv' !! K = kv4 !! K)) as [|Hdiff]; [done|].
      destruct (Hch5 K Hdiff) as (k0 & v & ed1 & _ & _ & HK).
      in_cascade HK; key_discr HK. }
    rewrite (Txn_Get_same now kv' kv K); [done|]. by rewrite H5, H4, H3.
  - intros x ed Hget Hfrom Hto.
    set (K := EncodeEdgeKey g x).
    assert (H3 : kv3 !! K = kv !! K).
    { apply Hsame3.
      - intros H. key_discr H.
      - vm_compute. discriminate.
      - vm_compute. discriminate. }
    assert (H4 : kv4 !! K = kv3 !! K).
    { destruct (decide (kv4 !! K = kv3 !! K)) as [|Hdiff]; [done|].
      destruct (Hch4 K Hdiff) as (k0 & v & ed1 & Hitem & _ & HK).
      destruct (Hout_items k0 v Hitem) as (ed' & Hget' & Hfrom').
      in_cascade HK; try (key_discr HK).
      apply edge_key_inj in HK. subst x. congruence. }
    assert (H5 : kv' !! K = kv4 !! K).
    { destruct (decide (kv' !! K = kv4 !! K)) as [|Hdiff]; [done|].
      destruct (Hch5 K Hdiff) as (k0 & v & ed1 & Hitem & _ & HK).
      destruct (Hin_items k0 v Hitem) as (ed' & Hget' & Hto').
      in_cascade HK; try (key_discr HK).
      apply edge_key_inj in HK. subst x. congruence. }
    rewrite <- Hget. unfold BadgerTransaction.GetEdge. subst K.
    rewrite (Txn_Get_same now kv' kv (EncodeEdgeKey g x)); [done|].
    by rewrite H5, H4, H3.
Qed.

End DeleteNode.

(** X9.  When the adjacency index is coherent around [n] (every
    entry under [n]'s two adjacency prefixes holds the ID of a stored edge
    leaving, respectively entering, [n], and every stored edge incident on
    [n] has both its adjacency entries) and [DeleteNode g n] succeeds, no
    edge with [n] as an endpoint can be fetched afterwards, every other
    node of [g] is fetched exactly as before, and every edge not incident
    on [n] is fetched with the same contents as before. *)
Theorem delete_node_cascades_and_preserves_rest
    (now : time.Time) (e e' : BadgerEngine.t) (kv : DB) (g : GraphID) (n : NodeID) :
  BadgerEngine.db e = Some kv ->
  adjacency_sound_at now kv g n = true ->
  adjacency_complete_at now kv g n = true ->
  BadgerEngine.DeleteNode now e g n = (Ok tt, e') ->
  (forall x ed,
     BadgerEngine.GetEdge now e g x = Ok ed ->
     edge_FromNodeID ed = n \/ edge_ToNodeID ed = n ->
     is_Ok (BadgerEngine.GetEdge now e' g x) = false) /\
  (forall n', n' <> n ->
     BadgerEngine.GetNode now e' g n' = BadgerEngine.GetNode now e g n') /\
  (forall x ed,
     BadgerEngine.GetEdge now e g x = Ok ed ->
     edge_FromNodeID ed <> n -> edge_ToNodeID ed <> n ->
     BadgerEngine.GetEdge now e' g x = Ok ed).
Proof.
  intros Hdb Hsound Hcomplete Hrun. destruct e as [d]. simpl in Hdb. subst d.
  unfold BadgerEngine.DeleteNode, BadgerEngine.update, Update in Hrun. simpl in Hrun.
  destruct (BadgerTransaction.DeleteNode now g n kv) as [[[]|m] kv'] eqn:Htx;
    inversion Hrun; subst e'.
  unfold BadgerEngine.GetEdge, BadgerEngine.GetNode, BadgerEngine.view, View. simpl.
  exact (delete_node_tx now kv kv' g n Hsound Hcomplete Htx).
Qed.

Lemma delete_node_cascades_and_preserves_rest_witness :
  BadgerEngine.db Samples.chain = Some (Samples.storeOf Samples.chain) /\
  adjacency_sound_at 0 (Samples.storeOf Samples.chain) "g" "b" = true /\
  adjacency_complete_at 0 (Samples.storeOf Samples.chain) "g" "b" = true /\
  BadgerEngine.DeleteNode 0 Samples.chain "g" "b"
    = (Ok tt, (BadgerEngine.DeleteNode 0 Samples.chain "g" "b").2) /\
  (forall n', n' <> "b" ->
     BadgerEngine.GetNode 0 (BadgerEngine.DeleteNode 0 Samples.chain "g" "b").2 "g" n'
     = BadgerEngine.GetNode 0 Samples.chain "g" n').
Proof.
  assert (H1 : BadgerEngine.db Samples.chain = Some (Samples.storeOf Samples.chain))
    by (vm_compute; reflexivity).
  assert (H2 : adjacency_sound_at 0 (Samples.storeOf Samples.chain) "g" "b" = true)
    by (vm_compute; reflexivity).
  assert (H3 : adjacency_complete_at 0 (Samples.storeOf Samples.chain) "g" "b" = true)
    by (vm_compute; reflexivity).
  assert (H4 : BadgerEngine.DeleteNode 0 Samples.chain "g" "b"
               = (Ok tt, (BadgerEngine.DeleteNode 0 Samples.chain "g" "b").2))
    by (vm_compute; reflexivity).
  repeat (split; [assumption|]).
  exact (proj1 (proj2 (delete_node_cascades_and_preserves_rest 0 Samples.chain _ _
                         "g" "b" H1 H2 H3 H4))).
Defined.

(** The cascade on the chain: deleting [b] removes [ab] and [bc] and keeps
    [a] and [c]. *)
Example delete_middle_of_chain :
  let e' := (BadgerEngine.DeleteNode 0 Samples.chain "g" "b").2 in
  BadgerEngine.GetEdge 0 e' "g" "ab" = Err "edge not found: ab" /\
  BadgerEngine.GetEdge 0 e' "g" "bc" = Err "edge not found: bc" /\
  BadgerEngine.GetNode 0 e' "g" "a" = Ok (Samples.node "a" "service") /\
  BadgerEngine.GetNode 0 e' "g" "c" = Ok (Samples.node "c" "database").
Proof. repeat split; vm_compute; reflexivity. Qed.

(** C8.  [DeleteNode] removes an edge that is not incident on the deleted
    node.  Edge [e] is created from [a] to [b] and created again from [c]
    to [d]; [CreateEdge] leaves the adjacency entry [ni:out:g:a:e] of the
    first write in place, so [GetOutgoingEdges] still returns [e] for [a],
    and deleting [a] succeeds and deletes [e], whose endpoints are [c] and
    [d].  When the second write is an [UpdateEdge], which removes the old
    entries, the edge survives the deletion of [a]. *)
Theorem delete_node_removes_edge_between_other_nodes :
  BadgerEngine.GetEdge 0 Samples.rewired "g" "e"
    = Ok (Samples.edge "e" "calls" "c" "d") /\
  BadgerEngine.GetOutgoingEdges 0 Samples.rewired "g" "a"
    = Ok [Samples.edge "e" "calls" "c" "d"] /\
  (BadgerEngine.DeleteNode 0 Samples.rewired "g" "a").1 = Ok tt /\
  BadgerEngine.GetEdge 0 (BadgerEngine.DeleteNode 0 Samples.rewired "g" "a").2 "g" "e"
    = Err "edge not found: e" /\
  BadgerEngine.GetOutgoingEdges 0 Samples.rewiredByUpdate "g" "a" = Ok [] /\
  (BadgerEngine.DeleteNode 0 Samples.rewiredByUpdate "g" "a").1 = Ok tt /\
  BadgerEngine.GetEdge 0
    (BadgerEngine.DeleteNode 0 Samples.rewiredByUpdate "g" "a").2 "g" "e"
    = Ok (Samples.edge "e" "calls" "c" "d").
Proof.
  split; [vm_compute; reflexivity|]. split; [vm_compute; reflexivity|].
  split; [vm_compute; reflexivity|]. split; [vm_compute; reflexivity|].
  split; [vm_compute; reflexivity|]. split; vm_compute; reflexivity.
Qed.

(** The same happens through the key prefixes: with nodes [a], [a:b] and
    [c] and the edge [e] from [a:b] to [c], deleting [a] succeeds and
    removes [e], which is not incident on [a]: the key of [e]'s outgoing
    entry, [ni:out:g:a:b:e], lies under the prefix [ni:out:g:a:] scanned
    for [a]. *)
Lemma delete_node_removes_edge_of_another_node :
  (BadgerEngine.DeleteNode 0 Samples.colons "g" "a").1 = Ok tt /\
  BadgerEngine.GetEdge 0 Samples.colons "g" "e"
    = Ok (Samples.edge "e" "calls" "a:b" "c") /\
  "a:b" <> "a" /\ "c" <> "a" /\
  BadgerEngine.GetEdge 0 (BadgerEngine.DeleteNode 0 Samples.colons "g" "a").2 "g" "e"
    = Err "edge not found: e".
Proof. repeat split; try (vm_compute; reflexivity); discriminate. Qed.

(** ** Deleting a graph twice *)

Lemma GetNode_sub now (kv' kv : DB) g n nd :
  sub kv' kv ->
  BadgerTransaction.GetNode now kv' g n = Ok nd ->
  BadgerTransaction.GetNode now kv g n = Ok nd.
Proof.
  intros Hsub. unfold BadgerTransaction.GetNode.
  destruct (Txn_Get now kv' (EncodeNodeKey g n)) as [v|] eqn:Hv; [|done].
  by rewrite (Txn_Get_sub _ _ _ _ _ Hsub Hv).
Qed.

Lemma GetNode_sub_fails now (kv' kv : DB) g n :
  sub kv' kv ->
  is_Ok (BadgerTransaction.GetNode now kv g n) = false ->
  is_Ok (BadgerTransaction.GetNode now kv' g n) = false.
Proof.
  intros Hsub Hfail.
  destruct (BadgerTransaction.GetNode now kv' g n) as [nd|] eqn:Hget; [|done].
  by rewrite (GetNode_sub _ _ _ _ _ _ Hsub Hget) in Hfail.
Qed.

Lemma GetEdge_sub_fails now (kv' kv : DB) g x :
  sub kv' kv ->
  is_Ok (BadgerTransaction.GetEdge now kv g x) = false ->
  is_Ok (BadgerTransaction.GetEdge now kv' g x) = false.
Proof.
  intros Hsub Hfail.
  destruct (BadgerTransaction.GetEdge now kv' g x) as [ed|] eqn:Hget; [|done].
  by rewrite (GetEdge_sub _ _ _ _ _ _ Hsub Hget) in Hfail.
Qed.

Lemma Iterate_sub now (kv' kv : DB) prefix item :
  sub kv' kv -> item ∈ Iterate now kv' prefix -> item ∈ Iterate now kv prefix.
Proof.
  intros Hsub. destruct item as [k v]. rewrite !elem_of_Iterate.
  intros [Hget Hprefix]. split; [|done]. by eapply Txn_Get_sub.
Qed.

Lemma DeleteEdge_effect now g x (kv : DB) :
  sub (BadgerTransaction.DeleteEdge now g x kv).2 kv /\
  is_Ok (BadgerTransaction.GetEdge now (BadgerTransaction.DeleteEdge now g x kv).2 g x)
    = false /\
  (is_Ok (BadgerTransaction.GetEdge now kv g x) = false ->
   (BadgerTransaction.DeleteEdge now g x kv).2 = kv).
Proof.
  unfold BadgerTransaction.DeleteEdge.
  destruct (BadgerTransaction.GetEdge now kv g x) as [ed|m] eqn:Hget; cbn [snd].
  - split; [|split; [|done]].
    + repeat (eapply sub_trans; [apply sub_delete|]). apply sub_refl.
    + unfold BadgerTransaction.GetEdge. rewrite Txn_Get_None; [done|].
      eapply (sub_None _ (Txn_Delete (EncodeEdgeKey g x) kv)); [|apply lookup_delete_eq].
      do 3 (eapply sub_trans; [apply sub_delete|]). apply sub_refl.
  - split; [apply sub_refl|]. split; [by rewrite Hget|done].
Qed.

Lemma deleteEdgesOf_sub now g wrap items (kv : DB) :
  sub (BadgerTransaction.deleteEdgesOf now g wrap items kv).2 kv.
Proof.
  revert kv. induction items as [|[k v] items IH]; intros kv; simpl; [apply sub_refl|].
  pose proof (DeleteEdge_effect now g (Bytes_string v) kv) as [Hsub _].
  destruct (BadgerTransaction.DeleteEdge now g (Bytes_string v) kv) as [[[]|m] kv1];
    cbn [snd] in *; [|done].
  eapply sub_trans; [apply IH|done].
Qed.

Lemma DeleteNode_effect now g n (kv : DB) :
  sub (BadgerTransaction.DeleteNode now g n kv).2 kv /\
  is_Ok (BadgerTransaction.GetNode now (BadgerTransaction.DeleteNode now g n kv).2 g n)
    = false /\
  (is_Ok (BadgerTransaction.GetNode now kv g n) = false ->
   (BadgerTransaction.DeleteNode now g n kv).2 = kv).
Proof.
  unfold BadgerTransaction.DeleteNode.
  destruct (BadgerTransaction.GetNode now kv g n) as [node|m] eqn:Hget; cbn [snd].
  2:{ split; [apply sub_refl|]. split; [by rewrite Hget|done]. }
  set (kv1 := match node_ExpiresAt node with
              | Some expiresAt => Txn_Delete _ _
              | None => _
              end).
  assert (Hsub1 : sub kv1 (Txn_Delete (EncodeNodeKey g n) kv)).
  { subst kv1. destruct (node_ExpiresAt node).
    - do 2 (eapply sub_trans; [apply sub_delete|]). apply sub_refl.
    - eapply sub_trans; [apply sub_delete|]. apply sub_refl. }
  assert (Hsub : sub
            (match BadgerTransaction.deleteEdgesOf now g
                     "failed to delete outgoing edge during node deletion: "
                     (Iterate now kv1 (NodeIndexPrefix +:+ "out:" +:+ g +:+ ":" +:+ n +:+ ":"))
                     kv1 with
             | (Ok _, kv2) =>
                 BadgerTransaction.deleteEdgesOf now g
                   "failed to delete incoming edge during node deletion: "
                   (Iterate now kv2 (NodeIndexPrefix +:+ "in:" +:+ g +:+ ":" +:+ n +:+ ":"))
                   kv2
             | (Err m, kv') => (Err m, kv')
             end).2 kv1).
  { pose proof (deleteEdgesOf_sub now g
        "failed to delete outgoing edge during node deletion: "
        (Iterate now kv1 (NodeIndexPrefix +:+ "out:" +:+ g +:+ ":" +:+ n +:+ ":")) kv1) as H1.
    destruct (BadgerTransaction.deleteEdgesOf now g
                "failed to delete outgoing edge during node deletion: " _ kv1)
      as [[[]|m] kv2]; cbn [snd] in *; [|done].
    eapply sub_trans; [apply deleteEdgesOf_sub|done]. }
  split; [|split; [|done]].
  - eapply sub_trans; [exact Hsub|]. eapply sub_trans; [exact Hsub1|apply sub_delete].
  - unfold BadgerTransaction.GetNode at 1. rewrite Txn_Get_None; [done|].
    eapply sub_None; [exact Hsub|]. eapply sub_None; [exact Hsub1|].
    apply lookup_delete_eq.
Qed.

Lemma deleteNodesOf_sub now g items (kv : DB) :
  sub (BadgerEngine.deleteNodesOf now g items kv) kv.
Proof.
  revert kv. induction items as [|[k v] items IH]; intros kv; simpl; [apply sub_refl|].
  eapply sub_trans; [apply IH|].
  destruct (String.eqb _ ""); [apply sub_refl|apply DeleteNode_effect].
Qed.

Lemma deleteNodesOf_gone now g items (kv : DB) k v :
  (k, v) ∈ items -> (DecodeNodeKey k).2 <> "" ->
  is_Ok (BadgerTransaction.GetNode now (BadgerEngine.deleteNodesOf now g items kv) g
           (DecodeNodeKey k).2) = false.
Proof.
  intros Hin Hid. revert kv.
  induction items as [|[k0 v0] items IH]; intros kv; [by apply elem_of_nil in Hin|].
  apply elem_of_cons in Hin as [Heq|Hin]; [|simpl; apply (IH Hin)].
  injection Heq as <- <-. simpl.
  eapply GetNode_sub_fails; [apply deleteNodesOf_sub|].
  destruct (String.eqb_spec (DecodeNodeKey k).2 "") as [|_]; [done|].
  apply DeleteNode_effect.
Qed.

Lemma deleteNodesOf_noop now g items (kv : DB) :
  (forall k v, (k, v) ∈ items -> (DecodeNodeKey k).2 <> "" ->
     is_Ok (BadgerTransaction.GetNode now kv g (DecodeNodeKey k).2) = false) ->
  BadgerEngine.deleteNodesOf now g items kv = kv.
Proof.
  induction items as [|[k v] items IH]; intros Hfail; simpl; [done|].
  destruct (String.eqb_spec (DecodeNodeKey k).2 "") as [Hid|Hid].
  - apply IH. intros k' v' Hin. apply (Hfail k' v'). apply elem_of_cons. by right.
  - rewrite (proj2 (proj2 (DeleteNode_effect now g _ kv))).
    + apply IH. intros k' v' Hin. apply (Hfail k' v'). apply elem_of_cons. by right.
    + apply (Hfail k v); [apply elem_of_cons; by left|done].
Qed.

Lemma deleteOrphanEdgesOf_sub now g items (kv : DB) :
  sub (BadgerEngine.deleteOrphanEdgesOf now g items kv) kv.
Proof.
  revert kv. induction items as [|[k v] items IH]; intros kv; simpl; [apply sub_refl|].
  eapply sub_trans; [apply IH|].
  destruct (String.eqb _ ""); [apply sub_refl|apply DeleteEdge_effect].
Qed.

Lemma deleteOrphanEdgesOf_gone now g items (kv : DB) k v :
  (k, v) ∈ items -> (DecodeEdgeKey k).2 <> "" ->
  is_Ok (BadgerTransaction.GetEdge now (BadgerEngine.deleteOrphanEdgesOf now g items kv) g
           (DecodeEdgeKey k).2) = false.
Proof.
  intros Hin Hid. revert kv.
  induction items as [|[k0 v0] items IH]; intros kv; [by apply elem_of_nil in Hin|].
  apply elem_of_cons in Hin as [Heq|Hin]; [|simpl; apply (IH Hin)].
  injection Heq as <- <-. simpl.
  eapply GetEdge_sub_fails; [apply deleteOrphanEdgesOf_sub|].
  destruct (String.eqb_spec (DecodeEdgeKey k).2 "") as [|_]; [done|].
  apply DeleteEdge_effect.
Qed.

Lemma deleteOrphanEdgesOf_noop now g items (kv : DB) :
  (forall k v, (k, v) ∈ items -> (DecodeEdgeKey k).2 <> "" ->
     is_Ok (BadgerTransaction.GetEdge now kv g (DecodeEdgeKey k).2) = false) ->
  BadgerEngine.deleteOrphanEdgesOf now g items kv = kv.
Proof.
  induction items as [|[k v] items IH]; intros Hfail; simpl; [done|].
  destruct (String.eqb_spec (DecodeEdgeKey k).2 "") as [Hid|Hid].
  - apply IH. intros k' v' Hin. apply (Hfail k' v'). apply elem_of_cons. by right.
  - rewrite (proj2 (proj2 (DeleteEdge_effect now g _ kv))).
    + apply IH. intros k' v' Hin. apply (Hfail k' v'). apply elem_of_cons. by right.
    + apply (Hfail k v); [apply elem_of_cons; by left|done].
Qed.

(** A second [DeleteGraph] finds nothing left to delete. *)
Lemma DeleteGraph_twice now g (kv : DB) :
  let tx := fun kv : DB =>
    Txn_Delete (EncodeGraphKey g)
      (BadgerEngine.deleteOrphanEdgesOf now g
         (Iterate now
            (BadgerEngine.deleteNodesOf now g
               (Iterate now kv (CreateNodeIteratorPrefix g)) kv)
            (CreateEdgeIteratorPrefix g))
         (BadgerEngine.deleteNodesOf now g
            (Iterate now kv (CreateNodeIteratorPrefix g)) kv)) in
  tx (tx kv) = tx kv.
Proof.
  intros tx.
  set (kv1 := BadgerEngine.deleteNodesOf now g
                (Iterate now kv (CreateNodeIteratorPrefix g)) kv).
  set (kv2 := BadgerEngine.deleteOrphanEdgesOf now g
                (Iterate now kv1 (CreateEdgeIteratorPrefix g)) kv1).
  set (kv3 := Txn_Delete (EncodeGraphKey g) kv2).
  assert (Hrun : tx kv = kv3) by reflexivity.
  assert (H1 : sub kv1 kv) by apply deleteNodesOf_sub.
  assert (H2 : sub kv2 kv1) by apply deleteOrphanEdgesOf_sub.
  assert (H3 : sub kv3 kv2) by apply sub_delete.
  rewrite Hrun. unfold tx.
  rewrite (deleteNodesOf_noop now g _ kv3).
  2:{ intros k v Hin Hid.
      apply (GetNode_sub_fails now kv3 kv1); [by eapply sub_trans|].
      apply (deleteNodesOf_gone now g _ kv k v); [|done].
      eapply Iterate_sub; [|exact Hin]. eauto using sub_trans. }
  rewrite (deleteOrphanEdgesOf_noop now g _ kv3).
  2:{ intros k v Hin Hid.
      apply (GetEdge_sub_fails now kv3 kv2); [done|].
      apply (deleteOrphanEdgesOf_gone now g _ kv1 k v); [|done].
      eapply Iterate_sub; [|exact Hin]. eauto using sub_trans. }
  apply delete_absent. apply lookup_delete_eq.
Qed.

(** C9, as amended.  With the database open, [DeleteGraph] returns success
    whether or not the graph exists; when the graph has no record and no
    node or edge key is live under its prefixes, the store is left
    unchanged; and deleting a graph once more, right after deleting it,
    succeeds and leaves the store as the first deletion left it.
    [DeleteNode] and [DeleteEdge] on an ID that cannot be fetched return
    an error and leave the store unchanged. *)
Theorem delete_absent_graph_succeeds_node_edge_fail
    (now : time.Time) (e : BadgerEngine.t) (kv : DB) (g : GraphID) :
  BadgerEngine.db e = Some kv ->
  (BadgerEngine.DeleteGraph now e g).1 = Ok tt /\
  (kv !! EncodeGraphKey g = None ->
   Iterate now kv (CreateNodeIteratorPrefix g) = [] ->
   Iterate now kv (CreateEdgeIteratorPrefix g) = [] ->
   (BadgerEngine.DeleteGraph now e g).2 = e) /\
  BadgerEngine.DeleteGraph now (BadgerEngine.DeleteGraph now e g).2 g
    = (Ok tt, (BadgerEngine.DeleteGraph now e g).2) /\
  (forall n, is_Ok (BadgerEngine.GetNode now e g n) = false ->
     exists m, BadgerEngine.DeleteNode now e g n = (Err m, e)) /\
  (forall x, is_Ok (BadgerEngine.GetEdge now e g x) = false ->
     exists m, BadgerEngine.DeleteEdge now e g x = (Err m, e)).
Proof.
  intros Hdb. destruct e as [d]. simpl in Hdb. subst d.
  split; [reflexivity|]. split; [|split; [|split]].
  - intros Hg Hn He.
    unfold BadgerEngine.DeleteGraph, BadgerEngine.update, Update. simpl.
    rewrite Hn. simpl. rewrite He. simpl. by rewrite delete_absent.
  - unfold BadgerEngine.DeleteGraph, BadgerEngine.update, Update.
    cbn [BadgerEngine.db snd]. do 3 f_equal. apply (DeleteGraph_twice now g kv).
  - intros n Hn.
    unfold BadgerEngine.GetNode, BadgerEngine.view, View in Hn. simpl in Hn.
    unfold BadgerEngine.DeleteNode, BadgerEngine.update, Update,
      BadgerTransaction.DeleteNode. simpl.
    destruct (BadgerTransaction.GetNode now kv g n); [discriminate Hn|eauto].
  - intros x Hx.
    unfold BadgerEngine.GetEdge, BadgerEngine.view, View in Hx. simpl in Hx.
    unfold BadgerEngine.DeleteEdge, BadgerEngine.update, Update,
      BadgerTransaction.DeleteEdge. simpl.
    destruct (BadgerTransaction.GetEdge now kv g x); [discriminate Hx|eauto].
Qed.

Lemma delete_absent_graph_succeeds_node_edge_fail_witness :
  BadgerEngine.db Samples.chain = Some (Samples.storeOf Samples.chain) /\
  (BadgerEngine.DeleteGraph 0 Samples.chain "h").1 = Ok tt.
Proof.
  assert (H : BadgerEngine.db Samples.chain = Some (Samples.storeOf Samples.chain))
    by (vm_compute; reflexivity).
  split; [exact H|].
  exact (proj1 (delete_absent_graph_succeeds_node_edge_fail 0 Samples.chain
                  (Samples.storeOf Samples.chain) "h" H)).
Defined.

(** C9, the claim as stated fails: graph [g] has no record, yet deleting
    it removes the node stored under its ID. *)
Lemma delete_graph_without_record_changes_store :
  BadgerEngine.GetGraph 0 Samples.graphless "g" = Err "graph not found: g" /\
  (BadgerEngine.DeleteGraph 0 Samples.graphless "g").1 = Ok tt /\
  (BadgerEngine.DeleteGraph 0 Samples.graphless "g").2 <> Samples.graphless /\
  BadgerEngine.GetNode 0 Samples.graphless "g" "x" = Ok (Samples.node "x" "A") /\
  BadgerEngine.GetNode 0 (BadgerEngine.DeleteGraph 0 Samples.graphless "g").2 "g" "x"
    = Err "node not found: x".
Proof.
  split; [vm_compute; reflexivity|]. split; [vm_compute; reflexivity|].
  split; [|split; vm_compute; reflexivity].
  intros H. apply (f_equal (fun e => BadgerEngine.GetNode 0 e "g" "x")) in H.
  vm_compute in H. discriminate H.
Qed.

(** ** Cycle enumeration *)

Lemma filterEdgeTypes_filter edgeTypes edges :
  GraphAnalyzer.filterEdgeTypes edgeTypes edges = List.filter (passes edgeTypes) edges.
Proof.
  unfold GraphAnalyzer.filterEdgeTypes, passes. destruct edgeTypes; [|reflexivity].
  induction edges as [|ed edges IH]; simpl; [reflexivity|]. by rewrite <- IH.
Qed.

Lemma flat_map_nonempty {A B} (f : A -> list B) (l : list A) (x : A) :
  x ∈ l -> f x <> [] -> flat_map f l <> [].
Proof.
  intros Hin Hx Hnil. destruct (f x) as [|y ys] eqn:Hfx; [done|].
  assert (Hy : In y (flat_map f l)).
  { apply in_flat_map. exists x. split; [by apply list_elem_of_In|].
    rewrite Hfx. by left. }
  rewrite Hnil in Hy. done.
Qed.

Lemma blocked_measure (ids blocked : gset NodeID) (cur : NodeID) (fuel : nat) :
  cur ∈ ids -> cur ∉ blocked -> (size (ids ∖ blocked) <= S fuel)%nat ->
  (size (ids ∖ ({[cur]} ∪ blocked)) <= fuel)%nat.
Proof.
  intros Hin Hnb Hsize.
  assert (Heq : ids ∖ blocked = {[cur]} ∪ ids ∖ ({[cur]} ∪ blocked)).
  { apply set_eq. intros x. destruct (decide (x = cur)); set_solver. }
  rewrite Heq, size_union, size_singleton in Hsize by set_solver. lia.
Qed.

Lemma size_list_to_set_le (l : list NodeID) :
  (size (list_to_set l : gset NodeID) <= length l)%nat.
Proof.
  induction l as [|x l IH].
  - rewrite list_to_set_nil, size_empty. simpl. lia.
  - rewrite list_to_set_cons, size_union_alt, size_singleton.
    assert (Hsub : list_to_set l ∖ {[x]} ⊆ (list_to_set l : gset NodeID)) by set_solver.
    apply subseteq_size in Hsub. simpl. lia.
Qed.

Lemma walk_app R (l1 : list NodeID) x l2 :
  walk R (l1 ++ x :: l2) <-> walk R (l1 ++ [x]) /\ walk R (x :: l2).
Proof.
  induction l1 as [|a l1 IH]; simpl.
  - tauto.
  - destruct l1 as [|b l1]; simpl in *; tauto.
Qed.

Lemma walk_rotate R (front back : list NodeID) x y :
  walk R ((x :: front) ++ (y :: back) ++ [x]) ->
  walk R ((y :: back) ++ (x :: front) ++ [y]).
Proof.
  intros H. apply (walk_app R (x :: front) y (back ++ [x])) in H as [H1 H2].
  apply (walk_app R (y :: back) x (front ++ [y])). split; [exact H2|exact H1].
Qed.

Section Cycles.
Variables (now : time.Time) (e : BadgerEngine.t) (g : GraphID)
          (options : TraversalOptions) (ids : gset NodeID).

Local Abbreviation edgeTypes := (EdgeTypes options).
Local Abbreviation succs := (successors now e g (EdgeTypes options)).

Hypothesis Hopen : forall u, exists out, BadgerEngine.GetOutgoingEdges now e g u = Ok out.
Hypothesis Hclosed : forall u ed, u ∈ ids -> ed ∈ succs u -> edge_ToNodeID ed ∈ ids.

(** [findCyclesRecursive] computes [cyclesSpec] and appends it to the
    shared list, whenever the fuel covers the nodes not yet blocked. *)
Lemma findCyclesRecursive_refines fuel start cur path blocked allCycles :
  cur ∈ ids -> cur ∉ blocked -> (size (ids ∖ blocked) <= fuel)%nat ->
  GraphAnalyzer.findCyclesRecursive fuel now e g start cur path blocked allCycles
    (Some options)
  = Some (Ok ((allCycles ++ cyclesSpec fuel now e g edgeTypes start cur path blocked)%list,
              cyclesSpec fuel now e g edgeTypes start cur path blocked)).
Proof.
  revert cur path blocked allCycles.
  induction fuel as [|fuel IH]; intros cur path blocked allCycles Hin Hnb Hsize.
  - exfalso. assert (Hempty : ids ∖ blocked ≡ ∅) by (apply size_empty_iff; lia).
    set_solver.
  - simpl. destruct (Hopen cur) as [out Hout].
    assert (Hsuccs : succs cur = GraphAnalyzer.filterEdgeTypes edgeTypes out)
      by (unfold successors; by rewrite Hout).
    rewrite Hout, Hsuccs.
    assert (Hto : forall ed, ed ∈ GraphAnalyzer.filterEdgeTypes edgeTypes out ->
              edge_ToNodeID ed ∈ ids).
    { intros ed Hed. apply (Hclosed cur); [done|by rewrite Hsuccs]. }
    clear Hsuccs Hout.
    pose proof (blocked_measure _ _ _ _ Hin Hnb Hsize) as Hsize'.
    generalize dependent (GraphAnalyzer.filterEdgeTypes edgeTypes out).
    intros connected Hto.
    enough (Hloop : forall all new,
      GraphAnalyzer.cycleEdges
        (fun neighbor newPath allCycles0 =>
           GraphAnalyzer.findCyclesRecursive fuel now e g start neighbor newPath
             ({[cur]} ∪ blocked) allCycles0 (Some options))
        start path ({[cur]} ∪ blocked) connected all new
      = Some (Ok ((all ++ flat_map
                     (fun ed =>
                        if String.eqb (edge_ToNodeID ed) start then [(path ++ [start])%list]
                        else if bool_decide (edge_ToNodeID ed ∈ {[cur]} ∪ blocked) then []
                        else cyclesSpec fuel now e g edgeTypes start (edge_ToNodeID ed)
                               (path ++ [edge_ToNodeID ed])%list ({[cur]} ∪ blocked))
                     connected)%list,
                  (new ++ flat_map
                     (fun ed =>
                        if String.eqb (edge_ToNodeID ed) start then [(path ++ [start])%list]
                        else if bool_decide (edge_ToNodeID ed ∈ {[cur]} ∪ blocked) then []
                        else cyclesSpec fuel now e g edgeTypes start (edge_ToNodeID ed)
                               (path ++ [edge_ToNodeID ed])%list ({[cur]} ∪ blocked))
                     connected)%list))).
    { apply (Hloop allCycles []). }
    induction connected as [|ed connected IHc]; intros all new; simpl.
    + by rewrite !app_nil_r.
    + assert (Hto' : forall ed0, ed0 ∈ connected -> edge_ToNodeID ed0 ∈ ids)
        by (intros ed0 H0; apply Hto; by apply elem_of_cons; right).
      destruct (String.eqb (edge_ToNodeID ed) start).
      * rewrite (IHc Hto'). by rewrite <- !app_assoc.
      * destruct (bool_decide (edge_ToNodeID ed ∈ {[cur]} ∪ blocked)) eqn:Hb; simpl.
        -- apply (IHc Hto').
        -- apply bool_decide_eq_false in Hb.
           rewrite IH; [|apply Hto; apply elem_of_cons; by left|done|done].
           rewrite (IHc Hto'). by rewrite <- !app_assoc.
Qed.

(** The arcs of the graph, seen from the nodes of [ids]. *)
Variable R : relation NodeID.
Hypothesis Hsound : forall u ed, u ∈ ids -> ed ∈ succs u -> R u (edge_ToNodeID ed).
Hypothesis Hcomplete :
  forall u v, R u v -> u ∈ ids /\ exists ed, ed ∈ succs u /\ edge_ToNodeID ed = v.

Lemma cyclesSpec_sound fuel start cur path blocked c :
  cur ∈ ids -> rtc R start cur ->
  c ∈ cyclesSpec fuel now e g edgeTypes start cur path blocked ->
  tc R start start.
Proof.
  revert cur path blocked.
  induction fuel as [|fuel IH]; intros cur path blocked Hin Hreach Hc; simpl in Hc.
  - by apply elem_of_nil in Hc.
  - apply list_elem_of_In, in_flat_map in Hc as (ed & Hed & Hc).
    apply list_elem_of_In in Hed.
    pose proof (Hsound cur ed Hin Hed) as Harc.
    destruct (String.eqb (edge_ToNodeID ed) start) eqn:Hstart.
    + apply String.eqb_eq in Hstart. rewrite Hstart in Harc.
      eapply tc_rtc_l; [exact Hreach|by apply tc_once].
    + destruct (bool_decide (edge_ToNodeID ed ∈ {[cur]} ∪ blocked)); [done|].
      eapply (IH (edge_ToNodeID ed)); [by eapply Hclosed| |by apply list_elem_of_In].
      eapply rtc_r; eauto.
Qed.

(** Every cycle found is elementary: the path of the search never holds
    a node twice, because the nodes on it are blocked. *)
Lemma cyclesSpec_elementary fuel start cur pre blocked c :
  cur ∈ ids -> head (pre ++ [cur]) = Some start -> NoDup (pre ++ [cur]) ->
  (forall x, x ∈ pre -> x ∈ blocked) -> walk R (pre ++ [cur]) ->
  c ∈ cyclesSpec fuel now e g edgeTypes start cur (pre ++ [cur]) blocked ->
  elementary_cycle R c.
Proof.
  revert cur pre blocked.
  induction fuel as [|fuel IH]; intros cur pre blocked Hin Hhead Hnodup Hpre Hwalk Hc;
    simpl in Hc.
  - by apply elem_of_nil in Hc.
  - apply list_elem_of_In, in_flat_map in Hc as (ed & Hed & Hc).
    apply list_elem_of_In in Hed.
    pose proof (Hsound cur ed Hin Hed) as Harc.
    assert (Hstep : walk R ((pre ++ [cur]) ++ [edge_ToNodeID ed])).
    { rewrite <- app_assoc. apply walk_app. split; [exact Hwalk|]. by simpl. }
    destruct (String.eqb (edge_ToNodeID ed) start) eqn:Hstart.
    + apply String.eqb_eq in Hstart. rewrite Hstart in Hstep.
      apply list_elem_of_In, list_elem_of_singleton in Hc as ->.
      destruct (pre ++ [cur])%list as [|x body] eqn:Hpath; [done|].
      injection Hhead as ->. by exists start, body.
    + destruct (bool_decide (edge_ToNodeID ed ∈ {[cur]} ∪ blocked)) eqn:Hblocked;
        [done|].
      apply bool_decide_eq_false_1 in Hblocked.
      apply (IH (edge_ToNodeID ed) (pre ++ [cur])%list ({[cur]} ∪ blocked)).
      * by eapply Hclosed.
      * destruct pre; exact Hhead.
      * apply NoDup_app. split; [exact Hnodup|]. split; [|apply NoDup_singleton].
        intros x Hx Hx'. apply list_elem_of_singleton in Hx' as ->.
        apply Hblocked. apply elem_of_app in Hx as [Hx|Hx].
        -- apply elem_of_union_r. by apply Hpre.
        -- apply list_elem_of_singleton in Hx as ->. set_solver.
      * intros x Hx. apply elem_of_app in Hx as [Hx|Hx].
        -- apply elem_of_union_r. by apply Hpre.
        -- apply list_elem_of_singleton in Hx as ->. set_solver.
      * exact Hstep.
      * by apply list_elem_of_In.
Qed.

Lemma path_avoiding_cut B u v w :
  path_avoiding R B u v ->
  path_avoiding R ({[w]} ∪ B) u v \/ path_avoiding R ({[w]} ∪ B) w v.
Proof.
  induction 1 as [u v Huv|u x v Hux Hx Hpath IH].
  - left. by apply pa_one.
  - destruct IH as [IH|IH]; [|by right].
    destruct (decide (x = w)) as [->|Hne]; [by right|].
    left. eapply pa_step; [exact Hux| |exact IH]. set_solver.
Qed.

Lemma path_avoiding_self B u v :
  path_avoiding R B u v -> path_avoiding R ({[u]} ∪ B) u v.
Proof. intros H. by destruct (path_avoiding_cut B u v u H). Qed.

Lemma tc_path_avoiding u v : tc R u v -> path_avoiding R ∅ u v.
Proof.
  induction 1 as [u v Huv|u w v Huw Hwv IH].
  - by apply pa_one.
  - eapply pa_step; [exact Huw|set_solver|exact IH].
Qed.

Lemma cyclesSpec_complete fuel start cur path blocked :
  cur ∈ ids -> cur ∉ blocked -> (size (ids ∖ blocked) <= fuel)%nat ->
  path_avoiding R ({[cur]} ∪ blocked) cur start ->
  cyclesSpec fuel now e g edgeTypes start cur path blocked <> [].
Proof.
  revert cur path blocked.
  induction fuel as [|fuel IH]; intros cur path blocked Hin Hnb Hsize Hpath.
  - exfalso. assert (Hempty : ids ∖ blocked ≡ ∅) by (apply size_empty_iff; lia).
    set_solver.
  - simpl.
    assert (Hstep : exists w, R cur w /\
              (w = start \/
               ((w ∉ {[cur]} ∪ blocked) /\ path_avoiding R ({[cur]} ∪ blocked) w start))).
    { inversion Hpath as [? ? Hone|? w ? Hcw Hw Hrest]; subst.
      - exists start. split; [done|by left].
      - exists w. split; [done|]. by right. }
    destruct Hstep as (w & Hcw & Hcase).
    destruct (Hcomplete cur w Hcw) as (_ & ed & Hed & Hto).
    apply (flat_map_nonempty _ _ ed Hed).
    destruct (String.eqb (edge_ToNodeID ed) start) eqn:Hstart; [done|].
    apply String.eqb_neq in Hstart.
    destruct Hcase as [->|[Hw Hrest]]; [done|].
    rewrite Hto. rewrite bool_decide_eq_false_2 by done.
    apply IH.
    + rewrite <- Hto. by eapply Hclosed.
    + done.
    + by apply blocked_measure.
    + by apply path_avoiding_self.
Qed.

End Cycles.

(** *** The order on node IDs and the normal form of a cycle *)

Lemma ascii_compare_refl (a : ascii) : Ascii.compare a a = Eq.
Proof. unfold Ascii.compare. apply N.compare_refl. Qed.

Lemma ascii_compare_lt_trans (a b c : ascii) :
  Ascii.compare a b = Lt -> Ascii.compare b c = Lt -> Ascii.compare a c = Lt.
Proof.
  unfold Ascii.compare. rewrite !N.compare_lt_iff. lia.
Qed.

Lemma string_compare_refl (s : string) : String.compare s s = Eq.
Proof.
  induction s as [|a s IH]; simpl; [reflexivity|]. by rewrite ascii_compare_refl.
Qed.

Lemma string_compare_lt_trans (a b c : string) :
  String.compare a b = Lt -> String.compare b c = Lt -> String.compare a c = Lt.
Proof.
  revert b c. induction a as [|x a IH]; intros [|y b] [|z c]; simpl; try done.
  destruct (Ascii.compare x y) eqn:Hxy; try done;
    destruct (Ascii.compare y z) eqn:Hyz; try done; intros Hab Hbc.
  - apply Ascii.compare_eq_iff in Hxy, Hyz. subst.
    rewrite ascii_compare_refl. by eapply IH.
  - apply Ascii.compare_eq_iff in Hxy. subst. by rewrite Hyz.
  - apply Ascii.compare_eq_iff in Hyz. subst. by rewrite Hxy.
  - by rewrite (ascii_compare_lt_trans _ _ _ Hxy Hyz).
Qed.

Lemma lt_irrefl (x : string) : GoStrings.lt x x = false.
Proof. unfold GoStrings.lt. by rewrite string_compare_refl. Qed.

Lemma lt_trans (a b c : string) :
  GoStrings.lt a b = true -> GoStrings.lt b c = true -> GoStrings.lt a c = true.
Proof.
  unfold GoStrings.lt. intros Hab Hbc.
  destruct (String.compare a b) eqn:H1; try done.
  destruct (String.compare b c) eqn:H2; try done.
  by rewrite (string_compare_lt_trans _ _ _ H1 H2).
Qed.

(** The index chosen by the loop of [normalizeCycle] holds a smallest ID. *)
Lemma minIndexLoop_min (l rest : list NodeID) (i m : nat) :
  drop i l = rest -> (m < i)%nat -> (i <= length l)%nat ->
  (forall j x, (j < i)%nat -> l !! j = Some x ->
     GoStrings.lt x (default "" (l !! m)) = false) ->
  (GraphAnalyzer.minIndexLoop l rest i m < length l)%nat /\
  (forall x, x ∈ l ->
     GoStrings.lt x (default "" (l !! GraphAnalyzer.minIndexLoop l rest i m)) = false).
Proof.
  unfold NodeID in *.
  revert i m. induction rest as [|y rest IH]; intros i m Hdrop Hm Hi Hmin; simpl.
  - assert (Hlen : (length l <= i)%nat).
    { apply (f_equal length) in Hdrop. rewrite length_drop in Hdrop. simpl in Hdrop. lia. }
    split; [lia|].
    intros x Hx. apply list_elem_of_lookup in Hx as [j Hj].
    eapply Hmin; [|exact Hj]. apply lookup_lt_Some in Hj. lia.
  - assert (Hy : l !! i = Some y).
    { pose proof (lookup_drop l i 0) as H0. rewrite Hdrop in H0. simpl in H0.
      by rewrite Nat.add_0_r in H0. }
    assert (Hdrop' : drop (S i) l = rest).
    { rewrite (drop_S _ _ _ Hy) in Hdrop. by injection Hdrop. }
    pose proof (lookup_lt_Some _ _ _ Hy) as Hlt. unfold NodeID in *.
    destruct (GoStrings.lt y (default "" (l !! m))) eqn:Hcmp.
    + apply IH; [done|lia|lia|].
      intros j x Hj Hjx. rewrite Hy. simpl.
      destruct (decide (j = i)) as [->|Hne].
      * rewrite Hy in Hjx. injection Hjx as <-. apply lt_irrefl.
      * destruct (GoStrings.lt x y) eqn:Hxy; [|done].
        rewrite <- (Hmin j x); [|lia|done]. symmetry. by eapply lt_trans.
    + apply IH; [done|lia|lia|].
      intros j x Hj Hjx.
      destruct (decide (j = i)) as [->|Hne].
      * rewrite Hy in Hjx. by injection Hjx as <-.
      * apply (Hmin j); [lia|done].
Qed.

Lemma normalizeCycle_min_first (raw : list NodeID) :
  forall x, x ∈ GraphAnalyzer.normalizeCycle raw ->
    GoStrings.lt x (default "" (head (GraphAnalyzer.normalizeCycle raw))) = false.
Proof.
  unfold GraphAnalyzer.normalizeCycle, NodeID in *.
  destruct (length raw <=? 1)%nat eqn:Hlen.
  - apply Nat.leb_le in Hlen. destruct raw as [|a [|b raw]]; simpl in *; try lia.
    + intros x Hx. by apply elem_of_nil in Hx.
    + intros x Hx. apply list_elem_of_singleton in Hx as ->. apply lt_irrefl.
  - apply Nat.leb_gt in Hlen.
    set (cn := take (length raw - 1) raw).
    assert (Hcn : (0 < length cn)%nat) by (subst cn; rewrite length_take; lia).
    destruct (minIndexLoop_min cn (drop 1 cn) 1%nat 0%nat) as [Hm Hmin];
      [done|lia|unfold NodeID in *; lia| |].
    { intros j x Hj Hjx. assert (j = 0)%nat as -> by lia. rewrite Hjx. simpl.
      apply lt_irrefl. }
    unfold NodeID in *.
    set (m := GraphAnalyzer.minIndexLoop cn (drop 1 cn) 1 0) in *.
    destruct (cn !! m) as [top|] eqn:Htop; [|apply lookup_ge_None in Htop; lia].
    assert (Hhead : head (drop m cn ++ take m cn) = Some top).
    { rewrite (drop_S _ _ _ Htop). reflexivity. }
    rewrite Hhead. simpl in *.
    assert (Hhead' : head ((drop m cn ++ take m cn) ++ [top]) = Some top).
    { rewrite (drop_S _ _ _ Htop). reflexivity. }
    rewrite Hhead'. simpl.
    intros x Hx. apply Hmin.
    rewrite !elem_of_app in Hx. destruct Hx as [[Hx|Hx]|Hx].
    + rewrite <- (take_drop m cn). apply elem_of_app. by right.
    + rewrite <- (take_drop m cn). apply elem_of_app. by left.
    + apply list_elem_of_singleton in Hx as ->. by eapply list_elem_of_lookup_2.
Qed.

(** *** The deduplication map *)

Lemma uniqueCycles_fold (l : list (list NodeID)) (m : gmap string (list NodeID)) k v :
  foldl (fun m cycle =>
           <[GraphAnalyzer.cycleToString (GraphAnalyzer.normalizeCycle cycle)
             := GraphAnalyzer.normalizeCycle cycle]> m) m l !! k = Some v ->
  m !! k = Some v \/
  (k = GraphAnalyzer.cycleToString v /\
   exists c, c ∈ l /\ v = GraphAnalyzer.normalizeCycle c).
Proof.
  revert m. induction l as [|c l IH]; intros m Hk; simpl in Hk; [by left|].
  apply IH in Hk as [Hk|(Hkey & c' & Hc' & Hv)].
  - apply lookup_insert_Some in Hk as [[<- <-]|[_ Hk]]; [|by left].
    right. split; [done|]. exists c. split; [apply elem_of_cons; by left|done].
  - right. split; [done|]. exists c'. split; [apply elem_of_cons; by right|done].
Qed.

Lemma uniqueCycles_spec (l : list (list NodeID)) k v :
  GraphAnalyzer.uniqueCycles l !! k = Some v ->
  k = GraphAnalyzer.cycleToString v /\
  exists c, c ∈ l /\ v = GraphAnalyzer.normalizeCycle c.
Proof.
  intros H. apply uniqueCycles_fold in H as [H|H]; [|done].
  by rewrite lookup_empty in H.
Qed.

Lemma uniqueCycles_fold_nonempty (l : list (list NodeID))
    (m : gmap string (list NodeID)) :
  m <> ∅ \/ l <> [] ->
  foldl (fun m cycle =>
           <[GraphAnalyzer.cycleToString (GraphAnalyzer.normalizeCycle cycle)
             := GraphAnalyzer.normalizeCycle cycle]> m) m l <> ∅.
Proof.
  revert m. induction l as [|c l IH]; intros m H; simpl.
  - by destruct H.
  - apply IH. left. apply insert_non_empty.
Qed.

Lemma uniqueCycles_empty (l : list (list NodeID)) :
  GraphAnalyzer.uniqueCycles l = ∅ <-> l = [].
Proof.
  split.
  - intros H. destruct l as [|c l]; [done|].
    exfalso. revert H. apply uniqueCycles_fold_nonempty. by right.
  - by intros ->.
Qed.

Lemma uniqueCycles_values_NoDup (l : list (list NodeID)) :
  NoDup ((map_to_list (GraphAnalyzer.uniqueCycles l)).*2).
Proof.
  apply NoDup_fmap_2_strong; [|apply NoDup_map_to_list].
  intros [k1 v1] [k2 v2] H1 H2 Heq. simpl in Heq. subst v2.
  apply elem_of_map_to_list in H1, H2.
  apply uniqueCycles_spec in H1 as [-> _]. apply uniqueCycles_spec in H2 as [-> _].
  reflexivity.
Qed.

Lemma flat_map_twice_nonempty {A B} (f : A -> list B) (l : list A) :
  flat_map (fun x => f x ++ f x)%list l <> [] <-> exists x, x ∈ l /\ f x <> [].
Proof.
  split.
  - intros H. induction l as [|x l IH]; simpl in H; [done|].
    destruct (f x) as [|y ys] eqn:Hfx.
    + simpl in H. destruct (IH H) as (x' & Hx' & Hne).
      exists x'. split; [apply elem_of_cons; by right|done].
    + exists x. split; [apply elem_of_cons; by left|by rewrite Hfx].
  - intros (x & Hx & Hne). apply (flat_map_nonempty _ _ x Hx).
    by destruct (f x).
Qed.

(** The loop of [FindAllCycles] over the start nodes. *)
Lemma cyclesFrom_refines now e g options (ids : gset NodeID) fuel :
  (forall u, exists out, BadgerEngine.GetOutgoingEdges now e g u = Ok out) ->
  (forall u ed, u ∈ ids -> ed ∈ successors now e g (EdgeTypes options) u ->
     edge_ToNodeID ed ∈ ids) ->
  (size ids <= fuel)%nat ->
  forall nodes allCycles,
    (forall nd, nd ∈ nodes -> node_ID nd ∈ ids) ->
    GraphAnalyzer.cyclesFrom fuel now e g (Some options) nodes allCycles
    = Some (Ok (allCycles ++
                flat_map
                  (fun nd =>
                     cyclesSpec fuel now e g (EdgeTypes options) (node_ID nd) (node_ID nd)
                       [node_ID nd] ∅
                     ++ cyclesSpec fuel now e g (EdgeTypes options) (node_ID nd)
                          (node_ID nd) [node_ID nd] ∅)
                  nodes)%list).
Proof.
  intros Hopen Hclosed Hsize nodes.
  induction nodes as [|nd nodes IH]; intros allCycles Hids; simpl.
  - by rewrite app_nil_r.
  - rewrite (findCyclesRecursive_refines now e g options ids Hopen Hclosed).
    + rewrite IH; [by rewrite <- !app_assoc|].
      intros nd' H'. apply Hids. apply elem_of_cons. by right.
    + apply Hids. apply elem_of_cons. by left.
    + set_solver.
    + by rewrite difference_empty_L.
Qed.

(** *** Normal forms *)

Lemma lt_total (a b : string) :
  GoStrings.lt a b = false -> GoStrings.lt b a = false -> a = b.
Proof.
  unfold GoStrings.lt. intros Hab Hba. apply String.compare_eq_iff.
  rewrite (String.compare_antisym a b) in Hab |- *.
  destruct (String.compare b a); simpl in *; done.
Qed.

Lemma normalizeCycle_elementary R (raw : list NodeID) :
  elementary_cycle R raw -> elementary_cycle R (GraphAnalyzer.normalizeCycle raw).
Proof.
  intros (x & body & -> & Hnodup & Hwalk).
  unfold GraphAnalyzer.normalizeCycle, NodeID in *.
  replace (length (x :: body ++ [x])) with (S (S (length body)))
    by (simpl; rewrite length_app; simpl; lia).
  simpl (_ <=? _)%nat. cbv iota.
  replace (take (S (S (length body)) - 1) (x :: body ++ [x])) with (x :: body).
  2:{ simpl. by rewrite take_app_length. }
  set (cn := x :: body) in *.
  destruct (minIndexLoop_min cn (drop 1 cn) 1%nat 0%nat) as [Hm _];
    [done|lia|simpl; lia| |].
  { intros j y Hj Hjy. assert (j = 0)%nat as -> by lia. rewrite Hjy. simpl.
    apply lt_irrefl. }
  unfold NodeID in *.
  set (m := GraphAnalyzer.minIndexLoop cn (drop 1 cn) 1 0) in *.
  destruct (cn !! m) as [top|] eqn:Htop; [|apply lookup_ge_None in Htop; lia].
  rewrite (drop_S _ _ _ Htop). simpl.
  exists top, (drop (S m) cn ++ take m cn)%list. split; [done|]. split.
  - rewrite app_comm_cons, <- (drop_S _ _ _ Htop).
    eapply NoDup_Permutation_proper; [|exact Hnodup].
    rewrite <- (take_drop m cn) at 3. apply Permutation_app_comm.
  - destruct m as [|m].
    + subst cn. simpl in *. injection Htop as <-. rewrite drop_0, app_nil_r. exact Hwalk.
    + change (body !! m = Some top) in Htop.
      assert (Hbody : body = (take m body ++ top :: drop (S m) body)%list)
        by (by rewrite <- (drop_S _ _ _ Htop), take_drop).
      change (drop (S (S m)) cn) with (drop (S m) body).
      change (take (S m) cn) with (x :: take m body).
      rewrite <- app_assoc.
      apply (walk_rotate R (take m body) (drop (S m) body) x top).
      rewrite Hbody in Hwalk. rewrite <- app_assoc in Hwalk. exact Hwalk.
Qed.

Lemma min_first_rotation_eq (c1 c2 : list NodeID) R :
  elementary_cycle R c1 -> elementary_cycle R c2 ->
  (forall x, x ∈ c1 -> GoStrings.lt x (default "" (head c1)) = false) ->
  (forall x, x ∈ c2 -> GoStrings.lt x (default "" (head c2)) = false) ->
  same_cycle c1 c2 -> c1 = c2.
Proof.
  intros (x1 & b1 & -> & Hnd1 & _) (x2 & b2 & -> & Hnd2 & _) Hmin1 Hmin2 [k Hk].
  simpl in Hmin1, Hmin2.
  assert (Ht : forall (x : string) b,
            take (length (x :: b ++ [x]) - 1) (x :: b ++ [x]) = x :: b).
  { intros x b. simpl. rewrite length_app. simpl.
    replace (length b + 1 - 0)%nat with (S (length b)) by lia.
    simpl. by rewrite take_app_length. }
  unfold NodeID in *. rewrite !Ht in Hk.
  assert (H21 : x2 ∈ x1 :: b1).
  { apply (elem_of_rotate _ k). rewrite <- Hk. apply elem_of_cons. by left. }
  assert (H12 : x1 ∈ x2 :: b2).
  { rewrite Hk. apply elem_of_rotate. apply elem_of_cons. by left. }
  assert (Heq : x1 = x2).
  { apply lt_total.
    - apply Hmin2. rewrite app_comm_cons. apply elem_of_app. by left.
    - apply Hmin1. rewrite app_comm_cons. apply elem_of_app. by left. }
  subst x2.
  assert (Hlook : (x1 :: b1) !! rotate_nat_add k 0 (length (x1 :: b1)) = Some x1).
  { rewrite <- lookup_rotate_r by (simpl; lia). by rewrite <- Hk. }
  assert (Hzero : rotate_nat_add k 0 (length (x1 :: b1)) = 0%nat).
  { eapply NoDup_lookup; [exact Hnd1|exact Hlook|done]. }
  assert (Hrot : rotate k (x1 :: b1) = x1 :: b1).
  { unfold rotate. unfold rotate_nat_add in Hzero.
    rewrite Z.add_0_r in Hzero.
    rewrite <- (Nat2Z.id (k mod length (x1 :: b1))).
    rewrite Nat2Z.inj_mod, Hzero. simpl. by rewrite app_nil_r. }
  rewrite Hrot in Hk. by injection Hk as ->.
Qed.

(** *** Coherent graphs *)

Lemma graph_coherent_spec now e g :
  graph_coherent now e g = true ->
  exists kv,
    BadgerEngine.db e = Some kv /\
    BadgerEngine.ListNodes now e g = Ok (nodesOf now e g) /\
    BadgerEngine.ListEdges now e g = Ok (edgesOf now e g) /\
    (forall ed, ed ∈ edgesOf now e g ->
       edge_FromNodeID ed ∈ node_ID <$> nodesOf now e g /\
       edge_ToNodeID ed ∈ node_ID <$> nodesOf now e g) /\
    (forall u edgeTypes ed, u ∈ node_ID <$> nodesOf now e g ->
       ed ∈ successors now e g edgeTypes u <->
       ed ∈ edgesOf now e g /\ edge_FromNodeID ed = u /\ passes edgeTypes ed = true).
Proof.
  unfold graph_coherent, nodesOf, edgesOf. intros H.
  destruct (BadgerEngine.db e) as [kv|] eqn:Hdb.
  2:{ unfold BadgerEngine.ListNodes in H. rewrite Hdb in H. discriminate H. }
  exists kv. split; [done|].
  destruct (BadgerEngine.ListNodes now e g) as [nodes|]; [|discriminate H].
  destruct (BadgerEngine.ListEdges now e g) as [edges|]; [|discriminate H].
  split; [done|]. split; [done|].
  apply andb_true_iff in H as [Hends Hout].
  rewrite forallb_forall in Hends. rewrite forallb_forall in Hout. split.
  - intros ed Hed. apply list_elem_of_In, Hends, andb_true_iff in Hed as [H1 H2].
    split; by eapply bool_decide_eq_true_1.
  - intros u edgeTypes ed Hu. specialize (Hout u (proj1 (list_elem_of_In _ _) Hu)).
    unfold successors.
    destruct (BadgerEngine.GetOutgoingEdges now e g u) as [out|]; [|discriminate Hout].
    apply andb_true_iff in Hout as [Hsub Hsup].
    rewrite forallb_forall in Hsub. rewrite forallb_forall in Hsup.
    rewrite filterEdgeTypes_filter, list_elem_of_In, filter_In, <- list_elem_of_In.
    split.
    + intros [Hin Hpass].
      apply list_elem_of_In, Hsub, andb_true_iff in Hin as [H1 H2].
      apply bool_decide_eq_true_1 in H1. apply String.eqb_eq in H2. done.
    + intros (Hin & Hfrom & Hpass). split; [|done].
      apply list_elem_of_In, Hsup, orb_true_iff in Hin as [Hne|Hin].
      * apply negb_true_iff, String.eqb_neq in Hne. done.
      * by eapply bool_decide_eq_true_1.
Qed.

(** X10.  On a coherent graph (the endpoints of every stored
    edge are stored nodes and [GetOutgoingEdges] returns, for every stored
    node, exactly the stored edges leaving it), with fuel for one more call
    than there are nodes, [FindAllCycles] and [HasCycles] return; the list
    of cycles is non-empty, and [HasCycles] is true, exactly when the graph
    restricted to the edges passing the filter has a directed cycle.  The
    list holds no cycle twice, nor two rotations of one cycle; each cycle
    in it is an elementary directed cycle of the restricted graph that
    starts with its smallest node ID, and is [normalizeCycle] of a cycle
    that [findCyclesRecursive] finds from a stored node. *)
Theorem has_cycles_iff_directed_cycle
    (now : time.Time) (e : BadgerEngine.t) (g : GraphID)
    (options : option TraversalOptions) (fuel : nat) :
  graph_coherent now e g = true ->
  (length (nodesOf now e g) < fuel)%nat ->
  let opts := default (mkOptions 0 [] [] DirectionForward None) options in
  let R := arc (edgesOf now e g) (EdgeTypes opts) in
  exists cycles,
    GraphAnalyzer.FindAllCycles fuel now e g options = Some (Ok cycles) /\
    GraphAnalyzer.HasCycles fuel now e g options
      = Some (Ok (0 <? length cycles)%nat) /\
    ((0 <? length cycles)%nat = true <->
     has_directed_cycle (edgesOf now e g) (EdgeTypes opts)) /\
    (cycles <> [] <-> has_directed_cycle (edgesOf now e g) (EdgeTypes opts)) /\
    NoDup cycles /\
    (forall c1 c2, c1 ∈ cycles -> c2 ∈ cycles -> same_cycle c1 c2 -> c1 = c2) /\
    (forall c, c ∈ cycles ->
       elementary_cycle R c /\
       (forall x, x ∈ c -> GoStrings.lt x (default "" (head c)) = false) /\
       exists nd raw all found,
         nd ∈ nodesOf now e g /\
         GraphAnalyzer.findCyclesRecursive fuel now e g (node_ID nd) (node_ID nd)
           [node_ID nd] ∅ [] (Some opts) = Some (Ok (all, found)) /\
         raw ∈ found /\
         c = GraphAnalyzer.normalizeCycle raw).
Proof.
  intros Hcoh Hfuel opts R.
  set (edgeTypes := EdgeTypes opts) in *.
  destruct (graph_coherent_spec _ _ _ Hcoh) as (kv & Hdb & Hnodes & Hedges & Hends & Hsucc).
  set (nodes := nodesOf now e g) in *. set (edges := edgesOf now e g) in *.
  set (ids := list_to_set (node_ID <$> nodes) : gset NodeID).
  assert (Hids : forall u, u ∈ ids <-> u ∈ node_ID <$> nodes)
    by (intros u; apply elem_of_list_to_set).
  assert (Hopen : forall u, exists out, BadgerEngine.GetOutgoingEdges now e g u = Ok out).
  { intros u. eexists. by eapply GetOutgoingEdges_open. }
  assert (Hclosed : forall u ed, u ∈ ids -> ed ∈ successors now e g edgeTypes u ->
            edge_ToNodeID ed ∈ ids).
  { intros u ed Hu Hed. apply Hids in Hu. apply (Hsucc u edgeTypes ed Hu) in Hed.
    apply Hids, Hends. tauto. }
  assert (Hsound : forall u ed, u ∈ ids -> ed ∈ successors now e g edgeTypes u ->
            arc edges edgeTypes u (edge_ToNodeID ed)).
  { intros u ed Hu Hed. apply Hids in Hu. apply (Hsucc u edgeTypes ed Hu) in Hed.
    exists ed. tauto. }
  assert (Hcomplete : forall u v, arc edges edgeTypes u v ->
            u ∈ ids /\ exists ed, ed ∈ successors now e g edgeTypes u /\ edge_ToNodeID ed = v).
  { intros u v (ed & Hed & Hpass & Hfrom & Hto).
    assert (Hu : u ∈ node_ID <$> nodes) by (rewrite <- Hfrom; by apply Hends).
    split; [by apply Hids|]. exists ed. split; [|done]. by apply (Hsucc u edgeTypes ed Hu). }
  assert (Hsize : (size ids <= fuel)%nat).
  { pose proof (size_list_to_set_le (node_ID <$> nodes)) as Hle.
    rewrite length_fmap in Hle. fold ids in Hle. unfold NodeID in *. lia. }
  set (raws := fun nd : Node =>
         cyclesSpec fuel now e g edgeTypes (node_ID nd) (node_ID nd) [node_ID nd] ∅).
  set (all := flat_map (fun nd => raws nd ++ raws nd)%list nodes).
  assert (Hfind : GraphAnalyzer.FindAllCycles fuel now e g options
                  = Some (Ok ((map_to_list (GraphAnalyzer.uniqueCycles all)).*2))).
  { unfold GraphAnalyzer.FindAllCycles. fold opts. rewrite Hnodes.
    rewrite (cyclesFrom_refines now e g opts ids fuel Hopen Hclosed Hsize).
    - reflexivity.
    - intros nd Hnd. apply Hids. apply list_elem_of_fmap. by exists nd. }
  assert (Hall : all <> [] <-> has_directed_cycle edges edgeTypes).
  { unfold all. rewrite flat_map_twice_nonempty. split.
    - intros (nd & Hnd & Hne). exists (node_ID nd).
      destruct (raws nd) as [|c cs] eqn:Hraws; [done|].
      eapply (cyclesSpec_sound now e g opts ids Hclosed R Hsound
                fuel (node_ID nd) (node_ID nd) [node_ID nd] ∅ c).
      + apply Hids. apply list_elem_of_fmap. by exists nd.
      + apply rtc_refl.
      + fold edgeTypes. fold (raws nd). rewrite Hraws. apply elem_of_cons. by left.
    - intros (u & Hcycle).
      assert (Hu : u ∈ ids).
      { inversion Hcycle as [? ? Harc|? w ? Harc]; subst; by apply Hcomplete in Harc as [? _]. }
      pose proof Hu as Hu'. apply Hids, list_elem_of_fmap in Hu' as (nd & -> & Hnd).
      exists nd. split; [done|].
      apply (cyclesSpec_complete now e g opts ids Hopen Hclosed
               R Hsound Hcomplete).
      + done.
      + set_solver.
      + by rewrite difference_empty_L.
      + apply (path_avoiding_self now e g opts ids Hopen Hclosed
                 R Hsound Hcomplete).
        by apply (tc_path_avoiding now e g opts ids Hopen Hclosed
                    R Hsound Hcomplete). }
  assert (Hcycles : (map_to_list (GraphAnalyzer.uniqueCycles all)).*2 <> [] <-> all <> []).
  { split; intros H Hc; apply H.
    - apply uniqueCycles_empty in Hc. by rewrite Hc, map_to_list_empty.
    - apply fmap_nil_inv, map_to_list_empty_iff in Hc. by apply uniqueCycles_empty. }
  assert (Hnormal : forall c, c ∈ (map_to_list (GraphAnalyzer.uniqueCycles all)).*2 ->
            exists nd raw, nd ∈ nodes /\ raw ∈ raws nd /\
                           c = GraphAnalyzer.normalizeCycle raw).
  { intros c Hc. apply list_elem_of_fmap in Hc as ([k v] & -> & Hkv). simpl.
    apply elem_of_map_to_list, uniqueCycles_spec in Hkv as (_ & raw & Hraw & ->).
    apply list_elem_of_In, in_flat_map in Hraw as (nd & Hnd & Hraw).
    exists nd, raw. split; [by apply list_elem_of_In|]. split; [|done].
    apply list_elem_of_In. apply in_app_or in Hraw. tauto. }
  assert (Hshape : forall c, c ∈ (map_to_list (GraphAnalyzer.uniqueCycles all)).*2 ->
            elementary_cycle R c /\
            (forall x, x ∈ c -> GoStrings.lt x (default "" (head c)) = false)).
  { intros c Hc. destruct (Hnormal c Hc) as (nd & raw & Hnd & Hraw & ->).
    split; [|apply normalizeCycle_min_first].
    apply normalizeCycle_elementary.
    apply (cyclesSpec_elementary now e g opts ids Hopen Hclosed R Hsound Hcomplete fuel
             (node_ID nd) (node_ID nd) [] ∅ raw).
    - apply Hids. apply list_elem_of_fmap. by exists nd.
    - done.
    - apply NoDup_singleton.
    - intros x Hx. by apply elem_of_nil in Hx.
    - by simpl.
    - exact Hraw. }
  exists ((map_to_list (GraphAnalyzer.uniqueCycles all)).*2).
  split; [exact Hfind|]. split; [|split; [|split; [|split; [|split]]]].
  - unfold GraphAnalyzer.HasCycles. by rewrite Hfind.
  - rewrite <- Hall, <- Hcycles.
    destruct ((map_to_list (GraphAnalyzer.uniqueCycles all)).*2); simpl; split;
      congruence || done.
  - by rewrite Hcycles.
  - apply uniqueCycles_values_NoDup.
  - intros c1 c2 Hc1 Hc2. destruct (Hshape c1 Hc1), (Hshape c2 Hc2).
    by apply (min_first_rotation_eq c1 c2 R).
  - intros c Hc. destruct (Hshape c Hc) as [Helem Hmin].
    split; [exact Helem|]. split; [exact Hmin|].
    destruct (Hnormal c Hc) as (nd & raw & Hnd & Hraw & ->).
    exists nd, raw. eexists _, _. split; [exact Hnd|]. split; [|by split].
    apply (findCyclesRecursive_refines now e g opts ids Hopen Hclosed).
    + apply Hids. apply list_elem_of_fmap. by exists nd.
    + set_solver.
    + by rewrite difference_empty_L.
Qed.

Lemma has_cycles_iff_directed_cycle_witness :
  graph_coherent 0 Samples.ring "g" = true /\
  (length (nodesOf 0%Z Samples.ring "g") < 5)%nat /\
  exists cycles,
    GraphAnalyzer.FindAllCycles 5 0 Samples.ring "g" None = Some (Ok cycles) /\
    (cycles <> [] <-> has_directed_cycle (edgesOf 0 Samples.ring "g") []).
Proof.
  assert (H1 : graph_coherent 0 Samples.ring "g" = true) by (vm_compute; reflexivity).
  assert (H2 : (length (nodesOf 0%Z Samples.ring "g") < 5)%nat) by (vm_compute; lia).
  split; [exact H1|]. split; [exact H2|].
  destruct (has_cycles_iff_directed_cycle 0 Samples.ring "g" None 5 H1 H2)
    as (cycles & Hfind & _ & _ & Hnonempty & _).
  exists cycles. split; [exact Hfind|exact Hnonempty].
Defined.

(** On the ring, both cycles are found once each, and only the ring
    itself when the search is restricted to [calls] edges. *)
Example cycles_of_ring :
  GraphAnalyzer.FindAllCycles 5 0 Samples.ring "g" None
    = Some (Ok [["a"; "b"; "c"; "a"]; ["a"; "b"; "a"]]) /\
  GraphAnalyzer.FindAllCycles 5 0 Samples.ring "g"
    (Some (mkOptions 0 ["calls"] [] DirectionForward None))
    = Some (Ok [["a"; "b"; "c"; "a"]]) /\
  GraphAnalyzer.HasCycles 4 0 Samples.chain "g" None = Some (Ok false).
Proof. split; [|split]; vm_compute; reflexivity. Qed.

(** C6.  [HasCycles] reports a cycle on a graph that has none.  Edge [e]
    is created from [a] to [b] and created again from [c] to [a];
    [CreateEdge] leaves the adjacency entry [ni:out:g:a:e] of the first
    write in place.  The only stored edge runs from [c] to [a], so the
    graph has no directed cycle, but [GetOutgoingEdges] returns that edge
    for [a], [findCyclesRecursive] takes its target to be a neighbour of
    [a] without looking at its source, and [FindAllCycles] returns the
    cycle [a, a].  [DepthFirstSearch], which follows an edge only when its
    source is the current node, finds nothing beyond [a] on the same
    store; and when the second write is an [UpdateEdge], which removes
    the old entries, [HasCycles] is false. *)
Theorem has_cycles_true_on_acyclic_graph :
  edgesOf 0 Samples.reused "g" = [Samples.edge "e" "calls" "c" "a"] /\
  ~ has_directed_cycle (edgesOf 0 Samples.reused "g") [] /\
  BadgerEngine.GetOutgoingEdges 0 Samples.reused "g" "a"
    = Ok [Samples.edge "e" "calls" "c" "a"] /\
  GraphAnalyzer.FindAllCycles 5 0 Samples.reused "g" None = Some (Ok [["a"; "a"]]) /\
  GraphAnalyzer.HasCycles 5 0 Samples.reused "g" None = Some (Ok true) /\
  GraphAnalyzer.DepthFirstSearch 20 0 Samples.reused "g" "a" None
    = Some (Ok (mkTraversalResult [Samples.node "a" "service"] [] ["a"] 0)) /\
  GraphAnalyzer.HasCycles 5 0 Samples.reusedByUpdate "g" None = Some (Ok false).
Proof.
  assert (Hedges : edgesOf 0 Samples.reused "g"
                   = [Samples.edge "e" "calls" "c" "a"]) by (vm_compute; reflexivity).
  split; [exact Hedges|]. split.
  - rewrite Hedges. intros [u Hu].
    assert (Harc : forall x y, arc [Samples.edge "e" "calls" "c" "a"] [] x y ->
                     x = "c" /\ y = "a").
    { intros x y (ed & Hed & _ & Hx & Hy).
      apply list_elem_of_singleton in Hed. subst ed. simpl in Hx, Hy.
      split; congruence. }
    inversion Hu as [? ? H1|? w ? H1 H2]; subst.
    + apply Harc in H1 as [-> H1]. discriminate H1.
    + apply Harc in H1 as [-> ->].
      inversion H2 as [? ? H3|? w ? H3 _]; subst; apply Harc in H3 as [H3 _];
        discriminate H3.
  - split; [vm_compute; reflexivity|]. split; [vm_compute; reflexivity|].
    split; [vm_compute; reflexivity|]. split; vm_compute; reflexivity.
Qed.

(** The same happens through the key prefixes: the only stored edge runs
    from [a:b] to [a], so the graph has no directed cycle, yet the search
    from [a] reads the adjacency entries of [a:b] under the prefix of [a]
    and reports the cycle [a -> a]. *)
Lemma has_cycles_true_without_directed_cycle :
  GraphAnalyzer.HasCycles 5 0 Samples.colonLoop "g" None = Some (Ok true) /\
  GraphAnalyzer.FindAllCycles 5 0 Samples.colonLoop "g" None
    = Some (Ok [["a"; "a"]]) /\
  edgesOf 0 Samples.colonLoop "g" = [Samples.edge "e" "calls" "a:b" "a"] /\
  ~ has_directed_cycle (edgesOf 0 Samples.colonLoop "g") [].
Proof.
  assert (Hedges : edgesOf 0 Samples.colonLoop "g"
                   = [Samples.edge "e" "calls" "a:b" "a"]) by (vm_compute; reflexivity).
  split; [vm_compute; reflexivity|]. split; [vm_compute; reflexivity|].
  split; [exact Hedges|].
  rewrite Hedges. intros [u Hu].
  assert (Harc : forall x y, arc [Samples.edge "e" "calls" "a:b" "a"] [] x y ->
                   x = "a:b" /\ y = "a").
  { intros x y (ed & Hed & _ & Hx & Hy).
    apply list_elem_of_singleton in Hed. subst ed. simpl in Hx, Hy.
    split; congruence. }
  inversion Hu as [? ? H1|? w ? H1 H2]; subst.
  - apply Harc in H1 as [-> H1]. discriminate H1.
  - apply Harc in H1 as [-> ->].
    inversion H2 as [? ? H3|? w ? H3 _]; subst; apply Harc in H3 as [H3 _];
      discriminate H3.
Qed.

(** * Further properties *)

(** ** Key encoding *)

Lemma Split_nonempty sep s : GoStrings.Split sep s <> [].
Proof.
  destruct s as [|c s]; simpl; [done|].
  destruct (Ascii.eqb c sep); [done|]. by destruct (GoStrings.Split sep s).
Qed.

Lemma Split_colon_free s : colon_free s = true -> GoStrings.Split colon s = [s].
Proof.
  induction s as [|c s IH]; simpl; [done|].
  intros [Hc Hs]%andb_true_iff. apply negb_true_iff in Hc.
  by rewrite Hc, (IH Hs).
Qed.

Lemma Split_app_colon a b :
  colon_free a = true ->
  GoStrings.Split colon (a +:+ String colon b) = a :: GoStrings.Split colon b.
Proof.
  induction a as [|c a IH]; simpl.
  - intros _. change ("" +:+ String colon b) with (String colon b).
    done.
  - intros [Hc Ha]%andb_true_iff. apply negb_true_iff in Hc.
    by rewrite Hc, (IH Ha).
Qed.

Lemma Split_length_app a b :
  length (GoStrings.Split colon (a +:+ String colon b))
  = (length (GoStrings.Split colon a) + length (GoStrings.Split colon b))%nat.
Proof.
  induction a as [|c a IH].
  - by change ("" +:+ String colon b) with (String colon b).
  - rewrite ?append_cons. simpl. destruct (Ascii.eqb c colon).
    + simpl. by rewrite IH.
    + pose proof (Split_nonempty colon (a +:+ String colon b)) as H1.
      pose proof (Split_nonempty colon a) as H2.
      destruct (GoStrings.Split colon (a +:+ String colon b)) as [|h t]; [done|].
      destruct (GoStrings.Split colon a) as [|h' t']; [done|].
      simpl in *. exact IH.
Qed.

Lemma Split_length_colon s :
  colon_free s = false -> (2 <= length (GoStrings.Split colon s))%nat.
Proof.
  induction s as [|c s IH]; simpl; [done|].
  destruct (Ascii.eqb c colon) eqn:Hc; simpl.
  - intros _. pose proof (Split_nonempty colon s).
    destruct (GoStrings.Split colon s); [done|simpl; lia].
  - intros Hs. specialize (IH Hs).
    destruct (GoStrings.Split colon s); simpl in *; lia.
Qed.

Lemma decode_after_prefix (g n : string) :
  match GoStrings.Split colon (g +:+ String colon n) with
  | [a; b] => (a, b)
  | _ => ("", "")
  end = if colon_free g && colon_free n then (g, n) else ("", "").
Proof.
  destruct (colon_free g) eqn:Hg; simpl.
  - rewrite (Split_app_colon g n Hg).
    destruct (colon_free n) eqn:Hn.
    + by rewrite (Split_colon_free n Hn).
    + pose proof (Split_length_colon n Hn).
      by destruct (GoStrings.Split colon n) as [|x [|y l]]; simpl in *; try lia.
  - pose proof (Split_length_app g n) as Hlen.
    pose proof (Split_length_colon g Hg) as H2.
    pose proof (Split_nonempty colon n) as Hn.
    destruct (GoStrings.Split colon n) as [|z zs]; [done|].
    destruct (GoStrings.Split colon (g +:+ String colon n)) as [|x [|y [|w l]]];
      simpl in *; try done; lia.
Qed.

(** X1.  Decoding a node key or an edge key gives back the graph ID and
    the node (edge) ID it was encoded from exactly when neither of them
    contains a colon; otherwise both decoded IDs are empty. *)
Theorem decode_key_of_encoded (g : GraphID) (n : NodeID) (x : EdgeID) :
  DecodeNodeKey (EncodeNodeKey g n)
    = (if colon_free g && colon_free n then (g, n) else ("", "")) /\
  DecodeEdgeKey (EncodeEdgeKey g x)
    = (if colon_free g && colon_free x then (g, x) else ("", "")).
Proof.
  unfold DecodeNodeKey, DecodeEdgeKey, EncodeNodeKey, EncodeEdgeKey, GoStrings.HasPrefix.
  rewrite !prefix_self_app, !drop_app_length. split; apply decode_after_prefix.
Qed.

Lemma LastIndex_from_free i s found :
  colon_free s = true -> GoStrings.LastIndex_from i colon s found = found.
Proof.
  revert i found. induction s as [|c s IH]; intros i found; simpl; [done|].
  intros [Hc Hs]%andb_true_iff. apply negb_true_iff in Hc. rewrite Hc. by apply IH.
Qed.

Lemma LastIndex_from_app i a b found :
  colon_free b = true ->
  GoStrings.LastIndex_from i colon (a +:+ String colon b) found
  = i + Z.of_nat (String.length a).
Proof.
  intros Hb. revert i found. induction a as [|c a IH]; intros i found.
  - change ("" +:+ String colon b) with (String colon b). simpl.
    rewrite (LastIndex_from_free _ _ _ Hb). lia.
  - rewrite append_cons. simpl. rewrite IH. lia.
Qed.

Lemma drop_app_cons (a b : string) (c : ascii) :
  GoStrings.drop (S (String.length a)) (a +:+ String c b) = b.
Proof. induction a as [|x a IH]; [done|]. by rewrite append_cons. Qed.

Lemma take_app_length (a b : string) :
  GoStrings.take (String.length a) (a +:+ b) = a.
Proof.
  induction a as [|x a IH]; simpl.
  - by destruct b.
  - rewrite ?append_cons. simpl. by rewrite IH.
Qed.

(** X2.  An expiry-index key decodes to the graph ID and the node ID it
    was built from, whatever the expiry time, when neither ID contains a
    colon. *)
Theorem decode_expiry_index_key_of_encoded
    (g : GraphID) (n : NodeID) (expiresAt : time.Time) :
  colon_free g = true -> colon_free n = true ->
  DecodeExpiryIndexKey (EncodeExpiryIndexKey g n expiresAt) = (g, n).
Proof.
  intros Hg Hn. unfold DecodeExpiryIndexKey, EncodeExpiryIndexKey, GoStrings.TrimPrefix,
    GoStrings.HasPrefix, GoStrings.LastIndex.
  rewrite prefix_self_app, drop_app_length.
  set (ts := time.FormatRFC3339 expiresAt).
  change (ts +:+ ":" +:+ g +:+ ":" +:+ n)
    with (ts +:+ (String colon "" +:+ (g +:+ String colon n))).
  assert (Hkey : ts +:+ (String colon "" +:+ (g +:+ String colon n))
                 = (ts +:+ String colon g) +:+ String colon n).
  { rewrite (append_assoc ts). f_equal. }
  rewrite Hkey. cbv zeta.
  rewrite (LastIndex_from_app 0 _ n (-1) Hn).
  set (rest := ts +:+ String colon g).
  replace (0 + Z.of_nat (String.length rest) =? -1) with false
    by (symmetry; apply Z.eqb_neq; lia).
  replace (Z.to_nat (0 + Z.of_nat (String.length rest) + 1))
    with (S (String.length rest)) by lia.
  replace (Z.to_nat (0 + Z.of_nat (String.length rest)))
    with (String.length rest) by lia.
  rewrite drop_app_cons, take_app_length. subst rest.
  rewrite (LastIndex_from_app 0 ts g (-1) Hg).
  replace (0 + Z.of_nat (String.length ts) =? -1) with false
    by (symmetry; apply Z.eqb_neq; lia).
  replace (Z.to_nat (0 + Z.of_nat (String.length ts) + 1))
    with (S (String.length ts)) by lia.
  by rewrite drop_app_cons.
Qed.

Lemma decode_expiry_index_key_of_encoded_witness :
  colon_free "g" = true /\ colon_free "n" = true /\
  DecodeExpiryIndexKey (EncodeExpiryIndexKey "g" "n" Samples.tenTo11) = ("g", "n").
Proof.
  split; [reflexivity|]. split; [reflexivity|].
  exact (decode_expiry_index_key_of_encoded "g" "n" Samples.tenTo11 eq_refl eq_refl).
Defined.

(** ** Nodes *)

Lemma Txn_Get_set now (kv : DB) k v k' :
  Txn_Get now (Txn_Set k v kv) k'
  = if decide (k = k') then Some v else Txn_Get now kv k'.
Proof.
  unfold Txn_Get, Txn_Set. case_decide as Hk.
  - subst k'. by rewrite lookup_insert_eq.
  - by rewrite lookup_insert_ne.
Qed.

Lemma Txn_Get_set_ne now (kv : DB) k v k' :
  k <> k' -> Txn_Get now (Txn_Set k v kv) k' = Txn_Get now kv k'.
Proof. intros Hk. rewrite Txn_Get_set. by case_decide. Qed.

Lemma Txn_Get_set_eq now (kv : DB) k v : Txn_Get now (Txn_Set k v kv) k = Some v.
Proof. rewrite Txn_Get_set. by case_decide. Qed.

(** The writes of [CreateNode] other than the record itself go to keys
    of the type index and of the expiry index. *)
Lemma CreateNode_lookup now g node (kv : DB) k :
  GoStrings.take 2 k <> "ti" -> GoStrings.take 2 k <> "xi" ->
  Txn_Get now (BadgerTransaction.CreateNode g node kv).2 k
  = if decide (EncodeNodeKey g (node_ID node) = k) then Some (NodeJSON node)
    else Txn_Get now kv k.
Proof.
  intros Hti Hxi. unfold BadgerTransaction.CreateNode. cbn [snd].
  assert (H1 : forall kv0 : DB,
            Txn_Get now
              (match node_ExpiresAt node with
               | Some expiresAt =>
                   Txn_Set (EncodeExpiryIndexKey g (node_ID node) expiresAt)
                     (Raw (node_ID node)) kv0
               | None => kv0
               end) k = Txn_Get now kv0 k).
  { intros kv0. destruct (node_ExpiresAt node); [|done].
    apply Txn_Get_set_ne. intros <-. by apply Hxi. }
  rewrite H1, Txn_Get_set_ne, Txn_Get_set; [done|].
  intros <-. by apply Hti.
Qed.

(** X3.  On an open database [CreateNode] succeeds; the node is then
    returned by [GetNode] as it was given, every other node of the graph
    reads as before, and so does every edge of every graph. *)
Theorem create_node_then_get
    (now : time.Time) (e : BadgerEngine.t) (kv : DB) (g : GraphID) (node : Node) :
  BadgerEngine.db e = Some kv ->
  let e' := (BadgerEngine.CreateNode e g node).2 in
  (BadgerEngine.CreateNode e g node).1 = Ok tt /\
  BadgerEngine.GetNode now e' g (node_ID node) = Ok node /\
  (forall n', n' <> node_ID node ->
     BadgerEngine.GetNode now e' g n' = BadgerEngine.GetNode now e g n') /\
  (forall g' x, BadgerEngine.GetEdge now e' g' x = BadgerEngine.GetEdge now e g' x).
Proof.
  intros Hdb e'. subst e'.
  unfold BadgerEngine.CreateNode, BadgerEngine.update, BadgerEngine.GetNode,
    BadgerEngine.GetEdge, BadgerEngine.view, View, Update.
  rewrite Hdb.
  destruct (BadgerTransaction.CreateNode g node kv) as [r kv'] eqn:Hrun.
  assert (Hr : r = Ok tt) by (by injection Hrun as <- _).
  assert (Hkv : kv' = (BadgerTransaction.CreateNode g node kv).2) by (by rewrite Hrun).
  subst r. cbn [fst snd BadgerEngine.db].
  split; [done|].
  unfold BadgerTransaction.GetNode, BadgerTransaction.GetEdge.
  split; [|split].
  - rewrite Hkv, CreateNode_lookup by (intros H; vm_compute in H; discriminate H).
    by case_decide.
  - intros n' Hn'.
    rewrite Hkv, CreateNode_lookup by (intros H; vm_compute in H; discriminate H).
    case_decide as Hk; [|done]. apply node_key_inj in Hk. congruence.
  - intros g' x.
    rewrite Hkv, CreateNode_lookup by (intros H; vm_compute in H; discriminate H).
    case_decide as Hk; [|done]. key_discr Hk.
Qed.

Lemma create_node_then_get_witness :
  BadgerEngine.db Samples.chain = Some (Samples.storeOf Samples.chain) /\
  BadgerEngine.GetNode 0
    (BadgerEngine.CreateNode Samples.chain "g" (Samples.node "z" "cache")).2 "g" "z"
  = Ok (Samples.node "z" "cache").
Proof.
  assert (H : BadgerEngine.db Samples.chain = Some (Samples.storeOf Samples.chain))
    by (vm_compute; reflexivity).
  split; [exact H|].
  exact (proj1 (proj2 (create_node_then_get 0 Samples.chain _ "g"
                         (Samples.node "z" "cache") H))).
Defined.

Lemma Txn_Get_delete_eq now (kv : DB) k : Txn_Get now (Txn_Delete k kv) k = None.
Proof. rewrite Txn_Get_delete. by case_decide. Qed.







(** ** Edges *)

Lemma Txn_Get_setTTL now (kv : DB) k v ttl k' :
  Txn_Get now (Txn_SetEntryWithTTL now k v ttl kv) k'
  = if decide (k = k') then (if 0 <? ttl then Some v else None)
    else Txn_Get now kv k'.
Proof.
  unfold Txn_Get, Txn_SetEntryWithTTL. case_decide as Hk.
  - subst k'. rewrite lookup_insert_eq. unfold live. simpl.
    destruct (0 <? ttl) eqn:Httl.
    + apply Z.ltb_lt in Httl. by rewrite (proj2 (Z.ltb_lt now (now + ttl))) by lia.
    + apply Z.ltb_ge in Httl. by rewrite (proj2 (Z.ltb_ge now (now + ttl))) by lia.
  - by rewrite lookup_insert_ne.
Qed.

(** [fresh now t]: an edge with expiry [t] is stored by [CreateEdge]. *)
Lemma CreateEdge_run now g edge (kv : DB) :
  is_Ok (BadgerTransaction.GetNode now kv g (edge_FromNodeID edge)) = true ->
  is_Ok (BadgerTransaction.GetNode now kv g (edge_ToNodeID edge)) = true ->
  unexpired now (edge_ExpiresAt edge) = true ->
  exists kv',
    BadgerTransaction.CreateEdge now g edge kv = (Ok tt, kv') /\
    (forall k,
       Txn_Get now kv' k
       = if decide (EncodeNodeInEdgeIndexKey g (edge_ToNodeID edge) (edge_ID edge) = k)
         then Some (Raw (edge_ID edge))
         else if decide (EncodeNodeOutEdgeIndexKey g (edge_FromNodeID edge) (edge_ID edge) = k)
         then Some (Raw (edge_ID edge))
         else if decide (EncodeEdgeTypeIndexKey g (edge_Type edge) (edge_ID edge) = k)
         then Some (Raw (edge_ID edge))
         else if decide (EncodeEdgeKey g (edge_ID edge) = k) then Some (EdgeJSON edge)
         else Txn_Get now kv k) /\
    (forall k, k ∉ cascadeKeys g (edge_ID edge) edge -> kv' !! k = kv !! k).
Proof.
  intros Hfrom Hto Hlive. unfold BadgerTransaction.CreateEdge.
  destruct (BadgerTransaction.GetNode now kv g (edge_FromNodeID edge)); [|discriminate Hfrom].
  destruct (BadgerTransaction.GetNode now kv g (edge_ToNodeID edge)); [|discriminate Hto].
  unfold unexpired in Hlive.
  destruct (edge_ExpiresAt edge) as [t|]; cbv zeta.
  - rewrite Hlive. eexists. split; [reflexivity|]. split.
    + intros k. rewrite !Txn_Get_set. repeat (case_decide; [done|]).
      rewrite Txn_Get_setTTL, Hlive. done.
    + intros k Hk. unfold cascadeKeys in Hk. rewrite !elem_of_cons, elem_of_nil in Hk.
      unfold Txn_Set, Txn_SetEntryWithTTL. rewrite !lookup_insert_ne; [done|..];
        intros <-; tauto.
  - eexists. split; [reflexivity|]. split.
    + intros k. rewrite !Txn_Get_set. by repeat (case_decide; [done|]).
    + intros k Hk. unfold cascadeKeys in Hk. rewrite !elem_of_cons, elem_of_nil in Hk.
      unfold Txn_Set. rewrite !lookup_insert_ne; [done|..]; intros <-; tauto.
Qed.

Lemma elem_of_scan now e (kv : DB) g prefix k x ed :
  BadgerEngine.db e = Some kv ->
  Txn_Get now kv k = Some (Raw x) -> GoStrings.HasPrefix k prefix = true ->
  BadgerTransaction.GetEdge now kv g x = Ok ed ->
  ed ∈ omap (presentEdge now e g) (Iterate now kv prefix).
Proof.
  intros Hdb Hk Hprefix Hget. apply list_elem_of_omap. exists (k, Raw x). split.
  - by apply elem_of_Iterate.
  - unfold presentEdge, BadgerEngine.GetEdge, BadgerEngine.view, View.
    rewrite Hdb. simpl. by rewrite Hget.
Qed.

Lemma edge_type_key_has_prefix g ty x :
  GoStrings.HasPrefix (EncodeEdgeTypeIndexKey g ty x) (CreateTypeIteratorPrefix g "e" ty)
  = true.
Proof.
  unfold GoStrings.HasPrefix, EncodeEdgeTypeIndexKey, CreateTypeIteratorPrefix.
  rewrite prefix_app_same.
  change ("e:" +:+ g +:+ ":" +:+ ty +:+ ":" +:+ x)
    with ("e" +:+ ":" +:+ g +:+ ":" +:+ ty +:+ ":" +:+ x).
  rewrite !prefix_app_same.
  apply (prefix_self_app ":" x).
Qed.

Lemma GetIncomingEdges_open now e (kv : DB) g n :
  BadgerEngine.db e = Some kv ->
  BadgerEngine.GetIncomingEdges now e g n
  = Ok (omap (presentEdge now e g) (Iterate now kv (inPrefix g n))).
Proof.
  intros Hdb. unfold BadgerEngine.GetIncomingEdges. rewrite Hdb.
  by apply scan_collectEdge.
Qed.

Lemma ListEdgesByType_open now e (kv : DB) g ty :
  BadgerEngine.db e = Some kv ->
  BadgerEngine.ListEdgesByType now e g ty
  = Ok (omap (presentEdge now e g) (Iterate now kv (CreateTypeIteratorPrefix g "e" ty))).
Proof.
  intros Hdb. unfold BadgerEngine.ListEdgesByType. rewrite Hdb.
  by apply scan_collectEdge.
Qed.

(** X5.  When both endpoints can be fetched and the edge carries no
    expiry, or one after [now], [CreateEdge] succeeds and the edge is
    then returned by [GetEdge], listed among the outgoing edges of its
    source, the incoming edges of its target and the edges of its type;
    the other edges of the graph and all nodes read as before. *)
Theorem create_edge_then_lookup
    (now : time.Time) (e : BadgerEngine.t) (kv : DB) (g : GraphID) (edge : Edge) :
  BadgerEngine.db e = Some kv ->
  is_Ok (BadgerEngine.GetNode now e g (edge_FromNodeID edge)) = true ->
  is_Ok (BadgerEngine.GetNode now e g (edge_ToNodeID edge)) = true ->
  unexpired now (edge_ExpiresAt edge) = true ->
  exists e',
    BadgerEngine.CreateEdge now e g edge = (Ok tt, e') /\
    BadgerEngine.GetEdge now e' g (edge_ID edge) = Ok edge /\
    (exists out, BadgerEngine.GetOutgoingEdges now e' g (edge_FromNodeID edge) = Ok out /\
                 edge ∈ out) /\
    (exists inc, BadgerEngine.GetIncomingEdges now e' g (edge_ToNodeID edge) = Ok inc /\
                 edge ∈ inc) /\
    (exists l, BadgerEngine.ListEdgesByType now e' g (edge_Type edge) = Ok l /\
               edge ∈ l) /\
    (forall y, y <> edge_ID edge ->
       BadgerEngine.GetEdge now e' g y = BadgerEngine.GetEdge now e g y) /\
    (forall g' n, BadgerEngine.GetNode now e' g' n = BadgerEngine.GetNode now e g' n).
Proof.
  intros Hdb Hfrom Hto Hlive. destruct e as [d]. simpl in Hdb. subst d.
  unfold BadgerEngine.GetNode, BadgerEngine.view, View in Hfrom, Hto.
  cbn [BadgerEngine.db] in Hfrom, Hto.
  destruct (CreateEdge_run now g edge kv Hfrom Hto Hlive) as (kv' & Hrun & Hlook & _).
  exists (BadgerEngine.mkEngine (Some kv')).
  assert (Hrec : BadgerTransaction.GetEdge now kv' g (edge_ID edge) = Ok edge).
  { unfold BadgerTransaction.GetEdge. rewrite Hlook.
    rewrite !decide_False by (intros H; key_discr H). by rewrite decide_True. }
  split; [|split; [|split; [|split; [|split; [|split]]]]].
  - unfold BadgerEngine.CreateEdge, BadgerEngine.update, Update.
    cbn [BadgerEngine.db]. by rewrite Hrun.
  - exact Hrec.
  - eexists. split; [by apply GetOutgoingEdges_open|].
    eapply elem_of_scan; [done| |apply out_key_has_prefix|exact Hrec].
    rewrite Hlook. rewrite decide_False by (intros H; key_discr H).
    by rewrite decide_True.
  - eexists. split; [by apply GetIncomingEdges_open|].
    eapply elem_of_scan; [done| |apply in_key_has_prefix|exact Hrec].
    rewrite Hlook. by rewrite decide_True.
  - eexists. split; [by apply ListEdgesByType_open|].
    eapply elem_of_scan; [done| |apply edge_type_key_has_prefix|exact Hrec].
    rewrite Hlook. rewrite !decide_False by (intros H; key_discr H).
    by rewrite decide_True.
  - intros y Hy. unfold BadgerEngine.GetEdge, BadgerEngine.view, View.
    cbn [BadgerEngine.db]. unfold BadgerTransaction.GetEdge. rewrite Hlook.
    rewrite !decide_False by (intros H; key_discr H).
    rewrite decide_False by (intros H%edge_key_inj; congruence). done.
  - intros g' n. unfold BadgerEngine.GetNode, BadgerEngine.view, View.
    cbn [BadgerEngine.db]. unfold BadgerTransaction.GetNode. rewrite Hlook.
    rewrite !decide_False by (intros H; key_discr H). done.
Qed.

Lemma create_edge_then_lookup_witness :
  BadgerEngine.db Samples.chain = Some (Samples.storeOf Samples.chain) /\
  is_Ok (BadgerEngine.GetNode 0 Samples.chain "g" "a") = true /\
  is_Ok (BadgerEngine.GetNode 0 Samples.chain "g" "c") = true /\
  unexpired 0 None = true /\
  exists e',
    BadgerEngine.CreateEdge 0 Samples.chain "g" (Samples.edge "ac" "calls" "a" "c")
      = (Ok tt, e') /\
    BadgerEngine.GetEdge 0 e' "g" "ac" = Ok (Samples.edge "ac" "calls" "a" "c").
Proof.
  assert (H : BadgerEngine.db Samples.chain = Some (Samples.storeOf Samples.chain))
    by (vm_compute; reflexivity).
  assert (H1 : is_Ok (BadgerEngine.GetNode 0 Samples.chain "g" "a") = true)
    by (vm_compute; reflexivity).
  assert (H2 : is_Ok (BadgerEngine.GetNode 0 Samples.chain "g" "c") = true)
    by (vm_compute; reflexivity).
  split; [exact H|]. split; [exact H1|]. split; [exact H2|]. split; [reflexivity|].
  destruct (create_edge_then_lookup 0 Samples.chain _ "g"
              (Samples.edge "ac" "calls" "a" "c") H H1 H2 eq_refl)
    as (e' & Hrun & Hget & _).
  exists e'. split; [exact Hrun|exact Hget].
Defined.

(** X6.  An edge whose expiry is not after [now] is not stored:
    [CreateEdge] still checks the endpoints and then succeeds without
    writing anything. *)
Theorem create_expired_edge_stores_nothing
    (now : time.Time) (e : BadgerEngine.t) (kv : DB) (g : GraphID) (edge : Edge)
    (t : time.Time) :
  BadgerEngine.db e = Some kv ->
  is_Ok (BadgerEngine.GetNode now e g (edge_FromNodeID edge)) = true ->
  is_Ok (BadgerEngine.GetNode now e g (edge_ToNodeID edge)) = true ->
  edge_ExpiresAt edge = Some t -> t <= now ->
  BadgerEngine.CreateEdge now e g edge = (Ok tt, e).
Proof.
  intros Hdb Hfrom Hto Ht Hle. destruct e as [d]. simpl in Hdb. subst d.
  unfold BadgerEngine.GetNode, BadgerEngine.view, View in Hfrom, Hto.
  cbn [BadgerEngine.db] in Hfrom, Hto.
  unfold BadgerEngine.CreateEdge, BadgerEngine.update, Update.
  cbn [BadgerEngine.db]. unfold BadgerTransaction.CreateEdge.
  destruct (BadgerTransaction.GetNode now kv g (edge_FromNodeID edge)); [|discriminate Hfrom].
  destruct (BadgerTransaction.GetNode now kv g (edge_ToNodeID edge)); [|discriminate Hto].
  rewrite Ht. cbv zeta. by rewrite (proj2 (Z.ltb_ge 0 (t - now))) by lia.
Qed.

Lemma create_expired_edge_stores_nothing_witness :
  BadgerEngine.CreateEdge 5 Samples.chain "g"
    (mkEdge "ac" "calls" "a" "c" [] 0 0 (Some 5))
  = (Ok tt, Samples.chain).
Proof.
  apply (create_expired_edge_stores_nothing 5 Samples.chain
           (Samples.storeOf Samples.chain) "g" _ 5);
    [vm_compute; reflexivity | vm_compute; reflexivity | vm_compute; reflexivity
    | reflexivity | lia].
Defined.

(** X7.  [DeleteEdge] undoes [CreateEdge]: when none of the four keys
    of the edge is in the store, creating the edge and deleting it again
    leaves the store exactly as it was. *)
Theorem create_then_delete_edge_restores_store
    (now : time.Time) (g : GraphID) (edge : Edge) (kv kv1 : DB) :
  (forall k, k ∈ cascadeKeys g (edge_ID edge) edge -> kv !! k = None) ->
  unexpired now (edge_ExpiresAt edge) = true ->
  BadgerTransaction.CreateEdge now g edge kv = (Ok tt, kv1) ->
  BadgerTransaction.DeleteEdge now g (edge_ID edge) kv1 = (Ok tt, kv).
Proof.
  intros Hfresh Hlive Hcreate.
  assert (Hfrom : is_Ok (BadgerTransaction.GetNode now kv g (edge_FromNodeID edge)) = true).
  { unfold BadgerTransaction.CreateEdge in Hcreate.
    by destruct (BadgerTransaction.GetNode now kv g (edge_FromNodeID edge)). }
  assert (Hto : is_Ok (BadgerTransaction.GetNode now kv g (edge_ToNodeID edge)) = true).
  { unfold BadgerTransaction.CreateEdge in Hcreate.
    destruct (BadgerTransaction.GetNode now kv g (edge_FromNodeID edge)); [|done].
    by destruct (BadgerTransaction.GetNode now kv g (edge_ToNodeID edge)). }
  destruct (CreateEdge_run now g edge kv Hfrom Hto Hlive) as (kv' & Hrun & Hlook & Hframe).
  assert (kv' = kv1) as -> by congruence.
  unfold BadgerTransaction.DeleteEdge, BadgerTransaction.GetEdge. rewrite Hlook.
  rewrite !decide_False by (intros H; key_discr H). rewrite decide_True by done.
  simpl. f_equal. apply map_eq. intros k. unfold Txn_Delete.
  destruct (decide (k ∈ cascadeKeys g (edge_ID edge) edge)) as [Hin|Hout].
  - rewrite (Hfresh k Hin). in_cascade Hin; subst k;
      rewrite ?lookup_delete_eq; try done;
      repeat (rewrite lookup_delete_ne by (intros H; key_discr H));
      by rewrite lookup_delete_eq.
  - rewrite <- (Hframe k Hout). unfold cascadeKeys in Hout.
    rewrite !elem_of_cons, elem_of_nil in Hout.
    rewrite !lookup_delete_ne; [done|..]; intros <-; tauto.
Qed.

Lemma create_then_delete_edge_restores_store_witness :
  let edge := Samples.edge "ac" "calls" "a" "c" in
  let kv := Samples.storeOf Samples.chain in
  let kv1 := (BadgerTransaction.CreateEdge 0 "g" edge kv).2 in
  BadgerTransaction.CreateEdge 0 "g" edge kv = (Ok tt, kv1) /\
  BadgerTransaction.DeleteEdge 0 "g" "ac" kv1 = (Ok tt, kv).
Proof.
  intros edge kv kv1.
  assert (H : BadgerTransaction.CreateEdge 0 "g" edge kv = (Ok tt, kv1))
    by (vm_compute; reflexivity).
  split; [exact H|].
  apply (create_then_delete_edge_restores_store 0 "g" edge kv kv1); [|reflexivity|exact H].
  intros k Hk. in_cascade Hk; subst k; vm_compute; reflexivity.
Defined.

(** X8.  [DeleteEdge] on a stored edge succeeds and removes its record
    and its three index entries; afterwards [GetEdge] reports the edge as
    not found, the other edges of the graph and all nodes read as
    before. *)
Theorem delete_edge_removes_record_and_index
    (now : time.Time) (e : BadgerEngine.t) (kv : DB) (g : GraphID) (x : EdgeID)
    (ed : Edge) :
  BadgerEngine.db e = Some kv ->
  BadgerEngine.GetEdge now e g x = Ok ed ->
  exists kv',
    BadgerEngine.DeleteEdge now e g x = (Ok tt, BadgerEngine.mkEngine (Some kv')) /\
    BadgerEngine.GetEdge now (BadgerEngine.mkEngine (Some kv')) g x
      = Err ("edge not found: " +:+ x) /\
    (forall k, k ∈ cascadeKeys g x ed -> kv' !! k = None) /\
    (forall k, k ∉ cascadeKeys g x ed -> kv' !! k = kv !! k) /\
    (forall y, y <> x ->
       BadgerTransaction.GetEdge now kv' g y = BadgerTransaction.GetEdge now kv g y) /\
    (forall g' n,
       BadgerTransaction.GetNode now kv' g' n = BadgerTransaction.GetNode now kv g' n).
Proof.
  intros Hdb Hget. destruct e as [d]. simpl in Hdb. subst d.
  unfold BadgerEngine.GetEdge, BadgerEngine.view, View in Hget.
  cbn [BadgerEngine.db] in Hget.
  unfold BadgerEngine.DeleteEdge, BadgerEngine.update, Update.
  cbn [BadgerEngine.db]. unfold BadgerTransaction.DeleteEdge. rewrite Hget.
  eexists. split; [reflexivity|].
  assert (Hin : forall k, k ∈ cascadeKeys g x ed ->
            Txn_Delete (EncodeNodeInEdgeIndexKey g (edge_ToNodeID ed) x)
              (Txn_Delete (EncodeNodeOutEdgeIndexKey g (edge_FromNodeID ed) x)
                 (Txn_Delete (EncodeEdgeTypeIndexKey g (edge_Type ed) x)
                    (Txn_Delete (EncodeEdgeKey g x) kv))) !! k = None).
  { intros k Hk. unfold Txn_Delete. in_cascade Hk; subst k;
      rewrite ?lookup_delete_eq; try done;
      repeat (rewrite lookup_delete_ne by (intros H; key_discr H));
      by rewrite lookup_delete_eq. }
  assert (Hout : forall k, k ∉ cascadeKeys g x ed ->
            Txn_Delete (EncodeNodeInEdgeIndexKey g (edge_ToNodeID ed) x)
              (Txn_Delete (EncodeNodeOutEdgeIndexKey g (edge_FromNodeID ed) x)
                 (Txn_Delete (EncodeEdgeTypeIndexKey g (edge_Type ed) x)
                    (Txn_Delete (EncodeEdgeKey g x) kv))) !! k = kv !! k).
  { intros k Hk. unfold cascadeKeys in Hk. rewrite !elem_of_cons, elem_of_nil in Hk.
    unfold Txn_Delete. rewrite !lookup_delete_ne; [done|..]; intros <-; tauto. }
  split; [|split; [exact Hin|split; [exact Hout|split]]].
  - unfold BadgerEngine.GetEdge, BadgerEngine.view, View. cbn [BadgerEngine.db].
    unfold BadgerTransaction.GetEdge. rewrite Txn_Get_None; [done|].
    apply Hin. unfold cascadeKeys. apply elem_of_cons. by left.
  - intros y Hy. unfold BadgerTransaction.GetEdge.
    erewrite Txn_Get_same; [reflexivity|]. apply Hout. intros Hk.
    in_cascade Hk; try key_discr Hk. apply edge_key_inj in Hk. congruence.
  - intros g' n. unfold BadgerTransaction.GetNode.
    erewrite Txn_Get_same; [reflexivity|]. apply Hout. intros Hk.
    in_cascade Hk; key_discr Hk.
Qed.

Lemma delete_edge_removes_record_and_index_witness :
  BadgerEngine.db Samples.chain = Some (Samples.storeOf Samples.chain) /\
  BadgerEngine.GetEdge 0 Samples.chain "g" "ab" = Ok (Samples.edge "ab" "calls" "a" "b") /\
  exists kv',
    BadgerEngine.DeleteEdge 0 Samples.chain "g" "ab"
      = (Ok tt, BadgerEngine.mkEngine (Some kv')) /\
    BadgerEngine.GetEdge 0 (BadgerEngine.mkEngine (Some kv')) "g" "ab"
      = Err "edge not found: ab".
Proof.
  assert (H : BadgerEngine.db Samples.chain = Some (Samples.storeOf Samples.chain))
    by (vm_compute; reflexivity).
  assert (H1 : BadgerEngine.GetEdge 0 Samples.chain "g" "ab"
               = Ok (Samples.edge "ab" "calls" "a" "b")) by (vm_compute; reflexivity).
  split; [exact H|]. split; [exact H1|].
  destruct (delete_edge_removes_record_and_index 0 Samples.chain _ "g" "ab" _ H H1)
    as (kv' & Hrun & Hget & _).
  exists kv'. split; [exact Hrun|exact Hget].
Defined.

(** ** Further properties of the analysis engine *)

(** X11.  [GetShortestPath] from a node to itself returns the one-node
    path of length 0 without reading the store: it succeeds whatever the
    options, also when the node is not stored or the database is not
    open. *)
Theorem shortest_path_to_itself
    (fuel : nat) (now : time.Time) (e : BadgerEngine.t) (g : GraphID) (n : NodeID)
    (options : option TraversalOptions) :
  GraphAnalyzer.GetShortestPath (S fuel) now e g n n options
  = Some (Ok (mkPathResult n n [n] 0 [])).
Proof.
  unfold GraphAnalyzer.GetShortestPath. simpl. by rewrite !String.eqb_refl.
Qed.

Lemma iterateItems_length {A} (items : list (string * Bytes))
    (decode : Bytes -> option A) (msg : string) (acc r : list A) :
  BadgerEngine.iterateItems items
    (fun _ value l => match decode value with
                      | Some x => Ok (l ++ [x])%list
                      | None => Err msg
                      end) acc = Ok r ->
  length r = (length acc + length items)%nat.
Proof.
  revert acc. induction items as [|[k v] items IH]; intros acc H; simpl in H.
  - injection H as <-. simpl. lia.
  - destruct (decode v) as [x|]; [|discriminate H].
    rewrite (IH _ H), length_app. simpl. lia.
Qed.

(** X12.  The counts agree with the listings: when [ListNodes] and
    [ListEdges] succeed, [CountNodes] and [CountEdges] return the lengths
    of their results. *)
Theorem counts_agree_with_listings
    (now : time.Time) (e : BadgerEngine.t) (g : GraphID)
    (nodes : list Node) (edges : list Edge) :
  BadgerEngine.ListNodes now e g = Ok nodes ->
  BadgerEngine.ListEdges now e g = Ok edges ->
  BadgerEngine.CountNodes now e g = Ok (Z.of_nat (length nodes)) /\
  BadgerEngine.CountEdges now e g = Ok (Z.of_nat (length edges)).
Proof.
  unfold BadgerEngine.ListNodes, BadgerEngine.ListEdges, BadgerEngine.CountNodes,
    BadgerEngine.CountEdges, BadgerEngine.iterateWithPrefix, BadgerEngine.view, View.
  destruct (BadgerEngine.db e) as [kv|]; [|discriminate].
  intros Hn He. split.
  - destruct (BadgerEngine.iterateItems _ _ _) as [r|m] eqn:Hrun in Hn; [|discriminate Hn].
    injection Hn as <-.
    apply (iterateItems_length _ Node_FromJSON) in Hrun. by rewrite Hrun.
  - destruct (BadgerEngine.iterateItems _ _ _) as [r|m] eqn:Hrun in He; [|discriminate He].
    injection He as <-.
    apply (iterateItems_length _ Edge_FromJSON) in Hrun. by rewrite Hrun.
Qed.

Lemma counts_agree_with_listings_witness :
  BadgerEngine.CountNodes 0 Samples.chain "g" = Ok 3 /\
  BadgerEngine.CountEdges 0 Samples.chain "g" = Ok 2.
Proof.
  apply (counts_agree_with_listings 0 Samples.chain "g"
           [Samples.node "a" "service"; Samples.node "b" "service";
            Samples.node "c" "database"]
           [Samples.edge "ab" "calls" "a" "b"; Samples.edge "bc" "writes_to" "b" "c"]);
    vm_compute; reflexivity.
Defined.







Example roots_leaves_orphans_of_chain :
  GraphAnalyzer.GetRootNodes 0 Samples.chain "g" None = Ok [Samples.node "a" "service"] /\
  GraphAnalyzer.GetLeafNodes 0 Samples.chain "g" None = Ok [Samples.node "c" "database"] /\
  GraphAnalyzer.GetOrphanNodes 0 Samples.chain "g" None = Ok [] /\
  GraphAnalyzer.GetRootNodes 0 Samples.chain "g"
    (Some (mkOptions 0 ["writes_to"] [] DirectionForward None))
    = Ok [Samples.node "a" "service"; Samples.node "b" "service"].
Proof.
  split; [vm_compute; reflexivity|]. split; [vm_compute; reflexivity|].
  split; vm_compute; reflexivity.
Qed.


(** *** Rotations *)

Lemma rotate_split {A} (k : nat) (l : list A) :
  exists a b, l = (a ++ b)%list /\ rotate k l = (b ++ a)%list.
Proof.
  exists (take (k mod length l) l), (drop (k mod length l) l).
  split; [by rewrite take_drop|done].
Qed.

Lemma split_rotate {A} (a b : list A) : (b ++ a)%list = rotate (length a) (a ++ b)%list.
Proof.
  unfold rotate. rewrite length_app. destruct b as [|y b].
  - rewrite !app_nil_r, Nat.add_0_r. simpl.
    destruct a as [|x a]; [done|]. rewrite Nat.Div0.mod_same.
    by rewrite drop_0, take_0, app_nil_r.
  - rewrite Nat.mod_small by (simpl; lia).
    by rewrite list.drop_app_length, list.take_app_length.
Qed.

Lemma rotate_sym {A} (k : nat) (l l' : list A) :
  l' = rotate k l -> exists j, l = rotate j l'.
Proof.
  intros ->. destruct (rotate_split k l) as (a & b & Hl & ->).
  exists (length b). rewrite Hl. apply split_rotate.
Qed.

Lemma rotate_trans {A} (j k : nat) (l : list A) :
  exists i, rotate k (rotate j l) = rotate i l.
Proof.
  destruct (rotate_split j l) as (a & b & Hl & ->).
  destruct (rotate_split k (b ++ a)%list) as (c & d & Hcd & ->).
  apply app_eq_inv in Hcd as [(m & Hb & Hd)|(m & Hc & Ha)].
  - exists (length (a ++ c)%list). rewrite Hl, Hb, Hd.
    rewrite (app_assoc a c m), <- (split_rotate (a ++ c)%list m).
    by rewrite <- !app_assoc.
  - exists (length m). rewrite Hl, Hc, Ha.
    rewrite <- (app_assoc m d b), <- (split_rotate m (d ++ b)%list).
    by rewrite <- app_assoc.
Qed.

Lemma same_cycle_sym c1 c2 : same_cycle c1 c2 -> same_cycle c2 c1.
Proof. intros [k Hk]. by apply rotate_sym in Hk. Qed.

Lemma same_cycle_trans c1 c2 c3 :
  same_cycle c1 c2 -> same_cycle c2 c3 -> same_cycle c1 c3.
Proof.
  intros [j Hj] [k Hk]. unfold same_cycle. rewrite Hk, Hj. apply rotate_trans.
Qed.

(** The body of the normal form is a rotation of the body of the cycle. *)
Lemma normalizeCycle_same_cycle R (raw : list NodeID) :
  elementary_cycle R raw -> same_cycle raw (GraphAnalyzer.normalizeCycle raw).
Proof.
  intros (x & body & -> & _ & _).
  unfold same_cycle, GraphAnalyzer.normalizeCycle, NodeID in *.
  replace (length (x :: body ++ [x])) with (S (S (length body)))
    by (simpl; rewrite length_app; simpl; lia).
  simpl (_ <=? _)%nat. cbv iota.
  replace (take (S (S (length body)) - 1) (x :: body ++ [x])) with (x :: body).
  2:{ simpl. by rewrite list.take_app_length. }
  set (cn := x :: body) in *.
  destruct (minIndexLoop_min cn (drop 1 cn) 1%nat 0%nat) as [Hm _];
    [done|lia|simpl; lia| |].
  { intros j y Hj Hjy. assert (j = 0)%nat as -> by lia. rewrite Hjy. simpl.
    apply lt_irrefl. }
  unfold NodeID in *.
  set (m := GraphAnalyzer.minIndexLoop cn (drop 1 cn) 1 0) in *.
  exists m. cbv zeta.
  set (rotated := (drop m cn ++ take m cn)%list).
  assert (Hlen : length rotated = length cn).
  { subst rotated. rewrite length_app, length_drop, length_take. lia. }
  rewrite length_app, Hlen. simpl length.
  replace (S (length body) + 1 - 1)%nat with (length rotated)
    by (rewrite Hlen; simpl; lia).
  rewrite list.take_app_length. subst rotated.
  unfold rotate. by rewrite Nat.mod_small.
Qed.

(** X14.  [normalizeCycle] gives one result for all rotations of an
    elementary cycle: two cycles, each listing pairwise different nodes
    and closed by its first node, that are rotations of one another have
    the same normal form. *)
Theorem normalize_cycle_of_rotation
    (R : relation NodeID) (raw1 raw2 : list NodeID) :
  elementary_cycle R raw1 -> elementary_cycle R raw2 -> same_cycle raw1 raw2 ->
  GraphAnalyzer.normalizeCycle raw1 = GraphAnalyzer.normalizeCycle raw2.
Proof.
  intros H1 H2 Hsame.
  apply (min_first_rotation_eq _ _ R).
  - by apply normalizeCycle_elementary.
  - by apply normalizeCycle_elementary.
  - apply normalizeCycle_min_first.
  - apply normalizeCycle_min_first.
  - eapply same_cycle_trans; [apply same_cycle_sym, (normalizeCycle_same_cycle R _ H1)|].
    eapply same_cycle_trans; [exact Hsame|]. by apply (normalizeCycle_same_cycle R).
Qed.

Lemma normalize_cycle_of_rotation_witness :
  GraphAnalyzer.normalizeCycle ["b"; "c"; "a"; "b"]
  = GraphAnalyzer.normalizeCycle ["c"; "a"; "b"; "c"].
Proof.
  apply (normalize_cycle_of_rotation (fun _ _ => True)).
  - exists "b", ["c"; "a"]. split; [reflexivity|]. split; [|simpl; tauto].
    apply (bool_decide_unpack _). vm_compute. exact I.
  - exists "c", ["a"; "b"]. split; [reflexivity|]. split; [|simpl; tauto].
    apply (bool_decide_unpack _). vm_compute. exact I.
  - exists 1%nat. vm_compute. reflexivity.
Defined.
